(** * shrinktunes: the ffmpeg format catalog and the batch conversion driver

    A shallow embedding of [shrinktunes/ffmpeg.py] and [shrinktunes/cli.py].

    Conventions of the embedding:
    - a Python [str] is a list of characters ([list ascii]); a character is
      a code point below 256;
    - a Python [int] is a [Z];
    - the external world (the files that exist, the [subprocess.run] calls
      made so far, what [typer.echo] printed) is an explicit [World] value
      threaded through a state-and-exception monad; an exception leaves the
      world as it was when it was raised;
    - the behaviour of the external [ffmpeg] program and of the glob
      matcher are parameters;
    - the coroutines of cli.py are awaited one at a time, so they are
      plain sequential computations here;
    - [pathlib] is the POSIX flavour of CPython 3.8 to 3.12. *)

From Stdlib Require Import List Ascii String ZArith Bool Arith Lia Permutation Sorted.
Import ListNotations.

Set Implicit Arguments.

Local Open Scope list_scope.

(* [length] is the length of a list throughout. *)
Local Abbreviation length := List.length (only parsing).

(** ** Python strings *)

Module PyStr.

Definition str := list ascii.

(** String literals are written [lit "..."]. *)
Definition lit (s : string) : str := list_ascii_of_string s.

Definition chr_eqb (a b : ascii) : bool := Ascii.eqb a b.

Fixpoint eqb (a b : str) : bool :=
  match a, b with
  | [], [] => true
  | x :: a', y :: b' => chr_eqb x y && eqb a' b'
  | _, _ => false
  end.

(** [str.isspace] on one character, also the class [\s] of [re] on [str]
    patterns: TAB..CR, FS..US, SPACE, NEL and NBSP. *)
Definition is_space (c : ascii) : bool :=
  let n := nat_of_ascii c in
  ((9 <=? n) && (n <=? 13)) || ((28 <=? n) && (n <=? 32))
  || (n =? 133) || (n =? 160).

Definition non_space (c : ascii) : bool := negb (is_space c).

Definition newline : ascii := ascii_of_nat 10.

(** [s.split(c)] for a one-character separator. *)
Fixpoint split (c : ascii) (s : str) : list str :=
  match s with
  | [] => [[]]
  | x :: t =>
      if chr_eqb x c then [] :: split c t
      else match split c t with
           | w :: ws => (x :: w) :: ws
           | [] => [[x]]
           end
  end.

Fixpoint lstrip (s : str) : str :=
  match s with
  | x :: t => if is_space x then lstrip t else s
  | [] => []
  end.

Definition rstrip (s : str) : str := rev (lstrip (rev s)).

(** [s.strip()] *)
Definition strip (s : str) : str := rstrip (lstrip s).

(** [a <= b] on [str]: lexicographic on code points. *)
Fixpoint leb (a b : str) : bool :=
  match a, b with
  | [], _ => true
  | _ :: _, [] => false
  | x :: a', y :: b' =>
      match Ascii.compare x y with
      | Lt => true
      | Gt => false
      | Eq => leb a' b'
      end
  end.

(** [s.startswith(t)] and [s.endswith(t)] *)
Fixpoint startswith (t s : str) : bool :=
  match t, s with
  | [], _ => true
  | x :: t', y :: s' => chr_eqb x y && startswith t' s'
  | _ :: _, [] => false
  end.

Definition endswith (s t : str) : bool := startswith (rev t) (rev s).

(** [s.rfind(c)]: the index of the last occurrence, [None] for [-1]. *)
Fixpoint rfind (c : ascii) (s : str) : option nat :=
  match s with
  | [] => None
  | x :: t =>
      match rfind c t with
      | Some i => Some (S i)
      | None => if chr_eqb x c then Some 0 else None
      end
  end.

End PyStr.

Import PyStr.

(** ** A backtracking matcher for the fragment of [re] that the capability
    pattern uses

    [exec r st] lists every way [r] can match at [st], in the order in which
    a backtracking engine tries them; [re.match] returns the first one. *)

Module Re.

Inductive regex : Type :=
| Bol                                   (* ^ *)
| Eol                                   (* $ *)
| Chr (c : ascii)                       (* a literal character *)
| Opt (r : regex)                       (* r?   greedy *)
| Star (cls : ascii -> bool)            (* c*   greedy, c a character class *)
| Plus (cls : ascii -> bool)            (* c+   greedy *)
| LazyStar (cls : ascii -> bool)        (* c*?  *)
| Group (name : string) (r : regex)     (* (?P<name>r) *)
| Seq (r1 r2 : regex).

(** Position in the subject, what is left of it, and the groups set so
    far (most recent first). *)
Record mstate : Type := MState {
  pos : nat;
  rest : str;
  groups : list (string * str)
}.

Definition advance (st : mstate) (t : str) : mstate :=
  MState (S (pos st)) t (groups st).

Fixpoint star_greedy (cls : ascii -> bool) (p : nat) (s : str)
    (g : list (string * str)) : list mstate :=
  match s with
  | x :: t =>
      if cls x then star_greedy cls (S p) t g ++ [MState p s g]
      else [MState p s g]
  | [] => [MState p s g]
  end.

Fixpoint star_lazy (cls : ascii -> bool) (p : nat) (s : str)
    (g : list (string * str)) : list mstate :=
  MState p s g ::
  match s with
  | x :: t => if cls x then star_lazy cls (S p) t g else []
  | [] => []
  end.

Fixpoint exec (r : regex) (st : mstate) : list mstate :=
  match r with
  | Bol => if pos st =? 0 then [st] else []
  | Eol =>
      match rest st with
      | [] => [st]
      | [c] => if chr_eqb c newline then [st] else []
      | _ => []
      end
  | Chr c =>
      match rest st with
      | x :: t => if chr_eqb x c then [advance st t] else []
      | [] => []
      end
  | Opt r' => exec r' st ++ [st]
  | Star cls => star_greedy cls (pos st) (rest st) (groups st)
  | Plus cls =>
      match rest st with
      | x :: t =>
          if cls x then star_greedy cls (S (pos st)) t (groups st) else []
      | [] => []
      end
  | LazyStar cls => star_lazy cls (pos st) (rest st) (groups st)
  | Group name r' =>
      map (fun st' =>
             MState (pos st') (rest st')
               ((name, firstn (pos st' - pos st) (rest st)) :: groups st'))
          (exec r' st)
  | Seq r1 r2 => flat_map (exec r2) (exec r1 st)
  end.

Fixpoint lookup (name : string) (g : list (string * str)) : option str :=
  match g with
  | [] => None
  | (n, v) :: g' => if String.eqb n name then Some v else lookup name g'
  end.

(** [pattern.match(line)]: the groups of the first match, if any. *)
Definition re_match (r : regex) (line : str) : option (list (string * str)) :=
  match exec r (MState 0 line []) with
  | st :: _ => Some (groups st)
  | [] => None
  end.

End Re.

(** ** ffmpeg.py *)

Record FFmpegFormat : Type := mkFFmpegFormat {
  is_decoder : bool;
  is_encoder : bool;
  extension : str;
  description : str
}.

Module Ffmpeg.

Import Re.

Declare Scope re_scope.
Delimit Scope re_scope with re.
Notation "r1 ';;' r2" := (Seq r1 r2) (at level 61, right associativity) : re_scope.

(** [.] : any character but a newline. *)
Definition dot (c : ascii) : bool := negb (chr_eqb c newline).

(** The pattern of [get_ffmpeg_supported_formats] (written with
    [re.VERBOSE], so its blanks and comments are not part of it). *)
Definition pattern : regex :=
  (Bol ;; Star is_space ;;
   Opt (Group "is_decoder" (Chr "D")) ;;
   Opt (Chr ".") ;;
   Opt (Group "is_encoder" (Chr "E")) ;;
   Plus is_space ;;
   Group "extension" (Plus non_space) ;; Plus is_space ;;
   Group "description" (LazyStar dot) ;; Star is_space ;; Eol)%re.

(** [match.groupdict()]: a group that took no part in the match is [None]. *)
Record groupdict : Type := GroupDict {
  g_is_decoder : option str;
  g_is_encoder : option str;
  g_extension : option str;
  g_description : option str
}.

Definition pattern_match (line : str) : option groupdict :=
  match re_match pattern line with
  | Some g =>
      Some (GroupDict (lookup "is_decoder" g) (lookup "is_encoder" g)
                      (lookup "extension" g) (lookup "description" g))
  | None => None
  end.

(** [d[k] == 'D'] where [d[k]] may be [None]. *)
Definition opt_is (o : option str) (s : str) : bool :=
  match o with
  | Some v => PyStr.eqb v s
  | None => false
  end.

(** [d[k]] for a group that is known to have matched. *)
Definition the (o : option str) : str :=
  match o with
  | Some v => v
  | None => []
  end.

Definition make_format (d : groupdict) (ext : str) : FFmpegFormat :=
  mkFFmpegFormat (opt_is (g_is_decoder d) (lit "D"))
                 (opt_is (g_is_encoder d) (lit "E"))
                 ext
                 (strip (the (g_description d))).

(** The inner loop: [for ext in d["extension"].split(","): formats.append(...)]. *)
Fixpoint append_exts (d : groupdict) (exts : list str)
    (formats : list FFmpegFormat) : list FFmpegFormat :=
  match exts with
  | [] => formats
  | ext :: exts' => append_exts d exts' (formats ++ [make_format d ext])
  end.

(** The outer loop: [for line in output.split("\n")]. *)
Fixpoint parse_lines (lines : list str) (formats : list FFmpegFormat)
    : list FFmpegFormat :=
  match lines with
  | [] => formats
  | line :: lines' =>
      match pattern_match line with
      | Some d =>
          parse_lines lines'
            (append_exts d (split "," (the (g_extension d))) formats)
      | None => parse_lines lines' formats
      end
  end.

(** [get_ffmpeg_supported_formats], as a function of [process.stdout]. *)
Definition get_ffmpeg_supported_formats (output : str) : list FFmpegFormat :=
  parse_lines (split newline output) [].

(** [sorted(l, key=key)] with [str] keys.  Python's sort is stable, and a
    stable sort has one possible result, so insertion of every element
    before the first one that is not smaller gives the list Python returns. *)
Section Sorted.
Variable A : Type.
Variable key : A -> str.

Fixpoint insert_sorted (x : A) (l : list A) : list A :=
  match l with
  | [] => [x]
  | y :: l' =>
      if PyStr.leb (key x) (key y) then x :: l
      else y :: insert_sorted x l'
  end.

Fixpoint sorted (l : list A) : list A :=
  match l with
  | [] => []
  | x :: l' => insert_sorted x (sorted l')
  end.
End Sorted.

(** A [dict] with [str] keys, in insertion order; assigning to a key that
    is present replaces its value in place. *)
Section Dict.
Variable V : Type.

Definition dict := list (str * V).

Fixpoint dict_set (k : str) (v : V) (d : dict) : dict :=
  match d with
  | [] => [(k, v)]
  | (k', v') :: d' =>
      if PyStr.eqb k' k then (k, v) :: d' else (k', v') :: dict_set k v d'
  end.

(** [k in d] *)
Definition dict_contains (k : str) (d : dict) : bool :=
  existsb (fun kv => PyStr.eqb (fst kv) k) d.

Fixpoint dict_get (k : str) (d : dict) : option V :=
  match d with
  | [] => None
  | (k', v') :: d' => if PyStr.eqb k' k then Some v' else dict_get k d'
  end.
End Dict.

(** The module-level constants, as functions of what [ffmpeg -formats]
    printed when the module was imported. *)
Definition SUPPORTED_FORMATS (output : str) : list FFmpegFormat :=
  sorted extension (get_ffmpeg_supported_formats output).

Definition by_extension (formats : list FFmpegFormat) : dict FFmpegFormat :=
  fold_left (fun d fmt => dict_set (extension fmt) fmt d) formats [].

Definition SUPPORTED_FORMATS_BY_EXTENSION (output : str) : dict FFmpegFormat :=
  by_extension (SUPPORTED_FORMATS output).

End Ffmpeg.

Import Ffmpeg.

(** ** pathlib: the part of [Path] that cli.py uses (POSIX flavour) *)

Inductive exn : Type :=
| ValueError
| NotImplementedError
| FileNotFoundError
| CalledProcessError (returncode : Z)
| TyperExit (code : Z).

Inductive Res (A : Type) : Type :=
| Ok (a : A)
| Raise (e : exn).
Arguments Ok {A} a.
Arguments Raise {A} e.

Module Pathlib.

(** A relative path: the directories above the file, and its final
    component. *)
Record Path : Type := mkPath {
  parent : list str;
  name : str
}.

Fixpoint parts_eqb (a b : list str) : bool :=
  match a, b with
  | [], [] => true
  | x :: a', y :: b' => PyStr.eqb x y && parts_eqb a' b'
  | _, _ => false
  end.

Definition path_eqb (p q : Path) : bool :=
  parts_eqb (parent p) (parent q) && PyStr.eqb (name p) (name q).

(** [path.suffix] *)
Definition suffix (p : Path) : str :=
  match rfind "." (name p) with
  | Some i =>
      if (0 <? i) && (i <? length (name p) - 1) then skipn i (name p) else []
  | None => []
  end.

Definition is_empty (s : str) : bool :=
  match s with [] => true | _ => false end.

(** [c in s] for one character *)
Definition contains (c : ascii) (s : str) : bool := existsb (chr_eqb c) s.

(** [path.with_suffix(sfx)] *)
Definition with_suffix (p : Path) (sfx : str) : Res Path :=
  if contains "/" sfx then Raise ValueError
  else if (negb (is_empty sfx) && negb (startswith (lit ".") sfx))
          || PyStr.eqb sfx (lit ".") then Raise ValueError
  else if is_empty (name p) then Raise ValueError
  else
    let old_suffix := suffix p in
    Ok (mkPath (parent p)
          (if is_empty old_suffix then name p ++ sfx
           else firstn (length (name p) - length old_suffix) (name p) ++ sfx)).

End Pathlib.

Import Pathlib.

(** ** The external world *)

(** How a [subprocess.run] ended: the program ran and exited with a status,
    or it could not be started. *)
Inductive ProcResult : Type :=
| Exited (returncode : Z)
| NotFound.

Inductive Invocation : Type :=
| RunVersion (r : ProcResult)                          (* ffmpeg -version *)
| RunConvert (input output : Path) (r : ProcResult).   (* ffmpeg -i input output *)

(** What [typer.echo] printed, with the interpolated values kept apart.
    The [Log] messages are the ones that go through [log], which puts a
    timestamp in front of them. *)
Inductive Msg : Type :=
| LogSkipping (output_path : Path)
| LogConverted (input_path output_path : Path)
| LogScanning (glob_pattern : str)
| LogFound (n : Z)
| LogConvertedTo (converted_count : Z) (output_format : str)
| LogSummary (converted_count skipped : Z)
| EchoNotInstalled
| EchoHintMacOS
| EchoHintUbuntu
| EchoHintWindows
| EchoHintGuide (os_type : str)
| EchoUnsupported (fmt : str)
| EchoError (e : exn).

Record World : Type := mkWorld {
  files : list Path;          (* the files that exist, in directory order *)
  trace : list Invocation;    (* the subprocess calls made, oldest first *)
  echoed : list Msg           (* the lines printed, oldest first *)
}.

(** Computations that read and change the world and may raise. *)
Definition M (A : Type) : Type := World -> Res A * World.

Definition ret {A} (a : A) : M A := fun w => (Ok a, w).

Definition raise {A} (e : exn) : M A := fun w => (Raise e, w).

Definition bind {A B} (m : M A) (k : A -> M B) : M B :=
  fun w =>
    match m w with
    | (Ok a, w') => k a w'
    | (Raise e, w') => (Raise e, w')
    end.

(** [try: m except Exception as e: handler(e)] *)
Definition try_except {A} (m : M A) (handler : exn -> M A) : M A :=
  fun w =>
    match m w with
    | (Ok a, w') => (Ok a, w')
    | (Raise e, w') => handler e w'
    end.

Definition lift {A} (r : Res A) : M A := fun w => (r, w).

Declare Scope py_scope.
Delimit Scope py_scope with py.
Notation "x <- m ;; k" := (bind m (fun x => k))
  (at level 61, m at next level, right associativity) : py_scope.
Notation "m ;; k" := (bind m (fun _ => k))
  (at level 61, right associativity) : py_scope.
Local Open Scope py_scope.

Definition echo (m : Msg) : M unit :=
  fun w => (Ok tt, mkWorld (files w) (trace w) (echoed w ++ [m])).

(** [path.exists()] *)
Definition path_exists (p : Path) : M bool :=
  fun w => (Ok (existsb (path_eqb p) (files w)), w).

(** ** cli.py *)

Module Cli.

Section Command.

(** [Path().glob(pattern)]: pathlib either rejects the pattern or selects
    the existing files that match it. *)
Variable glob_selector : str -> Res (Path -> bool).

(** [ffmpeg -i input output], started after the given calls among the
    given files: how it ends and the files that exist afterwards. *)
Variable ffmpeg_convert :
  list Invocation -> list Path -> Path -> Path -> ProcResult * list Path.

(** [ffmpeg -version] *)
Variable ffmpeg_version : list Invocation -> list Path -> ProcResult.

(** [platform.system()] *)
Variable os_type : str.

(** What [ffmpeg -formats] printed when [shrinktunes.ffmpeg] was imported. *)
Variable formats_output : str.

Definition glob (glob_pattern : str) : M (list Path) :=
  fun w =>
    match glob_selector glob_pattern with
    | Ok selects => (Ok (filter selects (files w)), w)
    | Raise e => (Raise e, w)
    end.

(** [subprocess.run(["ffmpeg", "-i", str(input), str(output)], check=True)] *)
Definition run_ffmpeg (input output : Path) : M unit :=
  fun w =>
    let (r, files') := ffmpeg_convert (trace w) (files w) input output in
    let w' := mkWorld files' (trace w ++ [RunConvert input output r]) (echoed w) in
    match r with
    | Exited 0 => (Ok tt, w')
    | Exited c => (Raise (CalledProcessError c), w')
    | NotFound => (Raise FileNotFoundError, w')
    end.

Definition log (message : Msg) (verbose : bool) : M unit :=
  if verbose then echo message else ret tt.

Definition convert_file (input_path : Path) (output_format : str)
    (verbose force : bool) : M bool :=
  output_path <- lift (with_suffix input_path ("."%char :: output_format)) ;;
  present <- path_exists output_path ;;
  if present && negb force then
    log (LogSkipping output_path) verbose ;;
    ret false
  else
    run_ffmpeg input_path output_path ;;
    log (LogConverted input_path output_path) verbose ;;
    ret true.

(** [for path in paths: ...], with the counter it updates. *)
Fixpoint for_paths (paths : list Path) (output_format : str)
    (verbose force : bool) (converted_count : Z) : M Z :=
  match paths with
  | [] => ret converted_count
  | path :: paths' =>
      if PyStr.eqb (suffix path) (lit ".wav") then
        success <- convert_file path output_format verbose force ;;
        for_paths paths' output_format verbose force
          (if success : bool then converted_count + 1 else converted_count)%Z
      else
        for_paths paths' output_format verbose force converted_count
  end.

(** [for output_format in output_formats: ...] *)
Fixpoint for_formats (output_formats : list str) (paths : list Path)
    (verbose force : bool) (converted_count : Z) : M Z :=
  match output_formats with
  | [] => ret converted_count
  | output_format :: output_formats' =>
      converted_count' <-
        for_paths paths output_format verbose force converted_count ;;
      log (LogConvertedTo converted_count' output_format) verbose ;;
      for_formats output_formats' paths verbose force converted_count'
  end.

Definition len {A} (l : list A) : Z := Z.of_nat (length l).

Definition convert_files (glob_pattern : str) (output_formats : list str)
    (verbose force : bool) : M unit :=
  paths <- glob glob_pattern ;;
  log (LogScanning glob_pattern) verbose ;;
  log (LogFound (len paths)) verbose ;;
  converted_count <- for_formats output_formats paths verbose force 0%Z ;;
  log (LogSummary converted_count (len paths - converted_count)%Z) verbose.

(** ffmpeg.py: [check_ffmpeg_installation]; only [FileNotFoundError] is
    caught. *)
Definition check_ffmpeg_installation : M bool :=
  fun w =>
    let r := ffmpeg_version (trace w) (files w) in
    let w' := mkWorld (files w) (trace w ++ [RunVersion r]) (echoed w) in
    match r with
    | Exited 0 => (Ok true, w')
    | Exited c => (Raise (CalledProcessError c), w')
    | NotFound => (Ok false, w')
    end.

Definition echo_install_hint : M unit :=
  if PyStr.eqb os_type (lit "Darwin") then echo EchoHintMacOS
  else if PyStr.eqb os_type (lit "Linux") then echo EchoHintUbuntu
  else if PyStr.eqb os_type (lit "Windows") then echo EchoHintWindows
  else echo (EchoHintGuide os_type).

(** [for fmt in output: if fmt not in SUPPORTED_FORMATS_BY_EXTENSION: ...] *)
Fixpoint check_output_formats (output : list str) : M unit :=
  match output with
  | [] => ret tt
  | fmt :: output' =>
      if negb (dict_contains fmt (SUPPORTED_FORMATS_BY_EXTENSION formats_output))
      then
        echo (EchoUnsupported fmt) ;;
        raise (TyperExit 1)
      else check_output_formats output'
  end.

Definition convert (glob_pattern : str) (output : list str)
    (verbose force : bool) : M unit :=
  installed <- check_ffmpeg_installation ;;
  (if negb installed then
     echo EchoNotInstalled ;;
     echo_install_hint ;;
     raise (TyperExit 1)
   else ret tt) ;;
  check_output_formats output ;;
  try_except (convert_files glob_pattern output verbose force)
    (fun e => echo (EchoError e) ;; raise (TyperExit 1)).

(** The exit status of the process for a command that ended with [r]:
    [typer.Exit(code)] gives [code], any other exception ends the process
    with status 1. *)
Definition exit_status {A} (r : Res A) : Z :=
  match r with
  | Ok _ => 0
  | Raise (TyperExit code) => code
  | Raise _ => 1
  end.

End Command.

End Cli.

Import Cli.

(** ** ffmpeg.py: the derived views and [print_ffmpeg_info] *)

Module Views.

(** The set literal of [filter_extensions]. *)
Definition DEFAULT_EXTS : list str :=
  map lit ["wav"; "mp3"; "m4a"; "ogg"; "flac"; "wma"; "aac"; "mp4"; "webm";
           "mkv"; "avi"; "wma"]%string.

(** [x in s] for a set of [str]. *)
Definition str_in (x : str) (s : list str) : bool := existsb (PyStr.eqb x) s.

(** [exts or {...}]: the default set stands in for [None] and for an empty
    set. *)
Definition exts_or_default (exts : option (list str)) : list str :=
  match exts with
  | Some (e :: es) => e :: es
  | Some [] => DEFAULT_EXTS
  | None => DEFAULT_EXTS
  end.

Definition filter_extensions (formats : list FFmpegFormat)
    (exts : option (list str)) : list FFmpegFormat :=
  let exts := exts_or_default exts in
  filter (fun fmt => str_in (extension fmt) exts) formats.

Definition SUPPORTED_DECODE_FORMATS (output : str) : list FFmpegFormat :=
  filter is_decoder (SUPPORTED_FORMATS output).

Definition SUPPORTED_ENCODE_FORMATS (output : str) : list FFmpegFormat :=
  filter is_encoder (SUPPORTED_FORMATS output).

Definition COMMON_SUPPORTED_DECODE_FORMATS (output : str) : list FFmpegFormat :=
  filter_extensions (SUPPORTED_DECODE_FORMATS output) None.

Definition COMMON_SUPPORTED_ENCODE_FORMATS (output : str) : list FFmpegFormat :=
  filter_extensions (SUPPORTED_ENCODE_FORMATS output) None.

(** [a == b] on the dataclass: field by field. *)
Definition format_eqb (a b : FFmpegFormat) : bool :=
  Bool.eqb (is_decoder a) (is_decoder b) &&
  Bool.eqb (is_encoder a) (is_encoder b) &&
  PyStr.eqb (extension a) (extension b) &&
  PyStr.eqb (description a) (description b).

(** [fmt in formats] *)
Definition format_in (fmt : FFmpegFormat) (formats : list FFmpegFormat) : bool :=
  existsb (format_eqb fmt) formats.

Inductive Colour : Type := GREEN | RED | YELLOW | BLUE.

(** A line given to [typer.echo]: a plain string, or the result of
    [typer.style(text, bold=..., fg=...)] ([bold] is [None] when the call
    does not pass it). *)
Inductive InfoLine : Type :=
| Plain (text : str)
| Style (text : str) (bold : option bool) (fg : Colour).

(** [f"{s:{width}}"] for a [str]: padded with blanks on the right, never
    cut. *)
Definition pad (s : str) (width : nat) : str :=
  s ++ repeat " "%char (width - length s).

(** [max(...)] of a generator of [int]s. *)
Definition py_max (l : list nat) : Res nat :=
  match l with
  | [] => Raise ValueError
  | x :: t => Ok (fold_left Nat.max t x)
  end.

(** One of the two [for fmt in ...: typer.echo(typer.style(...))] loops. *)
Fixpoint echo_formats (formats common : list FFmpegFormat) (width : nat)
    (fg : Colour) (printed : list InfoLine) : list InfoLine :=
  match formats with
  | [] => printed
  | fmt :: formats' =>
      echo_formats formats' common width fg
        (printed ++
         [Style (pad (extension fmt) width ++ description fmt)
                (Some (format_in fmt common)) fg])
  end.

(** How [print_ffmpeg_info] ends. *)
Inductive InfoEnd : Type :=
| Returned
| SystemExit (code : Z)
| Uncaught (e : exn).

(** [print_ffmpeg_info]: how it ends, the world after it, and the lines it
    printed. *)
Definition print_ffmpeg_info
    (ffmpeg_version : list Invocation -> list Path -> ProcResult)
    (formats_output : str)
    (print_decoders print_encoders show_all : bool) (w : World)
    : InfoEnd * World * list InfoLine :=
  match check_ffmpeg_installation ffmpeg_version w with
  | (Raise e, w') => (Uncaught e, w', [])
  | (Ok false, w') =>
      (SystemExit 1, w', [Style (lit "ffmpeg is NOT installed") None RED])
  | (Ok true, w') =>
      let printed := [Style (lit "ffmpeg is installed") None GREEN] in
      match py_max (map (fun fmt => length (extension fmt))
                        (SUPPORTED_FORMATS formats_output)) with
      | Raise e => (Uncaught e, w', printed)
      | Ok ext_max_len =>
          let gap := 3 in
          let printed :=
            if print_decoders then
              echo_formats
                (if show_all then SUPPORTED_DECODE_FORMATS formats_output
                 else COMMON_SUPPORTED_DECODE_FORMATS formats_output)
                (COMMON_SUPPORTED_DECODE_FORMATS formats_output)
                (ext_max_len + gap) YELLOW
                (printed ++ [Plain (newline :: lit "Decoders:")])
            else printed in
          let printed :=
            if print_encoders then
              echo_formats
                (if show_all then SUPPORTED_ENCODE_FORMATS formats_output
                 else COMMON_SUPPORTED_ENCODE_FORMATS formats_output)
                (COMMON_SUPPORTED_ENCODE_FORMATS formats_output)
                (ext_max_len + gap) BLUE
                (printed ++ [Plain (newline :: lit "Encoders:")])
            else printed in
          (Returned, w', printed)
      end
  end.

(** cli.py: the [info] command. *)
Definition info
    (ffmpeg_version : list Invocation -> list Path -> ProcResult)
    (formats_output : str) (w : World) : InfoEnd * World * list InfoLine :=
  print_ffmpeg_info ffmpeg_version formats_output true true false w.

End Views.

Import Views.

(** ** Vocabulary of the specification *)

(** What one line of the listing contributes to the result of
    [get_ffmpeg_supported_formats]. *)
Definition line_formats (line : str) : list FFmpegFormat :=
  match pattern_match line with
  | Some d => map (make_format d) (split "," (the (g_extension d)))
  | None => []
  end.

Fixpoint count_chr (c : ascii) (s : str) : nat :=
  match s with
  | [] => 0
  | x :: t => (if chr_eqb x c then 1 else 0) + count_chr c t
  end.

(** [extension a <= extension b] *)
Definition ext_le (a b : FFmpegFormat) : Prop :=
  PyStr.leb (extension a) (extension b) = true.

Definition has_extension (e : str) (f : FFmpegFormat) : bool :=
  PyStr.eqb (extension f) e.

(** The flag region of a capability line: an optional [D], an optional
    [.], an optional [E]. *)
Definition flag_text (flag : bool) (c : ascii) : str :=
  if flag then [c] else [].

(** The two-line listing of the specification's scenario. *)
Definition two_lines : str :=
  lit "DE mp3,mp2  MPEG audio layer" ++ [newline] ++ lit "weird garbage line".

(** The files that [convert_files] passes to [convert_file]. *)
Definition is_wav (p : Path) : bool := PyStr.eqb (suffix p) (lit ".wav").

Definition candidates (paths : list Path) : list Path := filter is_wav paths.

(** The (file, format) pairs of a batch: formats in the caller's order,
    and for each of them the candidates in discovery order. *)
Definition tasks (output_formats : list str) (paths : list Path)
    : list (Path * str) :=
  flat_map (fun fmt => map (fun p => (p, fmt)) (candidates paths))
           output_formats.

Definition destination (t : Path * str) : Res Path :=
  with_suffix (fst t) ("."%char :: snd t).

(** A transcoder run that converted its file. *)
Definition succeeded (r : ProcResult) : bool :=
  match r with
  | Exited 0 => true
  | _ => false
  end.

(** What [subprocess.run(..., check=True)] raises when the run failed. *)
Definition failure (r : ProcResult) : exn :=
  match r with
  | Exited c => CalledProcessError c
  | NotFound => FileNotFoundError
  end.

Definition is_conversion (i : Invocation) : bool :=
  match i with
  | RunConvert _ _ _ => true
  | RunVersion _ => false
  end.

Definition converted (i : Invocation) : bool :=
  match i with
  | RunConvert _ _ r => succeeded r
  | RunVersion _ => false
  end.

Definition failed (i : Invocation) : bool :=
  match i with
  | RunConvert _ _ r => negb (succeeded r)
  | RunVersion _ => false
  end.

(** The number of files that the calls of a trace converted. *)
Definition count_converted (calls : list Invocation) : Z :=
  Z.of_nat (length (filter converted calls)).

(** The destination that a per-file log line names. *)
Definition attempted (m : Msg) : list Path :=
  match m with
  | LogSkipping q => [q]
  | LogConverted _ q => [q]
  | _ => []
  end.

Definition attempts (printed : list Msg) : list Path :=
  flat_map attempted printed.

Definition file_exists (p : Path) (w : World) : bool :=
  existsb (path_eqb p) (files w).

(** Fail-fast: a transcoder run that failed is the last call of the batch,
    and the batch ends with the exception of that failure. *)
Definition fail_fast {A} (r : Res A) (calls : list Invocation) : Prop :=
  forall pre i post,
    calls = pre ++ i :: post -> failed i = true ->
    post = [] /\
    exists input output res,
      i = RunConvert input output res /\ r = Raise (failure res).

(** The first requested format that is not a key of
    [SUPPORTED_FORMATS_BY_EXTENSION]. *)
Definition first_unsupported (formats_output : str) (output : list str)
    : option str :=
  find (fun fmt =>
          negb (dict_contains fmt (SUPPORTED_FORMATS_BY_EXTENSION formats_output)))
       output.

(** What [convert] does with an exception of the batch. *)
Definition report_error (e : exn) : M unit :=
  bind (echo (EchoError e)) (fun _ => raise (TyperExit 1)).

(** A transcoder run that succeeds leaves the files that were there and
    adds its output, nothing else. *)
Definition creates_destination
    (ffmpeg_convert :
       list Invocation -> list Path -> Path -> Path -> ProcResult * list Path)
    : Prop :=
  forall calls fs input output fs',
    ffmpeg_convert calls fs input output = (Exited 0, fs') ->
    forall q, In q fs' <-> In q fs \/ q = output.

(** A target extension whose destinations are not wav files again:
    [wav] itself (the destination is the source), or one that does not end
    in [.wav]. *)
Definition plain_target (fmt : str) : Prop :=
  fmt = lit "wav" \/ endswith fmt (lit ".wav") = false.

(** *** Scenarios *)

(** A file of the working directory. *)
Definition file (s : string) : Path := mkPath [] (lit s).

(** A glob pattern that every file matches. *)
Definition glob_any : str -> Res (Path -> bool) :=
  fun _ => Ok (fun _ => true).

(** A transcoder that always succeeds and creates its output. *)
Definition ffmpeg_creates (calls : list Invocation) (fs : list Path)
    (input output : Path) : ProcResult * list Path :=
  (Exited 0, if existsb (path_eqb output) fs then fs else fs ++ [output]).

(** A transcoder that exits with status 1 on one input. *)
Definition ffmpeg_fails_on (bad : Path) (calls : list Invocation)
    (fs : list Path) (input output : Path) : ProcResult * list Path :=
  if path_eqb input bad then (Exited 1, fs)
  else ffmpeg_creates calls fs input output.

(** A glob pattern like [*.wav]: the files whose name ends in [.wav]. *)
Definition glob_star_wav : str -> Res (Path -> bool) :=
  fun _ => Ok (fun p => endswith (name p) (lit ".wav")).

(** No [ffmpeg] on the path. *)
Definition ffmpeg_absent (calls : list Invocation) (fs : list Path)
    : ProcResult := NotFound.

(** An [ffmpeg] whose [-version] exits with status 2. *)
Definition ffmpeg_broken (calls : list Invocation) (fs : list Path)
    : ProcResult := Exited 2.

(** A glob pattern that pathlib rejects. *)
Definition glob_rejects : str -> Res (Path -> bool) :=
  fun _ => Raise ValueError.

Definition ffmpeg_installed (calls : list Invocation) (fs : list Path)
    : ProcResult := Exited 0.

Definition fresh (fs : list Path) : World := mkWorld fs [] [].

(** A listing with one format that ffmpeg can read but not write. *)
Definition decode_only_listing : str := lit " D  ape             Monkey's Audio".

(** *** The listing that [print_ffmpeg_info] prints *)

(** The width of the extension column: the longest extension of the
    catalog and a gap of 3. *)
Definition info_width (formats_output : str) : nat :=
  list_max (map (fun fmt => length (extension fmt))
                (SUPPORTED_FORMATS formats_output)) + 3.

(** The line of one format, bold when its extension is in the default
    set. *)
Definition info_line (width : nat) (fg : Colour) (fmt : FFmpegFormat)
    : InfoLine :=
  Style (pad (extension fmt) width ++ description fmt)
        (Some (str_in (extension fmt) DEFAULT_EXTS)) fg.

(** A heading and the lines of the formats under it. *)
Definition info_section (wanted : bool) (title : string) (width : nat)
    (fg : Colour) (formats : list FFmpegFormat) : list InfoLine :=
  if wanted then Plain (newline :: lit title) :: map (info_line width fg) formats
  else [].

(** The world after the installation check. *)
Definition probed (r : ProcResult) (w : World) : World :=
  mkWorld (files w) (trace w ++ [RunVersion r]) (echoed w).

(** Two outcomes that differ at most in what was printed. *)
Definition same_but_printed {A} (a b : Res A * World) : Prop :=
  fst a = fst b /\ files (snd a) = files (snd b) /\
  trace (snd a) = trace (snd b).

(** The transcoder call of a task that is run and succeeds. *)
Definition call_of (t : Path * str) : option Invocation :=
  match destination t with
  | Ok q => Some (RunConvert (fst t) q (Exited 0))
  | Raise _ => None
  end.

(** The conversions of a list of (file, format) pairs attempted one after
    the other: [convert_file] on each pair, in the order of the list, up to
    the first exception. *)
Fixpoint convert_each
    (ffmpeg_convert :
       list Invocation -> list Path -> Path -> Path -> ProcResult * list Path)
    (pairs : list (Path * str)) (verbose force : bool) : M unit :=
  match pairs with
  | [] => ret tt
  | (input_path, output_format) :: pairs' =>
      bind (convert_file ffmpeg_convert input_path output_format verbose force)
           (fun _ => convert_each ffmpeg_convert pairs' verbose force)
  end.

(** The exception a computation ended with, if any. *)
Definition raised {A} (r : Res A) : option exn :=
  match r with
  | Ok _ => None
  | Raise e => Some e
  end.

(** Two runs that end alike (both return, or both raise the same
    exception), with the same files and the same subprocess calls. *)
Definition same_run {A B} (a : Res A * World) (b : Res B * World) : Prop :=
  raised (fst a) = raised (fst b) /\ files (snd a) = files (snd b) /\
  trace (snd a) = trace (snd b).

(** ** Invariants of the proofs *)

(** What a match of a repeated character class consumed. *)
Definition consumed (cls : ascii -> bool) (p : nat) (s : str)
    (g : list (string * str)) (st' : Re.mstate) : Prop :=
  exists pre,
    s = pre ++ Re.rest st' /\ forallb cls pre = true /\
    Re.pos st' = p + length pre /\ Re.groups st' = g.

(** The outcomes of one call of [convert_file]: the destination cannot be
    derived; it exists and the call is a skip; the transcoder ran and
    succeeded; the transcoder ran and failed. *)
Inductive convert_file_outcome
    (ffmpeg_convert :
       list Invocation -> list Path -> Path -> Path -> ProcResult * list Path)
    (p : Path) (fmt : str) (verbose force : bool)
    (w : World) : Res bool * World -> Prop :=
| cf_invalid e :
    destination (p, fmt) = Raise e ->
    convert_file_outcome ffmpeg_convert p fmt verbose force w (Raise e, w)
| cf_skip q :
    destination (p, fmt) = Ok q ->
    file_exists q w = true -> force = false ->
    convert_file_outcome ffmpeg_convert p fmt verbose force w
      (Ok false, mkWorld (files w) (trace w)
                   (echoed w ++ (if verbose then [LogSkipping q] else [])))
| cf_converted q fs' :
    destination (p, fmt) = Ok q ->
    file_exists q w && negb force = false ->
    ffmpeg_convert (trace w) (files w) p q = (Exited 0, fs') ->
    convert_file_outcome ffmpeg_convert p fmt verbose force w
      (Ok true, mkWorld fs' (trace w ++ [RunConvert p q (Exited 0)])
                  (echoed w ++ (if verbose then [LogConverted p q] else [])))
| cf_failed q r fs' :
    destination (p, fmt) = Ok q ->
    file_exists q w && negb force = false ->
    ffmpeg_convert (trace w) (files w) p q = (r, fs') ->
    succeeded r = false ->
    convert_file_outcome ffmpeg_convert p fmt verbose force w
      (Raise (failure r), mkWorld fs' (trace w ++ [RunConvert p q r]) (echoed w)).

(** The postcondition of a loop over the tasks [ts] that started after
    the tasks [done]: the invariant [I] after all of them when the loop
    completes, and [E] at the task that raised otherwise. *)
Definition loop_post
    (I : list (Path * str) -> World -> Z -> Prop)
    (E : list (Path * str) -> Path * str -> exn -> World -> Prop)
    (done ts : list (Path * str)) (out : Res Z * World) : Prop :=
  match out with
  | (Ok c', w') => I (done ++ ts) w' c'
  | (Raise e, w') =>
      exists pre t post, ts = pre ++ t :: post /\ E (done ++ pre) t e w'
  end.

(** Since [w] and the counter value [c], calls were made and lines were
    printed, and the counter went up by the number of files converted. *)
Definition grown (w : World) (c : Z) (w1 : World) (c1 : Z) : Prop :=
  exists calls printed,
    trace w1 = trace w ++ calls /\
    echoed w1 = echoed w ++ printed /\
    c1 = (c + count_converted calls)%Z.

(** The per-file lines printed since [w] name the destinations of the
    tasks [done]. *)
Definition attempts_follow (w : World) (done : list (Path * str))
    (w1 : World) : Prop :=
  exists printed,
    echoed w1 = echoed w ++ printed /\
    map Ok (attempts printed) = map destination done.

(** Every call converted a wav file among [paths]. *)
Definition runs_ok (paths : list Path) (calls : list Invocation) : Prop :=
  forall i, In i calls ->
    converted i = true /\
    exists input output, i = RunConvert input output (Exited 0) /\
                         is_wav input = true /\ In input paths.

(** As [runs_ok], but for a last call that failed with [e]. *)
Definition runs_upto (e : exn) (paths : list Path) (calls : list Invocation)
    : Prop :=
  runs_ok paths calls \/
  exists calls0 input output res,
    calls = calls0 ++ [RunConvert input output res] /\
    runs_ok paths calls0 /\ succeeded res = false /\ e = failure res /\
    is_wav input = true /\ In input paths.

(** What holds of the files while a batch without [force] runs from
    [w] over the tasks [all]: nothing disappears, the destinations of the
    tasks gone through exist, and every new file is the destination of a
    task. *)
Definition destinations_made (w : World) (all done : list (Path * str))
    (w1 : World) : Prop :=
  (forall q, In q (files w) -> In q (files w1)) /\
  (forall t, In t done -> exists q, destination t = Ok q /\ In q (files w1)) /\
  (forall q, In q (files w1) ->
     In q (files w) \/ exists t, In t all /\ destination t = Ok q).

(** ** Facts about strings *)

Section StrFacts.

Lemma chr_eqb_eq a b : chr_eqb a b = true <-> a = b.
Proof. apply Ascii.eqb_eq. Qed.

Lemma chr_eqb_refl a : chr_eqb a a = true.
Proof. apply Ascii.eqb_refl. Qed.

Lemma str_eqb_eq a : forall b, PyStr.eqb a b = true <-> a = b.
Proof.
  induction a as [|x a IH]; intros [|y b]; simpl; split; try congruence; auto.
  - intros H. apply andb_true_iff in H as [Hx Hab].
    apply chr_eqb_eq in Hx. apply IH in Hab. congruence.
  - intros H. injection H as -> ->.
    rewrite chr_eqb_refl. simpl. now apply IH.
Qed.

Lemma str_eqb_refl a : PyStr.eqb a a = true.
Proof. now apply str_eqb_eq. Qed.

Lemma str_eqb_neq a b : PyStr.eqb a b = false <-> a <> b.
Proof.
  split.
  - intros H E. apply str_eqb_eq in E. congruence.
  - intros H. destruct (PyStr.eqb a b) eqn:E; [|reflexivity].
    apply str_eqb_eq in E. contradiction.
Qed.

Lemma chr_compare_refl x : Ascii.compare x x = Eq.
Proof. unfold Ascii.compare. apply N.compare_refl. Qed.

Lemma chr_compare_eq x y : Ascii.compare x y = Eq -> x = y.
Proof. apply Ascii.compare_eq_iff. Qed.

Lemma chr_compare_lt_trans x y z :
  Ascii.compare x y = Lt -> Ascii.compare y z = Lt -> Ascii.compare x z = Lt.
Proof.
  unfold Ascii.compare. rewrite !N.compare_lt_iff. apply N.lt_trans.
Qed.

Lemma chr_compare_gt_lt x y :
  Ascii.compare x y = Gt -> Ascii.compare y x = Lt.
Proof.
  unfold Ascii.compare. rewrite N.compare_gt_iff, N.compare_lt_iff. auto.
Qed.

Lemma str_leb_refl a : PyStr.leb a a = true.
Proof.
  induction a as [|x a IH]; simpl; [reflexivity|].
  now rewrite chr_compare_refl.
Qed.

Lemma str_leb_total a : forall b, PyStr.leb a b = false -> PyStr.leb b a = true.
Proof.
  induction a as [|x a IH]; intros [|y b]; simpl; try congruence.
  destruct (Ascii.compare x y) eqn:E; try congruence.
  - apply chr_compare_eq in E. subst y. rewrite chr_compare_refl. apply IH.
  - intros _. now rewrite (chr_compare_gt_lt _ _ E).
Qed.

Lemma str_leb_trans a : forall b c,
  PyStr.leb a b = true -> PyStr.leb b c = true -> PyStr.leb a c = true.
Proof.
  induction a as [|x a IH]; intros [|y b] [|z c]; simpl; try congruence.
  destruct (Ascii.compare x y) eqn:Exy; try congruence;
    destruct (Ascii.compare y z) eqn:Eyz; try congruence; intros H1 H2.
  - apply chr_compare_eq in Exy, Eyz. subst. rewrite chr_compare_refl. eauto.
  - apply chr_compare_eq in Exy. subst. now rewrite Eyz.
  - apply chr_compare_eq in Eyz. subst. now rewrite Exy.
  - now rewrite (chr_compare_lt_trans _ _ _ Exy Eyz).
Qed.

Lemma split_nonempty c s : split c s <> [].
Proof.
  destruct s as [|x t]; simpl; [discriminate|].
  destruct (chr_eqb x c); [discriminate|].
  destruct (split c t); discriminate.
Qed.

(** [split] returns one piece more than there are separators. *)
Lemma split_length c s : length (split c s) = S (count_chr c s).
Proof.
  induction s as [|x t IH]; simpl; [reflexivity|].
  destruct (chr_eqb x c); simpl; [now rewrite IH|].
  destruct (split c t) eqn:E; simpl in *; [discriminate|]. exact IH.
Qed.

End StrFacts.

(** ** Facts about [sorted] *)

Section SortedFacts.

Variable A : Type.
Variable key : A -> str.

Let key_le (a b : A) : Prop := PyStr.leb (key a) (key b) = true.

Lemma insert_sorted_perm x l : Permutation (insert_sorted key x l) (x :: l).
Proof.
  induction l as [|y l IH]; simpl; [apply Permutation_refl|].
  destruct (PyStr.leb (key x) (key y)); [apply Permutation_refl|].
  eapply perm_trans; [apply perm_skip, IH | apply perm_swap].
Qed.

Lemma sorted_perm l : Permutation (sorted key l) l.
Proof.
  induction l as [|x l IH]; simpl; [constructor|].
  eapply perm_trans; [apply insert_sorted_perm | now apply perm_skip].
Qed.

Lemma insert_sorted_hdrel a x l :
  HdRel key_le a l -> key_le a x -> HdRel key_le a (insert_sorted key x l).
Proof.
  intros Hl Hx. destruct l as [|y l]; simpl; [now constructor|].
  destruct (PyStr.leb (key x) (key y)); constructor; auto.
  now inversion Hl.
Qed.

Lemma insert_sorted_sorted x l :
  Sorted key_le l -> Sorted key_le (insert_sorted key x l).
Proof.
  induction 1 as [|y l Hs IH Hhd]; simpl; [repeat constructor|].
  destruct (PyStr.leb (key x) (key y)) eqn:E.
  - constructor; [now constructor | now constructor].
  - constructor; [exact IH|].
    apply insert_sorted_hdrel; [exact Hhd|].
    now apply str_leb_total.
Qed.

Lemma sorted_Sorted l : Sorted key_le (sorted key l).
Proof.
  induction l as [|x l IH]; simpl; [constructor|].
  now apply insert_sorted_sorted.
Qed.

Lemma sorted_StronglySorted l : StronglySorted key_le (sorted key l).
Proof.
  apply Sorted_StronglySorted; [|apply sorted_Sorted].
  intros a b c. unfold key_le. apply str_leb_trans.
Qed.

(** Stability: elements with equal keys keep their order. *)
Lemma insert_sorted_filter k x l :
  filter (fun a => PyStr.eqb (key a) k) (insert_sorted key x l) =
  filter (fun a => PyStr.eqb (key a) k) (x :: l).
Proof.
  induction l as [|y l IH]; [reflexivity|].
  cbn [insert_sorted].
  destruct (PyStr.leb (key x) (key y)) eqn:E; [reflexivity|].
  cbn [filter] in *. rewrite IH.
  destruct (PyStr.eqb (key x) k) eqn:Ex; [|reflexivity].
  destruct (PyStr.eqb (key y) k) eqn:Ey; [|reflexivity].
  apply str_eqb_eq in Ex, Ey. rewrite Ex, Ey, str_leb_refl in E. discriminate.
Qed.

Lemma sorted_stable k l :
  filter (fun a => PyStr.eqb (key a) k) (sorted key l) =
  filter (fun a => PyStr.eqb (key a) k) l.
Proof.
  induction l as [|x l IH]; [reflexivity|].
  cbn [sorted]. rewrite insert_sorted_filter. cbn [filter]. now rewrite IH.
Qed.

End SortedFacts.

(** ** Facts about the matcher *)

Section ReFacts.

Import Re.

Lemma star_greedy_In cls : forall s p g st',
  In st' (star_greedy cls p s g) -> consumed cls p s g st'.
Proof.
  induction s as [|x t IH]; intros p g st' H; simpl in H.
  - destruct H as [<-|[]]. exists []. simpl. auto.
  - assert (Hbase : st' = MState p (x :: t) g -> consumed cls p (x :: t) g st').
    { intros ->. exists []. simpl. auto. }
    destruct (cls x) eqn:Ex.
    + apply in_app_or in H as [H|[H|[]]]; [|now auto].
      apply IH in H as (pre & Hs & Hc & Hp & Hg).
      exists (x :: pre). simpl. rewrite Ex, Hc, Hp, <- Hs.
      repeat split; auto; lia.
    + destruct H as [H|[]]; auto.
Qed.

Lemma star_lazy_In cls : forall s p g st',
  In st' (star_lazy cls p s g) -> consumed cls p s g st'.
Proof.
  induction s as [|x t IH]; intros p g st' H; simpl in H.
  - destruct H as [<-|[]]. exists []. simpl. auto.
  - destruct H as [<-|H]; [exists []; simpl; auto|].
    destruct (cls x) eqn:Ex; [|destruct H].
    apply IH in H as (pre & Hs & Hc & Hp & Hg).
    exists (x :: pre). simpl. rewrite Ex, Hc, Hp, <- Hs.
    repeat split; auto; lia.
Qed.

Lemma plus_In cls st st' :
  In st' (exec (Plus cls) st) ->
  exists pre, pre <> [] /\ rest st = pre ++ rest st' /\
    forallb cls pre = true /\ pos st' = pos st + length pre /\
    groups st' = groups st.
Proof.
  simpl. destruct (rest st) as [|x t] eqn:Er; [intros []|].
  destruct (cls x) eqn:Ex; [|intros []].
  intros H. apply star_greedy_In in H as (pre & Hs & Hc & Hp & Hg).
  exists (x :: pre). simpl. rewrite Ex, Hc, Hp, <- Hs.
  repeat split; auto; try discriminate; lia.
Qed.

Lemma chr_In c st st' :
  In st' (exec (Chr c) st) ->
  rest st = c :: rest st' /\ pos st' = S (pos st) /\ groups st' = groups st.
Proof.
  simpl. destruct (rest st) as [|x t] eqn:Er; [intros []|].
  destruct (chr_eqb x c) eqn:Ex; [|intros []].
  intros [<-|[]]. apply chr_eqb_eq in Ex. subst x. simpl. auto.
Qed.

(** An optional flag character, captured as group [name]. *)
Lemma opt_group_chr_In name c st st' :
  In st' (exec (Opt (Group name (Chr c))) st) ->
  exists flag : bool,
    rest st = flag_text flag c ++ rest st' /\
    pos st' = pos st + length (flag_text flag c) /\
    groups st' = (if flag then [(name, [c])] else []) ++ groups st.
Proof.
  cbn [exec]. intros H. apply in_app_or in H as [H|[<-|[]]].
  - apply in_map_iff in H as (st1 & <- & H1).
    apply chr_In in H1 as (Hr & Hp & Hg).
    exists true. cbn. rewrite Hr, Hp, Hg.
    replace (S (pos st) - pos st) with 1 by lia. cbn.
    repeat split; auto; lia.
  - exists false. cbn. repeat split; auto.
Qed.

Lemma opt_chr_In c st st' :
  In st' (exec (Opt (Chr c)) st) ->
  exists flag : bool,
    rest st = flag_text flag c ++ rest st' /\
    pos st' = pos st + length (flag_text flag c) /\
    groups st' = groups st.
Proof.
  cbn [exec]. intros H. apply in_app_or in H as [H|[<-|[]]].
  - apply chr_In in H as (Hr & Hp & Hg).
    exists true. cbn. rewrite Hr, Hp, Hg. repeat split; auto; lia.
  - exists false. cbn. repeat split; auto.
Qed.

Lemma group_In name r st st' :
  In st' (exec (Group name r) st) ->
  exists st1, In st1 (exec r st) /\ pos st' = pos st1 /\ rest st' = rest st1 /\
    groups st' = (name, firstn (pos st1 - pos st) (rest st)) :: groups st1.
Proof.
  cbn [exec]. intros H. apply in_map_iff in H as (st1 & <- & H1).
  exists st1. cbn. auto.
Qed.

Lemma eol_In st st' :
  In st' (exec Eol st) -> st' = st /\ forallb is_space (rest st) = true.
Proof.
  simpl. destruct (rest st) as [|c [|? ?]] eqn:Er.
  - intros [<-|[]]. auto.
  - destruct (chr_eqb c newline) eqn:Ec; [|intros []].
    intros [<-|[]]. apply chr_eqb_eq in Ec. subst c. auto.
  - intros [].
Qed.

Lemma seq_In r1 r2 st st' :
  In st' (exec (Seq r1 r2) st) ->
  exists st1, In st1 (exec r1 st) /\ In st' (exec r2 st1).
Proof. cbn [exec]. intros H. now apply in_flat_map in H. Qed.

Lemma bol_In st st' : In st' (exec Bol st) -> st' = st.
Proof. simpl. destruct (pos st =? 0); [intros [<-|[]]; reflexivity | intros []]. Qed.

Lemma firstn_consumed (pre post : str) p :
  firstn (p + length pre - p) (pre ++ post) = pre.
Proof.
  replace (p + length pre - p) with (length pre + 0) by lia.
  rewrite firstn_app_2. simpl. apply app_nil_r.
Qed.

Lemma forallb_app_true {T} (f : T -> bool) l1 l2 :
  forallb f l1 = true -> forallb f l2 = true -> forallb f (l1 ++ l2) = true.
Proof. intros H1 H2. rewrite forallb_app, H1, H2. reflexivity. Qed.

(** The shape of a line that the capability pattern matches, and where
    each group comes from. *)
Lemma pattern_match_shape line d :
  pattern_match line = Some d ->
  exists lead (dflag dotflag eflag : bool) ws1 ext ws2 desc trail,
    line = lead ++ flag_text dflag "D" ++ flag_text dotflag "." ++
           flag_text eflag "E" ++ ws1 ++ ext ++ ws2 ++ desc ++ trail /\
    forallb is_space lead = true /\
    ws1 <> [] /\ forallb is_space ws1 = true /\
    ext <> [] /\ forallb non_space ext = true /\
    ws2 <> [] /\ forallb is_space ws2 = true /\
    forallb is_space trail = true /\
    g_is_decoder d = (if dflag then Some (lit "D") else None) /\
    g_is_encoder d = (if eflag then Some (lit "E") else None) /\
    g_extension d = Some ext /\
    g_description d = Some desc.
Proof.
  unfold pattern_match, re_match.
  destruct (exec pattern (MState 0 line [])) as [|st l] eqn:E; [discriminate|].
  intros H. injection H as <-.
  assert (Hin : In st (exec pattern (MState 0 line []))) by (rewrite E; now left).
  clear E l. unfold pattern in Hin.
  apply seq_In in Hin as (s0 & H0 & Hin).
  apply bol_In in H0 as ->.
  apply seq_In in Hin as (s1 & H1 & Hin).
  apply star_greedy_In in H1 as (lead & Hl & Hlc & Hlp & Hlg).
  cbn [rest pos groups] in Hl, Hlp, Hlg.
  apply seq_In in Hin as (s2 & H2 & Hin).
  apply opt_group_chr_In in H2 as (dflag & Hd & Hdp & Hdg).
  apply seq_In in Hin as (s3 & H3 & Hin).
  apply opt_chr_In in H3 as (dotflag & Ho & Hop & Hog).
  apply seq_In in Hin as (s4 & H4 & Hin).
  apply opt_group_chr_In in H4 as (eflag & He & Hep & Heg).
  apply seq_In in Hin as (s5 & H5 & Hin).
  apply plus_In in H5 as (ws1 & Hw1n & Hw1 & Hw1c & Hw1p & Hw1g).
  apply seq_In in Hin as (s6 & H6 & Hin).
  apply group_In in H6 as (s6' & H6 & Hxp & Hxr & Hxg).
  apply plus_In in H6 as (ext & Hxn & Hx & Hxc & Hxp' & Hxg').
  apply seq_In in Hin as (s7 & H7 & Hin).
  apply plus_In in H7 as (ws2 & Hw2n & Hw2 & Hw2c & Hw2p & Hw2g).
  apply seq_In in Hin as (s8 & H8 & Hin).
  apply group_In in H8 as (s8' & H8 & Hyp & Hyr & Hyg).
  apply star_lazy_In in H8 as (desc & Hy & Hyc & Hyp' & Hyg').
  apply seq_In in Hin as (s9 & H9 & Hin).
  apply star_greedy_In in H9 as (ws3 & Hw3 & Hw3c & Hw3p & Hw3g).
  apply eol_In in Hin as (-> & Hend).
  exists lead, dflag, dotflag, eflag, ws1, ext, ws2, desc, (ws3 ++ rest s9).
  assert (Hext : firstn (pos s6' - pos s5) (rest s5) = ext).
  { rewrite Hxp', Hx. apply firstn_consumed. }
  assert (Hdesc : firstn (pos s8' - pos s7) (rest s7) = desc).
  { rewrite Hyp', Hy. apply firstn_consumed. }
  rewrite Hw3g, Hyg, Hyg', Hw2g, Hxg, Hxg', Hw1g, Heg, Hog, Hdg, Hlg, Hext, Hdesc.
  split.
  { rewrite Hl, Hd, Ho, He, Hw1, Hx, <- Hxr, Hw2, Hy, <- Hyr, Hw3. reflexivity. }
  repeat (split; [assumption|]).
  split; [now apply forallb_app_true|].
  destruct dflag, eflag; cbn; auto.
Qed.

End ReFacts.

(** ** The format catalog *)

Section CatalogFacts.

Lemma append_exts_app d exts : forall formats,
  append_exts d exts formats = formats ++ map (make_format d) exts.
Proof.
  induction exts as [|ext exts IH]; intros formats; simpl.
  - now rewrite app_nil_r.
  - rewrite IH, <- app_assoc. reflexivity.
Qed.

Lemma parse_lines_app lines : forall formats,
  parse_lines lines formats = formats ++ flat_map line_formats lines.
Proof.
  induction lines as [|line lines IH]; intros formats; simpl.
  - now rewrite app_nil_r.
  - unfold line_formats at 1.
    destruct (pattern_match line) as [d|]; rewrite IH.
    + rewrite append_exts_app, <- app_assoc. reflexivity.
    + reflexivity.
Qed.

Lemma get_ffmpeg_supported_formats_lines output :
  get_ffmpeg_supported_formats output =
  flat_map line_formats (split newline output).
Proof. unfold get_ffmpeg_supported_formats. now rewrite parse_lines_app. Qed.

Lemma opt_is_flag (flag : bool) c :
  opt_is (if flag then Some [c] else None) [c] = flag.
Proof.
  destruct flag; simpl; [|reflexivity]. now rewrite chr_eqb_refl.
Qed.

Lemma SUPPORTED_FORMATS_perm output :
  Permutation (SUPPORTED_FORMATS output) (get_ffmpeg_supported_formats output).
Proof. apply sorted_perm. Qed.

End CatalogFacts.

(** C7: every matching capability line yields one descriptor per piece of
    its comma-separated extension token, all with the flags and the
    description of the line; a line that does not match yields none.  The
    listing ["DE mp3,mp2  MPEG audio layer"], ["weird garbage line"] yields
    exactly the descriptors of mp3 and mp2, both decoder and encoder, both
    described as "MPEG audio layer". *)
Theorem C7_one_descriptor_per_extension :
  (forall output,
     get_ffmpeg_supported_formats output =
     flat_map line_formats (split newline output)) /\
  (forall line d,
     pattern_match line = Some d ->
     map extension (line_formats line) = split "," (the (g_extension d)) /\
     length (line_formats line) = S (count_chr "," (the (g_extension d))) /\
     (forall f, In f (line_formats line) ->
        is_decoder f = opt_is (g_is_decoder d) (lit "D") /\
        is_encoder f = opt_is (g_is_encoder d) (lit "E") /\
        description f = strip (the (g_description d)))) /\
  (forall line, pattern_match line = None -> line_formats line = []) /\
  get_ffmpeg_supported_formats two_lines =
    [ mkFFmpegFormat true true (lit "mp3") (lit "MPEG audio layer");
      mkFFmpegFormat true true (lit "mp2") (lit "MPEG audio layer") ] /\
  line_formats (lit "weird garbage line") = [].
Proof.
  split; [exact get_ffmpeg_supported_formats_lines|].
  split; [|split; [|split; vm_compute; reflexivity]].
  - intros line d Hm. unfold line_formats. rewrite Hm.
    split; [|split].
    + rewrite map_map. simpl. apply map_id.
    + rewrite length_map. apply split_length.
    + intros f Hf. apply in_map_iff in Hf as (ext & <- & _). simpl. auto.
  - intros line Hm. unfold line_formats. now rewrite Hm.
Qed.

(** The line ["DE mp3,mp2  MPEG audio layer"] matches, and its two
    descriptors carry its flags. *)
Lemma C7_witness :
  map extension (line_formats (lit "DE mp3,mp2  MPEG audio layer")) =
    [lit "mp3"; lit "mp2"] /\
  length (line_formats (lit "DE mp3,mp2  MPEG audio layer")) = 2 /\
  (forall f, In f (line_formats (lit "DE mp3,mp2  MPEG audio layer")) ->
     is_decoder f = true /\ is_encoder f = true /\
     description f = lit "MPEG audio layer").
Proof.
  destruct C7_one_descriptor_per_extension as (_ & H & _).
  apply (H (lit "DE mp3,mp2  MPEG audio layer")
           (GroupDict (Some (lit "D")) (Some (lit "E")) (Some (lit "mp3,mp2"))
                      (Some (lit "MPEG audio layer")))).
  vm_compute. reflexivity.
Defined.

(** C8: the catalog [SUPPORTED_FORMATS] is sorted by extension, the sort is
    stable (the descriptors of one extension keep the order in which the
    parser emitted them, and the catalog is a permutation of the parser's
    output), and every piece of the extension token of a matching line is
    in the catalog with the flags read off the line's leading flag region:
    the line is blanks, then the region (an optional [D], an optional [.],
    an optional [E]), then blanks, the extension token, blanks and the
    description; the descriptor is a decoder exactly when the region has
    its [D] and an encoder exactly when it has its [E]. *)
Theorem C8_catalog_sorted_stable_complete (output : str) :
  StronglySorted ext_le (SUPPORTED_FORMATS output) /\
  Permutation (SUPPORTED_FORMATS output) (get_ffmpeg_supported_formats output) /\
  (forall e,
     filter (has_extension e) (SUPPORTED_FORMATS output) =
     filter (has_extension e) (get_ffmpeg_supported_formats output)) /\
  (forall line d ext,
     In line (split newline output) ->
     pattern_match line = Some d ->
     In ext (split "," (the (g_extension d))) ->
     exists (lead : str) (dflag dotflag eflag : bool)
            (ws1 token ws2 desc trail : str),
       line = lead ++ flag_text dflag "D" ++ flag_text dotflag "." ++
              flag_text eflag "E" ++ ws1 ++ token ++ ws2 ++ desc ++ trail /\
       forallb is_space lead = true /\
       ws1 <> [] /\ forallb is_space ws1 = true /\
       forallb non_space token = true /\
       ws2 <> [] /\ forallb is_space ws2 = true /\
       forallb is_space trail = true /\
       In ext (split "," token) /\
       In (mkFFmpegFormat dflag eflag ext (strip desc))
          (SUPPORTED_FORMATS output)).
Proof.
  split; [apply (sorted_StronglySorted extension)|].
  split; [apply SUPPORTED_FORMATS_perm|].
  split; [intros e; apply (sorted_stable extension)|].
  intros line d ext Hline Hm Hext.
  destruct (pattern_match_shape _ Hm)
    as (lead & dflag & dotflag & eflag & ws1 & token & ws2 & desc & trail
        & Hshape & Hlead & Hws1n & Hws1 & _ & Htoken & Hws2n & Hws2 & Htrail
        & Hd & He & Hx & Hy).
  exists lead, dflag, dotflag, eflag, ws1, token, ws2, desc, trail.
  rewrite Hx in Hext. cbn [the] in Hext.
  repeat (split; [assumption|]).
  apply (Permutation_in _ (Permutation_sym (SUPPORTED_FORMATS_perm output))).
  rewrite get_ffmpeg_supported_formats_lines.
  apply in_flat_map. exists line. split; [exact Hline|].
  unfold line_formats. rewrite Hm. apply in_map_iff. exists ext.
  split; [|rewrite Hx; exact Hext].
  unfold make_format. rewrite Hd, He, Hy. unfold lit. simpl list_ascii_of_string.
  now rewrite !opt_is_flag.
Qed.

(** In the catalog of the two-line listing, mp2 is there as a decoder and
    an encoder, as the flag region [DE] of its line says. *)
Lemma C8_witness :
  exists (lead : str) (dflag dotflag eflag : bool)
         (ws1 token ws2 desc trail : str),
    lit "DE mp3,mp2  MPEG audio layer" =
      lead ++ flag_text dflag "D" ++ flag_text dotflag "." ++
      flag_text eflag "E" ++ ws1 ++ token ++ ws2 ++ desc ++ trail /\
    forallb is_space lead = true /\
    ws1 <> [] /\ forallb is_space ws1 = true /\
    forallb non_space token = true /\
    ws2 <> [] /\ forallb is_space ws2 = true /\
    forallb is_space trail = true /\
    In (lit "mp2") (split "," token) /\
    In (mkFFmpegFormat dflag eflag (lit "mp2") (strip desc))
       (SUPPORTED_FORMATS two_lines).
Proof.
  destruct (C8_catalog_sorted_stable_complete two_lines) as (_ & _ & _ & H).
  apply (H (lit "DE mp3,mp2  MPEG audio layer")
           (GroupDict (Some (lit "D")) (Some (lit "E")) (Some (lit "mp3,mp2"))
                      (Some (lit "MPEG audio layer")))
           (lit "mp2")).
  - vm_compute. auto.
  - vm_compute. reflexivity.
  - vm_compute. auto.
Defined.

(** ** The conversion driver *)

Section DriverFacts.

Variable glob_selector : str -> Res (Path -> bool).
Variable ffmpeg_convert :
  list Invocation -> list Path -> Path -> Path -> ProcResult * list Path.

Local Abbreviation convert_file := (convert_file ffmpeg_convert).
Local Abbreviation for_paths := (for_paths ffmpeg_convert).
Local Abbreviation for_formats := (for_formats ffmpeg_convert).
Local Abbreviation convert_files := (convert_files glob_selector ffmpeg_convert).

Lemma path_eqb_eq p q : path_eqb p q = true <-> p = q.
Proof.
  destruct p as [pp pn], q as [qp qn]. unfold path_eqb. simpl.
  rewrite andb_true_iff, str_eqb_eq.
  assert (Hparts : parts_eqb pp qp = true <-> pp = qp).
  { revert qp. induction pp as [|x pp IH]; intros [|y qp]; simpl;
      split; try congruence; auto.
    - intros H. apply andb_true_iff in H as [Hx Hr].
      apply str_eqb_eq in Hx. apply IH in Hr. congruence.
    - intros H. injection H as -> ->. rewrite str_eqb_refl. simpl.
      now apply IH. }
  rewrite Hparts. split; [intros [-> ->]; reflexivity|].
  intros H. injection H as -> ->. auto.
Qed.

Lemma file_exists_In p w : file_exists p w = true <-> In p (files w).
Proof.
  unfold file_exists. rewrite existsb_exists. split.
  - intros (q & Hq & E). apply path_eqb_eq in E. now subst.
  - intros H. exists p. split; [exact H | now apply path_eqb_eq].
Qed.

Lemma log_world m verbose w :
  log m verbose w =
  (Ok tt, mkWorld (files w) (trace w)
            (echoed w ++ (if verbose then [m] else []))).
Proof.
  destruct verbose; simpl; [reflexivity|].
  unfold ret. rewrite app_nil_r. now destruct w.
Qed.

(** The three ways [convert_file] can go. *)
Lemma convert_file_invalid p fmt verbose force w e :
  destination (p, fmt) = Raise e ->
  convert_file p fmt verbose force w = (Raise e, w).
Proof.
  unfold destination, Cli.convert_file, bind, lift. simpl.
  now intros ->.
Qed.

Lemma convert_file_skip p fmt verbose w q :
  destination (p, fmt) = Ok q ->
  file_exists q w = true ->
  convert_file p fmt verbose false w =
  (Ok false, mkWorld (files w) (trace w)
               (echoed w ++ (if verbose then [LogSkipping q] else []))).
Proof.
  unfold destination, file_exists, Cli.convert_file, bind, lift,
    path_exists. simpl.
  intros -> ->. simpl. rewrite log_world. reflexivity.
Qed.

Lemma convert_file_run p fmt verbose force w q :
  destination (p, fmt) = Ok q ->
  file_exists q w && negb force = false ->
  convert_file p fmt verbose force w =
  let r := fst (ffmpeg_convert (trace w) (files w) p q) in
  let w' := mkWorld (snd (ffmpeg_convert (trace w) (files w) p q))
              (trace w ++ [RunConvert p q r])
              (echoed w ++
                 (if succeeded r && verbose then [LogConverted p q] else []))
  in (if succeeded r then Ok true else Raise (failure r), w').
Proof.
  unfold destination, file_exists, Cli.convert_file, bind, lift,
    path_exists, run_ffmpeg. simpl.
  intros -> ->. simpl.
  destruct (ffmpeg_convert (trace w) (files w) p q) as [r fs'] eqn:E. simpl.
  destruct r as [[|c|c]|]; simpl; try (rewrite app_nil_r; reflexivity).
  rewrite log_world. simpl. reflexivity.
Qed.

(** *** A proof rule for the two loops

    [I done w c] holds when the tasks [done] have been gone through,
    the world is [w] and the counter is [c]; [E done t e w] holds when
    task [t] raised [e] after the tasks [done]. *)
Section LoopRule.

Variables verbose force : bool.
Variable all : list (Path * str).
Variable I : list (Path * str) -> World -> Z -> Prop.
Variable E : list (Path * str) -> Path * str -> exn -> World -> Prop.

Hypothesis step : forall done p fmt w c,
  I done w c -> In (p, fmt) all ->
  match convert_file p fmt verbose force w with
  | (Ok b, w') => I (done ++ [(p, fmt)]) w' (if b then c + 1 else c)%Z
  | (Raise e, w') => E done (p, fmt) e w'
  end.

Hypothesis step_log : forall done fmt w c,
  I done w c ->
  I done (snd (log (LogConvertedTo c fmt) verbose w)) c.

Lemma for_paths_rule fmt : forall paths done w c,
  I done w c ->
  incl (map (fun p => (p, fmt)) (candidates paths)) all ->
  loop_post I E done (map (fun p => (p, fmt)) (candidates paths))
    (for_paths paths fmt verbose force c w).
Proof.
  induction paths as [|p paths IH]; intros done w c HI Hall.
  - simpl. now rewrite app_nil_r.
  - cbn [Cli.for_paths]. unfold candidates in *. cbn [filter] in *.
    fold (is_wav p) in *. destruct (is_wav p) eqn:Ewav;
      [|now apply IH].
    cbn [map] in *. unfold bind.
    assert (Hin : In (p, fmt) all) by (apply Hall; now left).
    pose proof (step p fmt HI Hin) as Hstep.
    destruct (convert_file p fmt verbose force w) as [[b|e] w'].
    + specialize (IH (done ++ [(p, fmt)]) w'
                    (if b then c + 1 else c)%Z Hstep).
      assert (Hall' : incl (map (fun p0 => (p0, fmt)) (filter is_wav paths)) all).
      { intros t Ht. apply Hall. now right. }
      specialize (IH Hall'). unfold loop_post in *.
      destruct (for_paths paths fmt verbose force _ w') as [[c'|e] w''].
      * now rewrite <- app_assoc in IH.
      * destruct IH as (pre & t & post & Hts & HE).
        exists ((p, fmt) :: pre), t, post. rewrite Hts. split; [reflexivity|].
        now rewrite <- app_assoc in HE.
    + exists [], (p, fmt), (map (fun p0 => (p0, fmt)) (filter is_wav paths)).
      split; [reflexivity|]. now rewrite app_nil_r.
Qed.

Lemma for_formats_rule paths : forall fmts done w c,
  I done w c ->
  incl (tasks fmts paths) all ->
  loop_post I E done (tasks fmts paths)
    (for_formats fmts paths verbose force c w).
Proof.
  induction fmts as [|fmt fmts IH]; intros done w c HI Hall.
  - simpl. now rewrite app_nil_r.
  - cbn [Cli.for_formats]. unfold tasks in *. cbn [flat_map] in *.
    unfold bind.
    assert (H1 : incl (map (fun p => (p, fmt)) (candidates paths)) all).
    { intros t Ht. apply Hall, in_or_app. now left. }
    assert (H2 : incl (flat_map (fun fmt0 => map (fun p => (p, fmt0))
                                   (candidates paths)) fmts) all).
    { intros t Ht. apply Hall, in_or_app. now right. }
    pose proof (for_paths_rule fmt paths HI H1) as Hp.
    unfold loop_post in *.
    destruct (for_paths paths fmt verbose force c w) as [[c1|e] w1].
    + pose proof (step_log fmt Hp) as Hlog.
      rewrite log_world in *. cbn [snd] in Hlog.
      specialize (IH _ _ _ Hlog H2).
      destruct (for_formats fmts paths verbose force c1 _) as [[c2|e] w2].
      * now rewrite app_assoc.
      * destruct IH as (pre & t & post & Hts & HE).
        exists (map (fun p => (p, fmt)) (candidates paths) ++ pre), t, post.
        rewrite Hts, <- app_assoc. split; [reflexivity|].
        now rewrite app_assoc.
    + destruct Hp as (pre & t & post & Hts & HE).
      exists pre, t, (post ++ flat_map (fun fmt0 => map (fun p => (p, fmt0))
                                       (candidates paths)) fmts).
      rewrite Hts, <- app_assoc. split; [reflexivity | exact HE].
Qed.

End LoopRule.


End DriverFacts.



(** ** The batch *)

Section BatchFacts.

Variable glob_selector : str -> Res (Path -> bool).
Variable ffmpeg_convert :
  list Invocation -> list Path -> Path -> Path -> ProcResult * list Path.

Local Abbreviation convert_file := (convert_file ffmpeg_convert).
Local Abbreviation for_formats := (for_formats ffmpeg_convert).
Local Abbreviation convert_files := (convert_files glob_selector ffmpeg_convert).

Lemma convert_file_cases p fmt verbose force w :
  convert_file_outcome ffmpeg_convert p fmt verbose force w
    (convert_file p fmt verbose force w).
Proof.
  destruct (destination (p, fmt)) as [q|e] eqn:Hd.
  - destruct (file_exists q w && negb force) eqn:Hex.
    + apply andb_true_iff in Hex as [Hex Hf].
      apply negb_true_iff in Hf. subst force.
      rewrite (convert_file_skip _ _ _ _ _ Hd Hex). now apply cf_skip.
    + rewrite (convert_file_run _ _ _ _ _ _ Hd Hex). cbv zeta.
      destruct (ffmpeg_convert (trace w) (files w) p q) as [r fs'] eqn:Hr.
      cbn [fst snd]. destruct (succeeded r) eqn:Hs.
      * assert (r = Exited 0) as ->.
        { destruct r as [[| |]|]; simpl in Hs; congruence. }
        cbn [andb]. now apply cf_converted.
      * cbn [andb]. rewrite app_nil_r. now apply cf_failed with (r := r).
  - rewrite (convert_file_invalid _ _ _ _ _ _ Hd). now apply cf_invalid.
Qed.

Lemma convert_files_unfold pat fmts verbose force w :
  convert_files pat fmts verbose force w =
  match glob_selector pat with
  | Raise e => (Raise e, w)
  | Ok selects =>
      let paths := filter selects (files w) in
      let w1 := mkWorld (files w) (trace w)
                  (echoed w ++
                     (if verbose
                      then [LogScanning pat; LogFound (len paths)] else []))
      in
      match for_formats fmts paths verbose force 0%Z w1 with
      | (Ok c, w2) =>
          (Ok tt, mkWorld (files w2) (trace w2)
                    (echoed w2 ++
                       (if verbose
                        then [LogSummary c (len paths - c)%Z] else [])))
      | (Raise e, w2) => (Raise e, w2)
      end
  end.
Proof.
  unfold Cli.convert_files, bind, glob.
  destruct (glob_selector pat) as [selects|e]; [|reflexivity].
  rewrite !log_world. cbn [files trace echoed].
  rewrite <- app_assoc.
  replace ((if verbose then [LogScanning pat] else []) ++
           (if verbose then [LogFound (len (filter selects (files w)))] else []))
    with (if verbose
          then [LogScanning pat; LogFound (len (filter selects (files w)))]
          else []) by (now destruct verbose).
  cbv zeta.
  destruct (for_formats fmts _ verbose force 0%Z _) as [[c|e] w2];
    [|reflexivity].
  now rewrite log_world.
Qed.

Lemma count_converted_app a b :
  count_converted (a ++ b) = (count_converted a + count_converted b)%Z.
Proof.
  unfold count_converted. rewrite filter_app, length_app. lia.
Qed.

(** *** The counter counts the transcoder runs that succeeded *)

Lemma grown_refl w c : grown w c w c.
Proof.
  exists [], []. rewrite !app_nil_r. unfold count_converted. cbn.
  repeat split. lia.
Qed.

Lemma grown_step w c p fmt verbose force w1 c1 b w2 :
  grown w c w1 c1 ->
  convert_file p fmt verbose force w1 = (Ok b, w2) ->
  grown w c w2 (if b then c1 + 1 else c1)%Z.
Proof.
  intros (calls & printed & Ht & He & Hc) Hrun.
  destruct (convert_file_cases p fmt verbose force w1);
    try discriminate; injection Hrun as <- <-; cbn [trace echoed].
  - exists calls, (printed ++ if verbose then [LogSkipping q] else []).
    rewrite He, app_assoc. auto.
  - exists (calls ++ [RunConvert p q (Exited 0)]),
           (printed ++ if verbose then [LogConverted p q] else []).
    rewrite Ht, He, !app_assoc, count_converted_app.
    repeat split. subst c1. unfold count_converted at 3. cbn. lia.
Qed.

Lemma grown_log w c w1 c1 m verbose :
  grown w c w1 c1 -> grown w c (snd (log m verbose w1)) c1.
Proof.
  intros (calls & printed & Ht & He & Hc). rewrite log_world. cbn.
  exists calls, (printed ++ if verbose then [m] else []).
  rewrite He, app_assoc. auto.
Qed.

Lemma for_formats_counts fmts paths verbose force w c c' w' :
  for_formats fmts paths verbose force c w = (Ok c', w') ->
  grown w c w' c'.
Proof.
  intros Hrun.
  pose proof (@for_formats_rule ffmpeg_convert verbose force
                (tasks fmts paths) (fun _ => grown w c)
                (fun _ _ _ _ => True)) as H.
  unfold loop_post in H.
  assert (Hstep : forall (done : list (Path * str)) p fmt w1 c1,
             grown w c w1 c1 -> In (p, fmt) (tasks fmts paths) ->
             match convert_file p fmt verbose force w1 with
             | (Ok b, w2) => grown w c w2 (if b then c1 + 1 else c1)%Z
             | (Raise _, _) => True
             end).
  { intros done p fmt w1 c1 Hg _.
    destruct (convert_file p fmt verbose force w1) as [[b|e] w2] eqn:Hcf;
      [|exact Logic.I].
    eapply grown_step; eauto. }
  specialize (H Hstep (fun _ fmt w1 c1 Hg => grown_log _ _ Hg)
                paths fmts [] w c (grown_refl w c) (incl_refl _)).
  now rewrite Hrun in H.
Qed.

(** *** The per-file log lines follow the tasks *)

Lemma attempts_app a b : attempts (a ++ b) = attempts a ++ attempts b.
Proof. unfold attempts. apply flat_map_app. Qed.

Lemma attempts_follow_step w done p fmt force w1 :
  attempts_follow w done w1 ->
  match convert_file p fmt true force w1 with
  | (Ok _, w2) => attempts_follow w (done ++ [(p, fmt)]) w2
  | (Raise _, w2) => attempts_follow w done w2
  end.
Proof.
  intros (printed & He & Ha).
  destruct (convert_file_cases p fmt true force w1).
  - now exists printed.
  - exists (printed ++ [LogSkipping q]). cbn [echoed].
    rewrite He, app_assoc, attempts_app, !map_app, Ha. cbn.
    now rewrite H.
  - exists (printed ++ [LogConverted p q]). cbn [echoed].
    rewrite He, app_assoc, attempts_app, !map_app, Ha. cbn.
    now rewrite H.
  - now exists printed.
Qed.

Lemma attempts_follow_log w done w1 m verbose :
  attempted m = [] ->
  attempts_follow w done w1 ->
  attempts_follow w done (snd (log m verbose w1)).
Proof.
  intros Hm (printed & He & Ha). rewrite log_world. cbn.
  exists (printed ++ if verbose then [m] else []).
  rewrite He, app_assoc, attempts_app. split; [reflexivity|].
  destruct verbose; cbn; rewrite ?Hm, app_nil_r; exact Ha.
Qed.

Lemma firstn_map_prefix {A B} (f : A -> B) pre post :
  firstn (length pre) (map f (pre ++ post)) = map f pre.
Proof.
  rewrite map_app, <- (length_map f pre), <- (Nat.add_0_r (length (map f pre))).
  rewrite firstn_app_2. cbn. apply app_nil_r.
Qed.

Lemma convert_files_attempts pat fmts force w selects r w' :
  glob_selector pat = Ok selects ->
  convert_files pat fmts true force w = (r, w') ->
  exists printed k,
    echoed w' = echoed w ++ printed /\
    map Ok (attempts printed) =
      firstn k (map destination (tasks fmts (filter selects (files w)))) /\
    (r = Ok tt ->
     map Ok (attempts printed) =
       map destination (tasks fmts (filter selects (files w)))).
Proof.
  intros Hglob Hrun. rewrite convert_files_unfold, Hglob in Hrun.
  cbv zeta in Hrun.
  set (paths := filter selects (files w)) in *.
  set (w1 := mkWorld (files w) (trace w)
               (echoed w ++ [LogScanning pat; LogFound (len paths)])) in *.
  pose proof (@for_formats_rule ffmpeg_convert true force (tasks fmts paths)
                (fun done w2 _ => attempts_follow w done w2)
                (fun done _ _ w2 => attempts_follow w done w2)) as H.
  unfold loop_post in H.
  assert (Hstep : forall done p fmt w2 (c2 : Z),
             attempts_follow w done w2 -> In (p, fmt) (tasks fmts paths) ->
             match convert_file p fmt true force w2 with
             | (Ok b, w3) => attempts_follow w (done ++ [(p, fmt)]) w3
             | (Raise _, w3) => attempts_follow w done w3
             end).
  { intros done p fmt w2 _ Hf _.
    pose proof (attempts_follow_step p fmt force Hf) as Hs.
    now destruct (convert_file p fmt true force w2) as [[b|e] w3]. }
  assert (Hstart : attempts_follow w [] w1).
  { exists [LogScanning pat; LogFound (len paths)]. split; reflexivity. }
  specialize (H Hstep
                (fun done fmt w2 c2 Hf =>
                   attempts_follow_log (LogConvertedTo c2 fmt) true eq_refl Hf)
                paths fmts [] w1 0%Z Hstart (incl_refl _)).
  destruct (for_formats fmts paths true force 0%Z w1) as [[c|e] w2].
  - injection Hrun as <- <-. cbn [app] in H.
    destruct H as (printed & He & Ha).
    exists (printed ++ [LogSummary c (len paths - c)%Z]),
           (length (tasks fmts paths)).
    cbn [echoed]. rewrite He, app_assoc, attempts_app. cbn.
    rewrite app_nil_r, Ha, firstn_all2 by (rewrite length_map; lia). auto.
  - injection Hrun as <- <-.
    destruct H as (pre & t & post & Hts & printed & He & Ha).
    exists printed, (length pre). cbn [app] in Ha.
    rewrite Hts, firstn_map_prefix. repeat split; auto. discriminate.
Qed.

(** *** The transcoder runs of a batch: wav inputs only, and none after
    a failure *)

Lemma tasks_In fmts paths p fmt :
  In (p, fmt) (tasks fmts paths) ->
  is_wav p = true /\ In p paths /\ In fmt fmts.
Proof.
  unfold tasks. intros H. apply in_flat_map in H as (fmt' & Hf & H).
  apply in_map_iff in H as (p' & Heq & Hp). injection Heq as -> ->.
  apply filter_In in Hp as [Hp Hw]. auto.
Qed.

Lemma tasks_In_iff fmts paths p fmt :
  In (p, fmt) (tasks fmts paths) <->
  is_wav p = true /\ In p paths /\ In fmt fmts.
Proof.
  split; [apply tasks_In|]. intros (Hw & Hp & Hf).
  unfold tasks. apply in_flat_map. exists fmt. split; [exact Hf|].
  apply in_map_iff. exists p. split; [reflexivity|].
  apply filter_In. auto.
Qed.

Lemma runs_ok_snoc paths calls input output :
  runs_ok paths calls -> is_wav input = true -> In input paths ->
  runs_ok paths (calls ++ [RunConvert input output (Exited 0)]).
Proof.
  intros Hok Hw Hp i Hi. apply in_app_or in Hi as [Hi|[<-|[]]]; [now apply Hok|].
  split; [reflexivity|]. eauto.
Qed.

Lemma for_formats_runs fmts paths verbose force w c :
  match for_formats fmts paths verbose force c w with
  | (Ok _, w') => exists calls, trace w' = trace w ++ calls /\ runs_ok paths calls
  | (Raise e, w') =>
      exists calls, trace w' = trace w ++ calls /\ runs_upto e paths calls
  end.
Proof.
  pose proof (@for_formats_rule ffmpeg_convert verbose force (tasks fmts paths)
                (fun _ w1 _ => exists calls,
                     trace w1 = trace w ++ calls /\ runs_ok paths calls)
                (fun _ _ e w1 => exists calls,
                     trace w1 = trace w ++ calls /\ runs_upto e paths calls))
    as H.
  unfold loop_post in H.
  assert (Hstep : forall (done : list (Path * str)) p fmt w1 (c1 : Z),
             (exists calls, trace w1 = trace w ++ calls /\ runs_ok paths calls) ->
             In (p, fmt) (tasks fmts paths) ->
             match convert_file p fmt verbose force w1 with
             | (Ok _, w2) =>
                 exists calls, trace w2 = trace w ++ calls /\ runs_ok paths calls
             | (Raise e, w2) =>
                 exists calls, trace w2 = trace w ++ calls /\
                               runs_upto e paths calls
             end).
  { intros done p fmt w1 c1 (calls & Ht & Hok) Hin.
    apply tasks_In in Hin as (Hw & Hp & _).
    destruct (convert_file_cases p fmt verbose force w1); cbn [trace].
    - exists calls. split; [exact Ht | now left].
    - now exists calls.
    - exists (calls ++ [RunConvert p q (Exited 0)]).
      rewrite Ht, app_assoc. split; [reflexivity|]. now apply runs_ok_snoc.
    - exists (calls ++ [RunConvert p q r]).
      rewrite Ht, app_assoc. split; [reflexivity|]. right.
      exists calls, p, q, r. auto 7. }
  assert (Hstart : exists calls, trace w = trace w ++ calls /\ runs_ok paths calls).
  { exists []. rewrite app_nil_r. split; [reflexivity|]. intros i []. }
  specialize (H Hstep
                (fun done fmt w1 c1 Hf =>
                   ltac:(rewrite log_world; exact Hf))
                paths fmts [] w c Hstart (incl_refl _)).
  destruct (for_formats fmts paths verbose force c w) as [[c'|e] w'];
    [exact H|].
  destruct H as (_ & _ & _ & _ & H). exact H.
Qed.

Lemma runs_upto_fail_fast {A} e paths calls :
  runs_upto e paths calls -> fail_fast (@Raise A e) calls.
Proof.
  intros Hruns pre i post Hcalls Hfailed.
  assert (Hbad : converted i = false).
  { destruct i as [?|? ? res]; [discriminate|]. simpl in *.
    now apply negb_true_iff in Hfailed. }
  destruct Hruns as [Hok|(calls0 & input & output & res & Hc & Hok & Hres & He & _)].
  - destruct (Hok i) as [Hconv _]; [|congruence].
    rewrite Hcalls. apply in_or_app. right. now left.
  - destruct post as [|y post'] using rev_ind.
    + split; [reflexivity|]. rewrite Hc in Hcalls.
      apply app_inj_tail in Hcalls as [_ <-]. exists input, output, res. now subst e.
    + exfalso. clear IHpost'. rewrite Hc in Hcalls.
      change (pre ++ i :: post' ++ [y]) with (pre ++ (i :: post') ++ [y]) in Hcalls.
      rewrite app_assoc in Hcalls. apply app_inj_tail in Hcalls as [Hc0 _].
      destruct (Hok i) as [Hconv _]; [|congruence].
      rewrite Hc0. apply in_or_app. right. now left.
Qed.

Lemma runs_ok_fail_fast {A} (r : Res A) paths calls :
  runs_ok paths calls -> fail_fast r calls.
Proof.
  intros Hok pre i post Hcalls Hfailed. exfalso.
  destruct (Hok i) as [Hconv _].
  { rewrite Hcalls. apply in_or_app. right. now left. }
  destruct i as [?|? ? res]; [discriminate|]. simpl in *.
  rewrite Hconv in Hfailed. discriminate.
Qed.

Lemma convert_files_fail_fast pat fmts verbose force w r w' :
  convert_files pat fmts verbose force w = (r, w') ->
  exists calls,
    trace w' = trace w ++ calls /\
    fail_fast r calls /\
    (forall input output res, In (RunConvert input output res) calls ->
       is_wav input = true /\
       exists selects, glob_selector pat = Ok selects /\
                       In input (filter selects (files w))) /\
    (forallb is_conversion calls = true).
Proof.
  intros Hrun. rewrite convert_files_unfold in Hrun.
  destruct (glob_selector pat) as [selects|e].
  - cbv zeta in Hrun.
    pose proof (for_formats_runs fmts (filter selects (files w)) verbose force
                  (mkWorld (files w) (trace w)
                     (echoed w ++
                        (if verbose
                         then [LogScanning pat;
                               LogFound (len (filter selects (files w)))]
                         else []))) 0%Z) as H.
    assert (Hin : forall calls input output res,
               runs_ok (filter selects (files w)) calls ->
               In (RunConvert input output res) calls ->
               is_wav input = true /\
               exists selects0, Ok selects = Ok selects0 /\
                                In input (filter selects0 (files w))).
    { intros calls input output res Hok Hi.
      destruct (Hok _ Hi) as (_ & i' & o' & Heq & Hw & Hp).
      injection Heq as -> -> ->. eauto. }
    assert (Hconv : forall calls, runs_ok (filter selects (files w)) calls ->
                                  forallb is_conversion calls = true).
    { intros calls Hok. apply forallb_forall. intros i Hi.
      destruct (Hok _ Hi) as (_ & i' & o' & -> & _). reflexivity. }
    destruct (for_formats fmts _ verbose force 0%Z _) as [[c|e] w2].
    + injection Hrun as <- <-. cbn [trace files] in *.
      destruct H as (calls & Ht & Hok). exists calls.
      split; [exact Ht|].
      split; [now apply runs_ok_fail_fast with (paths := filter selects (files w))|].
      split; [intros; eapply Hin; eauto | now apply Hconv].
    + injection Hrun as <- <-. cbn [trace files] in *.
      destruct H as (calls & Ht & Hup). exists calls.
      split; [exact Ht|].
      split; [now apply runs_upto_fail_fast with (paths := filter selects (files w))|].
      destruct Hup as [Hok|(calls0 & i0 & o0 & r0 & -> & Hok & _ & _ & Hw & Hp)].
      * split; [intros; eapply Hin; eauto | now apply Hconv].
      * split.
        -- intros input output res Hi. apply in_app_or in Hi as [Hi|[Hi|[]]].
           ++ eapply Hin; eauto.
           ++ injection Hi as <- <- <-. eauto.
        -- rewrite forallb_app, (Hconv _ Hok). reflexivity.
  - injection Hrun as <- <-. exists []. rewrite app_nil_r.
    split; [reflexivity|]. split; [|split; [intros ? ? ? []|reflexivity]].
    intros pre i post Hc. destruct pre; discriminate.
Qed.

(** C1, as the code has it: when a verbose batch completes, its last
    line reports the number of files converted (the transcoder runs of
    the batch that succeeded, over all target extensions) and, as
    skipped, the number of all paths that the glob matched, whatever
    their extension, minus that number. *)
Theorem C1_skipped_is_matches_minus_converted
    (glob_pattern : str) (output_formats : list str) (force : bool)
    (w w' : World) (selects : Path -> bool) :
  glob_selector glob_pattern = Ok selects ->
  convert_files glob_pattern output_formats true force w = (Ok tt, w') ->
  exists calls printed,
    trace w' = trace w ++ calls /\
    echoed w' =
      echoed w ++ printed ++
      [LogSummary (count_converted calls)
         (len (filter selects (files w)) - count_converted calls)%Z].
Proof.
  intros Hglob Hrun. rewrite convert_files_unfold, Hglob in Hrun.
  cbv zeta in Hrun.
  destruct (for_formats output_formats _ true force 0%Z _)
    as [[c|e] w2] eqn:Hloop; [|discriminate].
  injection Hrun as <-.
  destruct (for_formats_counts _ _ _ _ _ _ Hloop)
    as (calls & printed & Ht & He & Hc).
  cbn [trace files echoed] in *.
  exists calls,
    ([LogScanning glob_pattern; LogFound (len (filter selects (files w)))]
     ++ printed).
  split; [exact Ht|].
  rewrite He, <- !app_assoc. subst c.
  replace (0 + count_converted calls)%Z with (count_converted calls) by lia.
  reflexivity.
Qed.

End BatchFacts.

(** A batch over a.wav and c.txt for mp3 converts one file and reports
    one file skipped. *)
Lemma C1_witness :
  let w := fresh [file "a.wav"; file "c.txt"] in
  let w' := snd (convert_files glob_any ffmpeg_creates (lit "*") [lit "mp3"]
                   true false w) in
  exists calls printed,
    trace w' = trace w ++ calls /\
    echoed w' =
      echoed w ++ printed ++
      [LogSummary (count_converted calls)
         (len (filter (fun _ => true) (files w)) - count_converted calls)%Z].
Proof.
  intros w w'.
  apply (@C1_skipped_is_matches_minus_converted glob_any ffmpeg_creates
           (lit "*") [lit "mp3"] false w w' (fun _ => true)).
  - reflexivity.
  - vm_compute. reflexivity.
Defined.

(** C1 as stated fails: over a.wav and c.txt, with target mp3, the batch
    converts one file and reports one file skipped, while there is one
    candidate (a.wav), so candidates minus converted is zero. *)
Lemma C1_counterexample :
  exists w' printed,
    convert_files glob_any ffmpeg_creates (lit "*") [lit "mp3"] true false
      (fresh [file "a.wav"; file "c.txt"]) = (Ok tt, w') /\
    echoed w' = printed ++ [LogSummary 1 1] /\
    count_converted (trace w') = 1%Z /\
    len (candidates [file "a.wav"; file "c.txt"]) = 1%Z /\
    (len (candidates [file "a.wav"; file "c.txt"]) - count_converted (trace w')
     <> 1)%Z.
Proof.
  eexists. eexists. split; [vm_compute; reflexivity|].
  split; [cbn [echoed]; instantiate (1 := [_; _; _; _]); reflexivity|].
  vm_compute. repeat split; congruence.
Qed.

(** C2, at a failing input: over a.wav with targets mp3 and ogg, one file
    is converted to ogg, and the line logged after ogg says "Converted 2
    files to ogg": the counter is not reset between target extensions. *)
Theorem C2_subtotal_is_cumulative :
  exists w',
    convert_files glob_any ffmpeg_creates (lit "*") [lit "mp3"; lit "ogg"]
      true false (fresh [file "a.wav"]) = (Ok tt, w') /\
    trace w' = [RunConvert (file "a.wav") (file "a.mp3") (Exited 0);
                RunConvert (file "a.wav") (file "a.ogg") (Exited 0)] /\
    echoed w' = [LogScanning (lit "*"); LogFound 1;
                 LogConverted (file "a.wav") (file "a.mp3");
                 LogConvertedTo 1 (lit "mp3");
                 LogConverted (file "a.wav") (file "a.ogg");
                 LogConvertedTo 2 (lit "ogg");
                 LogSummary 2 (-1)].
Proof.
  eexists. split; [vm_compute; reflexivity|]. split; reflexivity.
Qed.

(** C5: a transcoder run that fails (a nonzero exit status, or a program
    that cannot be started) is the last call of the batch, and the batch
    ends with the exception of that failure.  When the transcoder fails on
    the second of the three candidates a.wav, b.wav, c.wav, it is never run
    on c.wav. *)
Theorem C5_fail_fast :
  (forall glob_selector ffmpeg_convert glob_pattern output_formats verbose force
          w r w',
     convert_files glob_selector ffmpeg_convert glob_pattern output_formats
       verbose force w = (r, w') ->
     exists calls, trace w' = trace w ++ calls /\ fail_fast r calls) /\
  (forall verbose force,
     exists w',
       convert_files glob_any (ffmpeg_fails_on (file "b.wav")) (lit "*")
         [lit "mp3"] verbose force
         (fresh [file "a.wav"; file "b.wav"; file "c.wav"])
       = (Raise (CalledProcessError 1), w') /\
       trace w' = [RunConvert (file "a.wav") (file "a.mp3") (Exited 0);
                   RunConvert (file "b.wav") (file "b.mp3") (Exited 1)]).
Proof.
  split.
  { intros gs fc pat fmts verbose force w r w' Hrun.
    destruct (convert_files_fail_fast _ _ _ _ _ _ _ Hrun)
      as (calls & Ht & Hff & _).
    exists calls. auto. }
  intros [|] [|]; eexists; (split; [vm_compute; reflexivity|]);
    vm_compute; reflexivity.
Qed.

(** With two formats and a failure on b.wav for the first one, the batch
    ends with [CalledProcessError] right after the failing run. *)
Lemma C5_witness :
  let w := fresh [file "a.wav"; file "b.wav"; file "c.wav"] in
  let out := convert_files glob_any (ffmpeg_fails_on (file "b.wav")) (lit "*")
               [lit "mp3"; lit "ogg"] false false w in
  fst out = Raise (CalledProcessError 1) /\
  trace (snd out) = [RunConvert (file "a.wav") (file "a.mp3") (Exited 0);
                     RunConvert (file "b.wav") (file "b.mp3") (Exited 1)].
Proof.
  intros w out.
  destruct C5_fail_fast as (H & _).
  destruct (H glob_any (ffmpeg_fails_on (file "b.wav")) (lit "*")
              [lit "mp3"; lit "ogg"] false false w (fst out) (snd out))
    as (calls & Ht & Hff).
  - apply surjective_pairing.
  - assert (Hc : calls = [RunConvert (file "a.wav") (file "a.mp3") (Exited 0);
                          RunConvert (file "b.wav") (file "b.mp3") (Exited 1)]).
    { vm_compute in Ht. symmetry. exact Ht. }
    destruct (Hff [RunConvert (file "a.wav") (file "a.mp3") (Exited 0)]
                  (RunConvert (file "b.wav") (file "b.mp3") (Exited 1)) []
                  Hc eq_refl) as (_ & i & o & res & Hi & Hr).
    injection Hi as _ _ <-. split; [exact Hr|]. rewrite Ht, Hc. reflexivity.
Defined.

(** ** The [convert] command *)

Section CommandFacts.

Variable glob_selector : str -> Res (Path -> bool).
Variable ffmpeg_convert :
  list Invocation -> list Path -> Path -> Path -> ProcResult * list Path.
Variable ffmpeg_version : list Invocation -> list Path -> ProcResult.
Variable os_type : str.
Variable formats_output : str.

Local Abbreviation convert :=
  (convert glob_selector ffmpeg_convert ffmpeg_version os_type formats_output).
Local Abbreviation convert_files := (convert_files glob_selector ffmpeg_convert).
Local Abbreviation check_output_formats := (check_output_formats formats_output).

Lemma dict_contains_set {V} k k' (v : V) d :
  dict_contains k (dict_set k' v d) = PyStr.eqb k' k || dict_contains k d.
Proof.
  induction d as [|[k0 v0] d IH]; simpl.
  - now rewrite orb_false_r.
  - destruct (PyStr.eqb k0 k') eqn:E0; simpl.
    + apply str_eqb_eq in E0. subst k0.
      destruct (PyStr.eqb k' k); reflexivity.
    + rewrite IH. destruct (PyStr.eqb k0 k), (PyStr.eqb k' k); reflexivity.
Qed.

(** The keys of the by-extension dictionary are the extensions of the
    catalog. *)
Lemma by_extension_contains k formats :
  dict_contains k (by_extension formats) = existsb (has_extension k) formats.
Proof.
  unfold by_extension.
  assert (H : forall d,
             dict_contains k
               (fold_left (fun d fmt => dict_set (extension fmt) fmt d) formats d)
             = dict_contains k d || existsb (has_extension k) formats).
  { induction formats as [|f formats IH]; intros d; simpl.
    - now rewrite orb_false_r.
    - rewrite IH, dict_contains_set. unfold has_extension.
      destruct (PyStr.eqb (extension f) k), (dict_contains k d); reflexivity. }
  apply H.
Qed.

Lemma check_output_formats_spec output w :
  check_output_formats output w =
  match first_unsupported formats_output output with
  | Some fmt =>
      (Raise (TyperExit 1),
       mkWorld (files w) (trace w) (echoed w ++ [EchoUnsupported fmt]))
  | None => (Ok tt, w)
  end.
Proof.
  unfold first_unsupported.
  induction output as [|fmt output IH]; simpl; [reflexivity|].
  destruct (negb (dict_contains fmt _)); [reflexivity | exact IH].
Qed.

Lemma first_unsupported_None output :
  first_unsupported formats_output output = None <->
  forall fmt, In fmt output ->
    dict_contains fmt (SUPPORTED_FORMATS_BY_EXTENSION formats_output) = true.
Proof.
  unfold first_unsupported. split.
  - intros H fmt Hin. pose proof (find_none _ _ H _ Hin) as Hn.
    now apply negb_false_iff in Hn.
  - intros H. induction output as [|fmt output IH]; simpl; [reflexivity|].
    rewrite (H fmt) by now left. simpl. apply IH. intros f Hf. apply H. now right.
Qed.

Lemma first_unsupported_Some output bad :
  first_unsupported formats_output output = Some bad ->
  In bad output /\
  dict_contains bad (SUPPORTED_FORMATS_BY_EXTENSION formats_output) = false.
Proof.
  unfold first_unsupported. intros H. apply find_some in H as [Hin Hn].
  now apply negb_true_iff in Hn.
Qed.

Lemma echo_install_hint_world w :
  exists hint,
    echo_install_hint os_type w =
    (Ok tt, mkWorld (files w) (trace w) (echoed w ++ [hint])).
Proof.
  unfold echo_install_hint.
  destruct (PyStr.eqb os_type (lit "Darwin")); [eexists; reflexivity|].
  destruct (PyStr.eqb os_type (lit "Linux")); [eexists; reflexivity|].
  destruct (PyStr.eqb os_type (lit "Windows")); eexists; reflexivity.
Qed.

(** The three ways the command can end before the batch starts, and the
    batch itself. *)
Lemma convert_unfold pat output verbose force w :
  let probe := ffmpeg_version (trace w) (files w) in
  let w1 := mkWorld (files w) (trace w ++ [RunVersion probe]) (echoed w) in
  match probe with
  | Exited 0 =>
      match first_unsupported formats_output output with
      | Some fmt =>
          convert pat output verbose force w =
          (Raise (TyperExit 1),
           mkWorld (files w) (trace w1) (echoed w ++ [EchoUnsupported fmt]))
      | None =>
          convert pat output verbose force w =
          try_except (convert_files pat output verbose force) report_error w1
      end
  | Exited c =>
      convert pat output verbose force w = (Raise (CalledProcessError c), w1)
  | NotFound =>
      exists hint,
        convert pat output verbose force w =
        (Raise (TyperExit 1),
         mkWorld (files w) (trace w1) (echoed w ++ [EchoNotInstalled; hint]))
  end.
Proof.
  cbv zeta. unfold Cli.convert, bind, check_ffmpeg_installation.
  destruct (ffmpeg_version (trace w) (files w)) as [[|c|c]|]; cbn;
    try reflexivity.
  - rewrite check_output_formats_spec.
    destruct (first_unsupported formats_output output); reflexivity.
  - destruct (echo_install_hint_world
                (mkWorld (files w) (trace w ++ [RunVersion NotFound])
                   (echoed w ++ [EchoNotInstalled]))) as (hint & ->).
    exists hint. cbn. now rewrite <- app_assoc.
Qed.

Lemma supported_iff fmt :
  dict_contains fmt (SUPPORTED_FORMATS_BY_EXTENSION formats_output) = true <->
  exists f, In f (SUPPORTED_FORMATS formats_output) /\ extension f = fmt.
Proof.
  unfold SUPPORTED_FORMATS_BY_EXTENSION. rewrite by_extension_contains.
  rewrite existsb_exists. unfold has_extension.
  split; intros (f & Hf & He); exists f; split; auto; now apply str_eqb_eq.
Qed.

(** C9: when a requested output extension is not in the catalog, the
    command exits with a nonzero status, runs no conversion (its only
    subprocess call is the installation check) and leaves the files as
    they are; once the installation check has passed, it ends with
    [typer.Exit(1)] after printing "Unsupported output format" for the
    first such extension. *)
Theorem C9_unsupported_format_stops_before_conversion
    (glob_pattern : str) (output : list str) (verbose force : bool)
    (w : World) (fmt : str) :
  In fmt output ->
  (forall f, In f (SUPPORTED_FORMATS formats_output) -> extension f <> fmt) ->
  let out := convert glob_pattern output verbose force w in
  exit_status (fst out) <> 0%Z /\
  files (snd out) = files w /\
  (exists probe, trace (snd out) = trace w ++ [RunVersion probe]) /\
  (ffmpeg_version (trace w) (files w) = Exited 0 ->
   exists bad,
     first_unsupported formats_output output = Some bad /\
     fst out = Raise (TyperExit 1) /\
     echoed (snd out) = echoed w ++ [EchoUnsupported bad]).
Proof.
  intros Hin Habsent out.
  assert (Hbad : exists bad, first_unsupported formats_output output = Some bad).
  { destruct (first_unsupported formats_output output) as [bad|] eqn:E;
      [now exists bad|].
    exfalso. rewrite first_unsupported_None in E.
    apply E, supported_iff in Hin as (f & Hf & He). now apply (Habsent f). }
  destruct Hbad as (bad & Hbad).
  pose proof (convert_unfold glob_pattern output verbose force w) as H.
  cbv zeta in H. subst out.
  destruct (ffmpeg_version (trace w) (files w)) as [[|c|c]|] eqn:Hprobe.
  - rewrite Hbad in H. rewrite H. cbn.
    repeat split; [discriminate | eauto | intros _; exists bad; auto].
  - rewrite H. cbn. repeat split; [discriminate | eauto | discriminate].
  - rewrite H. cbn. repeat split; [discriminate | eauto | discriminate].
  - destruct H as (hint & ->). cbn.
    repeat split; [discriminate | eauto | discriminate].
Qed.

End CommandFacts.

(** With a catalog that has mp3 and mp2 only, asking for ogg ends the
    command with status 1 before any conversion. *)
Lemma C9_witness :
  let w := fresh [file "a.wav"] in
  let out := convert glob_any ffmpeg_creates ffmpeg_installed (lit "Linux")
               two_lines (lit "*") [lit "mp3"; lit "ogg"] true false w in
  exit_status (fst out) <> 0%Z /\
  files (snd out) = files w /\
  (exists probe, trace (snd out) = trace w ++ [RunVersion probe]) /\
  (exists bad,
     first_unsupported two_lines [lit "mp3"; lit "ogg"] = Some bad /\
     fst out = Raise (TyperExit 1) /\
     echoed (snd out) = echoed w ++ [EchoUnsupported bad]).
Proof.
  intros w out.
  destruct (@C9_unsupported_format_stops_before_conversion glob_any
              ffmpeg_creates ffmpeg_installed (lit "Linux") two_lines
              (lit "*") [lit "mp3"; lit "ogg"] true false w (lit "ogg"))
    as (H1 & H2 & H3 & H4).
  - right. left. reflexivity.
  - intros f Hf. vm_compute in Hf.
    destruct Hf as [<-|[<-|[]]]; vm_compute; discriminate.
  - repeat split; auto.
Defined.

(** C10: validation of the requested output formats fails exactly when
    one of them is not a key of [SUPPORTED_FORMATS_BY_EXTENSION]; a key is
    any extension of a descriptor of the catalog, whatever its encoder
    flag; when all are keys (and the installation check passes) the command
    runs the batch for them.  With a catalog whose only descriptor, ape, is
    decode-only, [convert] for ape runs the transcoder on a.wav. *)
Theorem C10_validation_ignores_encoder_flag :
  (forall formats_output output w,
     (check_output_formats formats_output output w = (Ok tt, w) <->
      forall fmt, In fmt output ->
        dict_contains fmt (SUPPORTED_FORMATS_BY_EXTENSION formats_output) = true)
     /\
     (fst (check_output_formats formats_output output w) = Raise (TyperExit 1) <->
      exists fmt, In fmt output /\
        dict_contains fmt (SUPPORTED_FORMATS_BY_EXTENSION formats_output) = false))
  /\
  (forall formats_output fmt,
     dict_contains fmt (SUPPORTED_FORMATS_BY_EXTENSION formats_output) = true <->
     exists f, In f (SUPPORTED_FORMATS formats_output) /\ extension f = fmt) /\
  (forall glob_selector ffmpeg_convert ffmpeg_version os_type formats_output
          glob_pattern output verbose force w,
     ffmpeg_version (trace w) (files w) = Exited 0 ->
     (forall fmt, In fmt output ->
        exists f, In f (SUPPORTED_FORMATS formats_output) /\ extension f = fmt) ->
     convert glob_selector ffmpeg_convert ffmpeg_version os_type formats_output
       glob_pattern output verbose force w =
     try_except
       (convert_files glob_selector ffmpeg_convert glob_pattern output verbose force)
       report_error
       (mkWorld (files w) (trace w ++ [RunVersion (Exited 0)]) (echoed w))) /\
  dict_get (lit "ape") (SUPPORTED_FORMATS_BY_EXTENSION decode_only_listing) =
    Some (mkFFmpegFormat true false (lit "ape") (lit "Monkey's Audio")) /\
  (exists w',
     convert glob_any ffmpeg_creates ffmpeg_installed (lit "Linux")
       decode_only_listing (lit "*") [lit "ape"] false false
       (fresh [file "a.wav"]) = (Ok tt, w') /\
     trace w' = [RunVersion (Exited 0);
                 RunConvert (file "a.wav") (file "a.ape") (Exited 0)]).
Proof.
  split.
  { intros fo output w. rewrite check_output_formats_spec.
    rewrite <- first_unsupported_None.
    destruct (first_unsupported fo output) as [bad|] eqn:E.
    - split; [split; discriminate|]. cbn. split; [|reflexivity].
      intros _. apply first_unsupported_Some in E as [Hin Hn]. eauto.
    - split; [tauto|]. cbn. split; [discriminate|].
      intros (fmt & Hin & Hn). rewrite first_unsupported_None in E.
      rewrite (E _ Hin) in Hn. discriminate. }
  split; [intros; apply supported_iff|].
  split.
  { intros gs fc fv os fo pat output verbose force w Hprobe Hall.
    pose proof (convert_unfold gs fc fv os fo pat output verbose force w) as H.
    cbv zeta in H. rewrite Hprobe in H.
    assert (E : first_unsupported fo output = None).
    { apply first_unsupported_None. intros fmt Hin.
      now apply supported_iff, Hall. }
    now rewrite E in H. }
  split; [vm_compute; reflexivity|].
  eexists. split; vm_compute; reflexivity.
Qed.

(** The decode-only format ape passes validation and the batch is run for
    it. *)
Lemma C10_witness :
  let w := fresh [file "a.wav"] in
  convert glob_any ffmpeg_creates ffmpeg_installed (lit "Linux")
    decode_only_listing (lit "*") [lit "ape"] false false w =
  try_except
    (convert_files glob_any ffmpeg_creates (lit "*") [lit "ape"] false false)
    report_error
    (mkWorld (files w) (trace w ++ [RunVersion (Exited 0)]) (echoed w)).
Proof.
  intros w.
  destruct C10_validation_ignores_encoder_flag as (_ & _ & H & _).
  apply H; [reflexivity|].
  intros fmt [<-|[]].
  exists (mkFFmpegFormat true false (lit "ape") (lit "Monkey's Audio")).
  split; [vm_compute; auto | reflexivity].
Defined.

(** ** Destinations of wav files *)

Section PathFacts.

Lemma suffix_split p :
  suffix p <> [] ->
  name p = firstn (length (name p) - length (suffix p)) (name p) ++ suffix p.
Proof.
  unfold suffix. destruct (rfind "." (name p)) as [i|]; [|congruence].
  destruct ((0 <? i) && (i <? length (name p) - 1)) eqn:E; [|congruence].
  intros _. apply andb_true_iff in E as [_ E]. apply Nat.ltb_lt in E.
  rewrite length_skipn.
  replace (length (name p) - (length (name p) - i)) with i by lia.
  symmetry. apply firstn_skipn.
Qed.

Lemma is_wav_suffix p : is_wav p = true <-> suffix p = lit ".wav".
Proof. apply str_eqb_eq. Qed.

Lemma wav_name p :
  is_wav p = true ->
  name p = firstn (length (name p) - 4) (name p) ++ lit ".wav".
Proof.
  intros H. apply is_wav_suffix in H.
  pose proof (suffix_split p) as Hs. rewrite H in Hs.
  apply Hs. discriminate.
Qed.

Lemma contains_cons c x s :
  contains c (x :: s) = chr_eqb c x || contains c s.
Proof. reflexivity. Qed.

(** The destination of a wav file: the name without [.wav], a dot and
    the target extension. *)
Lemma wav_destination p fmt q :
  is_wav p = true ->
  destination (p, fmt) = Ok q ->
  parent q = parent p /\
  name q = firstn (length (name p) - 4) (name p) ++ "."%char :: fmt.
Proof.
  intros Hw. pose proof (wav_name p Hw) as Hn.
  apply is_wav_suffix in Hw.
  unfold destination, with_suffix. cbn [fst snd].
  destruct (contains "/" ("."%char :: fmt)); [discriminate|].
  destruct (_ || _); [discriminate|].
  destruct (is_empty (name p)); [discriminate|].
  rewrite Hw. cbn [is_empty lit list_ascii_of_string length].
  intros H. injection H as <-. cbn. auto.
Qed.

Lemma wav_to_wav p : is_wav p = true -> destination (p, lit "wav") = Ok p.
Proof.
  intros Hw. pose proof (wav_name p Hw) as Hn.
  apply is_wav_suffix in Hw.
  unfold destination, with_suffix. cbn [fst snd].
  change (contains "/" ("."%char :: lit "wav")) with false.
  change ((negb (is_empty ("."%char :: lit "wav")) &&
           negb (startswith (lit ".") ("."%char :: lit "wav")))
          || PyStr.eqb ("."%char :: lit "wav") (lit ".")) with false.
  cbv iota.
  assert (Hne : is_empty (name p) = false).
  { destruct (name p); [|reflexivity]. cbn in Hn. discriminate. }
  rewrite Hne, Hw. cbn [is_empty lit list_ascii_of_string length] in *.
  rewrite <- Hn. now destruct p.
Qed.

Lemma ends_in_wav (stem pre fmt : str) :
  stem ++ "."%char :: fmt = pre ++ lit ".wav" ->
  fmt = lit "wav" \/ endswith fmt (lit ".wav") = true.
Proof.
  intros H. apply (f_equal (@rev ascii)) in H.
  rewrite !rev_app_distr in H. cbn [rev lit list_ascii_of_string app] in H.
  rewrite <- !app_assoc in H. cbn [app] in H.
  unfold endswith. cbn [rev lit list_ascii_of_string app].
  destruct (rev fmt) as [|a [|b [|c [|d t]]]] eqn:Er; cbn [app] in H;
    try (injection H; intros; discriminate).
  - left. injection H as -> -> -> _.
    rewrite <- (rev_involutive fmt), Er. reflexivity.
  - right. injection H as -> -> -> -> _. reflexivity.
Qed.

(** A destination that is a wav file again is the source itself, unless
    the target extension ends in [.wav]. *)
Lemma wav_destination_is_source p fmt q :
  is_wav p = true -> destination (p, fmt) = Ok q -> is_wav q = true ->
  plain_target fmt -> q = p.
Proof.
  intros Hp Hd Hq Hplain.
  destruct (wav_destination _ _ Hp Hd) as [_ Hname].
  pose proof (wav_name q Hq) as Hqn. rewrite Hname in Hqn at 1.
  apply ends_in_wav in Hqn.
  assert (fmt = lit "wav") as ->.
  { destruct Hqn as [->|Hends]; [reflexivity|].
    destruct Hplain as [->|Hno]; [reflexivity | congruence]. }
  rewrite (wav_to_wav p Hp) in Hd. congruence.
Qed.

End PathFacts.

(** ** Running the batch twice *)

Section Idempotence.

Variable glob_selector : str -> Res (Path -> bool).
Variable ffmpeg_convert :
  list Invocation -> list Path -> Path -> Path -> ProcResult * list Path.

Local Abbreviation convert_file := (convert_file ffmpeg_convert).
Local Abbreviation for_formats := (for_formats ffmpeg_convert).
Local Abbreviation convert_files := (convert_files glob_selector ffmpeg_convert).

Hypothesis tool_creates : creates_destination ffmpeg_convert.

Lemma destinations_made_step w all done p fmt verbose w1 b w2 :
  destinations_made w all done w1 ->
  In (p, fmt) all ->
  convert_file p fmt verbose false w1 = (Ok b, w2) ->
  destinations_made w all (done ++ [(p, fmt)]) w2.
Proof.
  intros (Hkeep & Hdone & Hnew) Hin Hrun.
  destruct (convert_file_cases ffmpeg_convert p fmt verbose false w1);
    try discriminate; injection Hrun as <- <-; cbn [files].
  - (* skipped *)
    split; [exact Hkeep|]. split; [|exact Hnew].
    intros t Ht. apply in_app_or in Ht as [Ht|[<-|[]]]; [now apply Hdone|].
    exists q. split; [assumption|]. now apply file_exists_In.
  - (* converted *)
    pose proof tool_creates as Hcreates.
    unfold creates_destination in Hcreates.
    match goal with
    | Hc : ffmpeg_convert _ _ _ _ = _ |- _ =>
        pose proof (Hcreates _ _ _ _ _ Hc) as Hfs
    end.
    split; [|split].
    + intros x Hx. apply Hfs. left. now apply Hkeep.
    + intros t Ht. apply in_app_or in Ht as [Ht|[<-|[]]].
      * destruct (Hdone t Ht) as (x & Hd & Hx). exists x.
        split; [exact Hd|]. apply Hfs. now left.
      * exists q. split; [assumption|]. apply Hfs. now right.
    + intros x Hx. apply Hfs in Hx as [Hx| ->]; [now apply Hnew|].
      right. exists (p, fmt). auto.
Qed.

Lemma for_formats_destinations fmts paths verbose w c c' w' :
  for_formats fmts paths verbose false c w = (Ok c', w') ->
  destinations_made w (tasks fmts paths) (tasks fmts paths) w'.
Proof.
  intros Hrun.
  pose proof (@for_formats_rule ffmpeg_convert verbose false (tasks fmts paths)
                (fun done w1 _ => destinations_made w (tasks fmts paths) done w1)
                (fun _ _ _ _ => True)) as H.
  unfold loop_post in H.
  assert (Hstep : forall done p fmt w1 (c1 : Z),
             destinations_made w (tasks fmts paths) done w1 ->
             In (p, fmt) (tasks fmts paths) ->
             match convert_file p fmt verbose false w1 with
             | (Ok b, w2) =>
                 destinations_made w (tasks fmts paths) (done ++ [(p, fmt)]) w2
             | (Raise _, _) => True
             end).
  { intros done p fmt w1 c1 Hd Hin.
    destruct (convert_file p fmt verbose false w1) as [[b|e] w2] eqn:Hcf;
      [|exact Logic.I].
    eapply destinations_made_step; eauto. }
  assert (Hstart : destinations_made w (tasks fmts paths) [] w).
  { split; [auto|]. split; [intros t []|auto]. }
  specialize (H Hstep
                (fun done fmt w1 c1 Hd => ltac:(rewrite log_world; exact Hd))
                paths fmts [] w c Hstart (incl_refl _)).
  now rewrite Hrun in H.
Qed.

(** After a completed batch over the matches of [selects], the
    destination of every task of a second batch exists. *)
Lemma second_batch_destinations fmts selects verbose w c c' w' :
  (forall fmt, In fmt fmts -> plain_target fmt) ->
  for_formats fmts (filter selects (files w)) verbose false c w = (Ok c', w') ->
  forall t, In t (tasks fmts (filter selects (files w'))) ->
    exists q, destination t = Ok q /\ In q (files w').
Proof.
  intros Hplain Hrun [p fmt] Ht.
  destruct (for_formats_destinations _ _ _ _ _ Hrun) as (Hkeep & Hdone & Hnew).
  apply tasks_In in Ht as (Hwav & Hp & Hfmt).
  apply filter_In in Hp as [Hp Hsel].
  assert (Hold : In p (files w)).
  { destruct (Hnew p Hp) as [Hold|([p0 fmt0] & Ht0 & Hd0)]; [exact Hold|].
    apply tasks_In in Ht0 as (Hwav0 & Hp0 & Hfmt0).
    rewrite (@wav_destination_is_source _ _ _ Hwav0 Hd0 Hwav (Hplain _ Hfmt0)).
    now apply filter_In in Hp0 as [Hp0 _]. }
  apply Hdone, tasks_In_iff. split; [exact Hwav|]. split; [|exact Hfmt].
  apply filter_In. auto.
Qed.

(** A batch without [force] in which every destination exists converts
    nothing, runs nothing and changes no file. *)
Lemma all_skipped fmts paths verbose w :
  (forall t, In t (tasks fmts paths) ->
     exists q, destination t = Ok q /\ In q (files w)) ->
  exists w' printed,
    for_formats fmts paths verbose false 0%Z w = (Ok 0%Z, w') /\
    files w' = files w /\ trace w' = trace w /\
    echoed w' = echoed w ++ printed.
Proof.
  intros Hall.
  pose proof (@for_formats_rule ffmpeg_convert verbose false (tasks fmts paths)
                (fun _ w1 c1 =>
                   files w1 = files w /\ trace w1 = trace w /\ c1 = 0%Z /\
                   exists printed, echoed w1 = echoed w ++ printed)
                (fun _ _ _ _ => False)) as H.
  unfold loop_post in H.
  assert (Hstep : forall (done : list (Path * str)) p fmt w1 (c1 : Z),
             (files w1 = files w /\ trace w1 = trace w /\ c1 = 0%Z /\
              exists printed, echoed w1 = echoed w ++ printed) ->
             In (p, fmt) (tasks fmts paths) ->
             match convert_file p fmt verbose false w1 with
             | (Ok b, w2) =>
                 files w2 = files w /\ trace w2 = trace w /\
                 (if b then c1 + 1 else c1)%Z = 0%Z /\
                 exists printed, echoed w2 = echoed w ++ printed
             | (Raise _, _) => False
             end).
  { intros done p fmt w1 c1 (Hf & Ht & Hc & printed & He) Hin.
    destruct (Hall _ Hin) as (q & Hd & Hq).
    assert (Hex : file_exists q w1 = true).
    { apply file_exists_In. now rewrite Hf. }
    rewrite (convert_file_skip ffmpeg_convert _ _ _ _ Hd Hex). cbn.
    repeat split; auto. rewrite He, <- app_assoc. eauto. }
  assert (Hlog : forall (done : list (Path * str)) fmt w1 (c1 : Z),
             (files w1 = files w /\ trace w1 = trace w /\ c1 = 0%Z /\
              exists printed, echoed w1 = echoed w ++ printed) ->
             let w2 := snd (log (LogConvertedTo c1 fmt) verbose w1) in
             files w2 = files w /\ trace w2 = trace w /\ c1 = 0%Z /\
             exists printed, echoed w2 = echoed w ++ printed).
  { intros done fmt w1 c1 (Hf & Ht & Hc & printed & He). rewrite log_world. cbn.
    repeat split; auto. rewrite He, <- app_assoc. eauto. }
  assert (Hstart : files w = files w /\ trace w = trace w /\ 0%Z = 0%Z /\
                   exists printed, echoed w = echoed w ++ printed).
  { repeat split. exists []. now rewrite app_nil_r. }
  specialize (H Hstep Hlog paths fmts [] w 0%Z Hstart (incl_refl _)).
  destruct (for_formats fmts paths verbose false 0%Z w) as [[c'|e] w'].
  - destruct H as (Hf & Ht & -> & printed & He). exists w', printed. auto.
  - destruct H as (_ & _ & _ & _ & []).
Qed.

(** C6, as the code has it: when a batch without [force] has completed
    and the same batch is run again on the files it left, the second run
    completes, reports 0 files converted, runs no transcoder and changes
    no file, provided that a successful transcoder run adds its output
    file and nothing else, and that no target extension other than [wav]
    ends in [.wav]. *)
Theorem C6_second_run_converts_nothing
    (glob_pattern : str) (output_formats : list str)
    (verbose1 verbose2 : bool) (w w1 : World) :
  (forall fmt, In fmt output_formats -> plain_target fmt) ->
  convert_files glob_pattern output_formats verbose1 false w = (Ok tt, w1) ->
  exists w2,
    convert_files glob_pattern output_formats verbose2 false w1 = (Ok tt, w2) /\
    trace w2 = trace w1 /\ files w2 = files w1 /\
    (verbose2 = true ->
     exists printed skipped,
       echoed w2 = echoed w1 ++ printed ++ [LogSummary 0 skipped]).
Proof.
  intros Hplain Hfirst.
  rewrite convert_files_unfold in Hfirst |- *.
  destruct (glob_selector glob_pattern) as [selects|e]; [|discriminate].
  cbv zeta in Hfirst |- *.
  destruct (for_formats output_formats _ verbose1 false 0%Z _)
    as [[c|e] w1'] eqn:Hloop; [|discriminate].
  injection Hfirst as <-. cbn [files trace echoed].
  assert (Hdest : forall t,
             In t (tasks output_formats (filter selects (files w1'))) ->
             exists q, destination t = Ok q /\ In q (files w1')).
  { match type of Hloop with
    | Cli.for_formats _ _ _ _ _ _ ?w0 = _ =>
        apply (@second_batch_destinations output_formats selects verbose1
                 w0 0%Z c w1' Hplain Hloop)
    end. }
  destruct (all_skipped output_formats (filter selects (files w1')) verbose2
              (mkWorld (files w1') (trace w1')
                 ((echoed w1' ++
                     (if verbose1
                      then [LogSummary c
                              (len (filter selects (files w)) - c)%Z]
                      else [])) ++
                  (if verbose2
                   then [LogScanning glob_pattern;
                         LogFound (len (filter selects (files w1')))]
                   else []))) Hdest)
    as (w2 & printed & Hrun & Hf & Ht & He).
  rewrite Hrun. eexists. split; [reflexivity|]. cbn [files trace echoed] in *.
  split; [exact Ht|]. split; [exact Hf|].
  intros ->. rewrite He.
  exists ([LogScanning glob_pattern;
           LogFound (len (filter selects (files w1')))] ++ printed),
         (len (filter selects (files w1')) - 0)%Z.
  now rewrite <- !app_assoc.
Qed.

End Idempotence.

Lemma ffmpeg_creates_destination : creates_destination ffmpeg_creates.
Proof.
  intros calls fs input output fs' H q. unfold ffmpeg_creates in H.
  injection H as <-.
  destruct (existsb (path_eqb output) fs) eqn:E.
  - split; [auto|]. intros [Hq| ->]; [exact Hq|].
    apply existsb_exists in E as (x & Hx & Hxq).
    apply path_eqb_eq in Hxq. now subst.
  - rewrite in_app_iff. cbn. split; [intros [?|[?|[]]]; auto | intros [?| ->]; auto].
Qed.

(** Two wav files, targets mp3 and ogg: the first run converts four
    times, the second run nothing. *)
Lemma C6_witness :
  let w := fresh [file "a.wav"; file "b.wav"] in
  let w1 := snd (convert_files glob_star_wav ffmpeg_creates (lit "*.wav")
                   [lit "mp3"; lit "ogg"] true false w) in
  count_converted (trace w1) = 4%Z /\
  exists w2,
    convert_files glob_star_wav ffmpeg_creates (lit "*.wav")
      [lit "mp3"; lit "ogg"] true false w1 = (Ok tt, w2) /\
    trace w2 = trace w1 /\ files w2 = files w1 /\
    exists printed skipped,
      echoed w2 = echoed w1 ++ printed ++ [LogSummary 0 skipped].
Proof.
  intros w w1. split; [vm_compute; reflexivity|].
  destruct (@C6_second_run_converts_nothing glob_star_wav ffmpeg_creates
              ffmpeg_creates_destination (lit "*.wav") [lit "mp3"; lit "ogg"]
              true true w w1)
    as (w2 & Hrun & Ht & Hf & He).
  - intros fmt [<-|[<-|[]]]; right; vm_compute; reflexivity.
  - vm_compute. reflexivity.
  - exists w2. repeat split; auto.
Defined.

(** C6 as stated fails for a target extension that ends in [.wav]: with
    a.wav and the target x.wav, the first run makes a.x.wav, which is a wav
    file that [*.wav] matches, and the second run converts it to
    a.x.x.wav: its converted count is 1. *)
Lemma C6_counterexample :
  exists w1 w2 printed,
    creates_destination ffmpeg_creates /\
    convert_files glob_star_wav ffmpeg_creates (lit "*.wav") [lit "x.wav"]
      true false (fresh [file "a.wav"]) = (Ok tt, w1) /\
    files w1 = [file "a.wav"; file "a.x.wav"] /\
    convert_files glob_star_wav ffmpeg_creates (lit "*.wav") [lit "x.wav"]
      true false w1 = (Ok tt, w2) /\
    trace w2 =
      trace w1 ++ [RunConvert (file "a.x.wav") (file "a.x.x.wav") (Exited 0)] /\
    echoed w2 = echoed w1 ++ printed ++ [LogSummary 1 1].
Proof.
  eexists. eexists. eexists.
  split; [exact ffmpeg_creates_destination|].
  split; [vm_compute; reflexivity|].
  split; [reflexivity|].
  split; [vm_compute; reflexivity|].
  split; [reflexivity|].
  cbn [echoed].
  instantiate (1 := [_; _; _; _; _]). reflexivity.
Qed.

(** ** The first match of the capability pattern *)

Section ReFirst.

Import Re.

Lemma flat_map_nil {A B} (f : A -> list B) l :
  (forall x, In x l -> f x = []) -> flat_map f l = [].
Proof.
  induction l as [|x l IH]; intros H; simpl; [reflexivity|].
  rewrite (H x) by now left. apply IH. intros y Hy. apply H. now right.
Qed.

Lemma flat_map_map {A B C} (f : B -> list C) (g : A -> B) l :
  flat_map f (map g l) = flat_map (fun x => f (g x)) l.
Proof. induction l as [|x l IH]; simpl; [reflexivity | now rewrite IH]. Qed.

(** When the first alternative of [r1] lets [r2] match, the first match
    of the sequence goes through it. *)
Lemma seq_hd r1 r2 st a l b :
  exec r1 st = a :: l ->
  hd_error (exec r2 a) = Some b ->
  hd_error (exec (Seq r1 r2) st) = Some b.
Proof.
  cbn [exec]. intros -> H. cbn [flat_map].
  destruct (exec r2 a); [discriminate | exact H].
Qed.

(** A greedy repetition first takes all it can. *)
Lemma star_greedy_first cls : forall pre post p g,
  forallb cls pre = true ->
  (forall c t, post = c :: t -> cls c = false) ->
  exists l,
    star_greedy cls p (pre ++ post) g = MState (p + length pre) post g :: l.
Proof.
  induction pre as [|x pre IH]; intros post p g Hpre Hpost; cbn [app length].
  - rewrite Nat.add_0_r. destruct post as [|c t]; [now exists []|].
    cbn. rewrite (Hpost c t eq_refl). now exists [].
  - cbn in Hpre. apply andb_true_iff in Hpre as [Hx Hpre].
    cbn [star_greedy]. rewrite Hx.
    destruct (IH post (S p) g Hpre Hpost) as (l & ->).
    rewrite Nat.add_succ_r. cbn. eauto.
Qed.

Lemma plus_first cls st pre post :
  pre <> [] -> rest st = pre ++ post -> forallb cls pre = true ->
  (forall c t, post = c :: t -> cls c = false) ->
  exists l,
    exec (Plus cls) st = MState (pos st + length pre) post (groups st) :: l.
Proof.
  intros Hne Hrest Hpre Hpost. cbn [exec]. rewrite Hrest.
  destruct pre as [|x pre]; [congruence|]. cbn [app].
  cbn in Hpre. apply andb_true_iff in Hpre as [Hx Hpre]. rewrite Hx.
  destruct (@star_greedy_first cls pre post (S (pos st)) (groups st) Hpre Hpost)
    as (l & ->).
  cbn [length]. rewrite Nat.add_succ_r. eauto.
Qed.

Lemma group_plus_first name cls st pre post :
  pre <> [] -> rest st = pre ++ post -> forallb cls pre = true ->
  (forall c t, post = c :: t -> cls c = false) ->
  exists l,
    exec (Group name (Plus cls)) st =
    MState (pos st + length pre) post ((name, pre) :: groups st) :: l.
Proof.
  intros Hne Hrest Hpre Hpost.
  destruct (@plus_first cls st pre post Hne Hrest Hpre Hpost) as (l & E).
  cbn [exec] in *. rewrite E. cbn [map pos rest groups].
  rewrite Hrest, firstn_consumed. eauto.
Qed.

Lemma chr_fails c st :
  (forall t, rest st <> c :: t) -> exec (Chr c) st = [].
Proof.
  intros H. cbn [exec]. destruct (rest st) as [|x t] eqn:E; [reflexivity|].
  destruct (chr_eqb x c) eqn:Ex; [|reflexivity].
  apply chr_eqb_eq in Ex. subst x. now destruct (H t).
Qed.

Lemma chr_matches c st t :
  rest st = c :: t -> exec (Chr c) st = [advance st t].
Proof. intros H. cbn [exec]. now rewrite H, chr_eqb_refl. Qed.

Lemma mstate_eta st : MState (pos st + 0) (rest st) (groups st) = st.
Proof. rewrite Nat.add_0_r. now destruct st. Qed.

(** An optional flag: taken when it is there. *)
Lemma opt_group_chr_first name c (flag : bool) st t :
  rest st = flag_text flag c ++ t ->
  (flag = false -> forall t', t <> c :: t') ->
  exists l,
    exec (Opt (Group name (Chr c))) st =
    MState (pos st + length (flag_text flag c)) t
      ((if flag then [(name, [c])] else []) ++ groups st) :: l.
Proof.
  intros Hrest Hno. destruct flag; cbn [flag_text app length] in *.
  - cbn [exec]. change (exec (Chr c) st) with (exec (Chr c) st).
    pose proof (@chr_matches c st t Hrest) as E. cbn [exec] in E. rewrite E.
    cbn [map app advance pos rest groups]. rewrite Hrest.
    replace (S (pos st) - pos st) with 1 by lia. cbn [firstn].
    rewrite Nat.add_1_r. eauto.
  - assert (E : exec (Chr c) st = []).
    { apply chr_fails. intros t'. rewrite Hrest. now apply Hno. }
    cbn [exec] in *. rewrite E. cbn [map app].
    subst t. rewrite mstate_eta. eauto.
Qed.

Lemma opt_chr_first c (flag : bool) st t :
  rest st = flag_text flag c ++ t ->
  (flag = false -> forall t', t <> c :: t') ->
  exists l,
    exec (Opt (Chr c)) st =
    MState (pos st + length (flag_text flag c)) t (groups st) :: l.
Proof.
  intros Hrest Hno. destruct flag; cbn [flag_text app length] in *.
  - pose proof (@chr_matches c st t Hrest) as E. cbn [exec] in *. rewrite E.
    cbn [app advance]. rewrite Nat.add_1_r. eauto.
  - assert (E : exec (Chr c) st = []).
    { apply chr_fails. intros t'. rewrite Hrest. now apply Hno. }
    cbn [exec] in *. rewrite E. cbn [app].
    subst t. rewrite mstate_eta. eauto.
Qed.

Lemma is_space_newline : is_space newline = true.
Proof. reflexivity. Qed.

Lemma existsb_non_space_app pre post :
  forallb is_space pre = true ->
  existsb non_space (pre ++ post) = existsb non_space post.
Proof.
  induction pre as [|x pre IH]; intros H; cbn in *; [reflexivity|].
  apply andb_true_iff in H as [Hx H]. unfold non_space at 1. rewrite Hx.
  cbn. now apply IH.
Qed.

(** The end of the pattern, [\s*$], fails when a non-blank character is
    left, and otherwise takes all that is left. *)
Lemma tail_fails st :
  existsb non_space (rest st) = true ->
  exec (Seq (Star is_space) Eol) st = [].
Proof.
  intros H. cbn [exec]. apply flat_map_nil. intros st' Hin.
  apply star_greedy_In in Hin as (pre & Hs & Hc & _ & _).
  rewrite Hs, existsb_non_space_app in H by exact Hc.
  cbn [exec].
  destruct (rest st') as [|c [|? ?]]; try reflexivity.
  - discriminate.
  - cbn in H. rewrite orb_false_r in H.
    destruct (chr_eqb c newline) eqn:E; [|reflexivity].
    apply chr_eqb_eq in E. subst c. discriminate.
Qed.

Lemma tail_ok st :
  forallb is_space (rest st) = true ->
  exists l,
    exec (Seq (Star is_space) Eol) st =
    MState (pos st + length (rest st)) [] (groups st) :: l.
Proof.
  intros H. cbn [exec].
  destruct (@star_greedy_first is_space (rest st) [] (pos st) (groups st) H)
    as (l & E); [discriminate|].
  rewrite app_nil_r in E. rewrite E. cbn. eauto.
Qed.

(** A lazy repetition stops at the first place from which the rest of
    the pattern matches. *)
Lemma star_lazy_first (F : mstate -> list mstate) : forall desc trail p g b,
  forallb dot desc = true ->
  (forall u c, desc = u ++ [c] -> non_space c = true) ->
  (forall st', existsb non_space (rest st') = true -> F st' = []) ->
  hd_error (F (MState (p + length desc) trail g)) = Some b ->
  hd_error (flat_map F (star_lazy dot p (desc ++ trail) g)) = Some b.
Proof.
  induction desc as [|x desc IH]; intros trail p g b Hdot Hlast HF Hb.
  - cbn [length app] in *. rewrite Nat.add_0_r in Hb.
    destruct trail as [|y t]; cbn [star_lazy flat_map];
      destruct (F _); try discriminate; exact Hb.
  - cbn in Hdot. apply andb_true_iff in Hdot as [Hx Hdot].
    cbn [app star_lazy]. rewrite Hx. cbn [flat_map].
    rewrite HF.
    + cbn [app]. apply IH; auto.
      * intros u c ->. apply (Hlast (x :: u) c). reflexivity.
      * cbn [length] in Hb. now rewrite Nat.add_succ_r in Hb.
    + cbn [rest].
      destruct (exists_last (l := x :: desc)) as (u & c & Hu); [discriminate|].
      change (x :: desc ++ trail) with ((x :: desc) ++ trail).
      rewrite Hu, <- app_assoc, existsb_app, existsb_app. cbn.
      rewrite (Hlast u c Hu). cbn. apply orb_true_r.
Qed.

Lemma exec_group_lazy_seq name cls K st :
  exec (Seq (Group name (LazyStar cls)) K) st =
  flat_map
    (fun x => exec K (MState (pos x) (rest x)
                        ((name, firstn (pos x - pos st) (rest st)) :: groups x)))
    (star_lazy cls (pos st) (rest st) (groups st)).
Proof. cbn [exec]. apply flat_map_map. Qed.

(** The description and the end of the line. *)
Lemma description_first name desc trail p g :
  forallb dot desc = true ->
  (forall u c, desc = u ++ [c] -> non_space c = true) ->
  forallb is_space trail = true ->
  hd_error (exec (Seq (Group name (LazyStar dot)) (Seq (Star is_space) Eol))
              (MState p (desc ++ trail) g)) =
  Some (MState (p + length desc + length trail) [] ((name, desc) :: g)).
Proof.
  intros Hdot Hlast Htrail. rewrite exec_group_lazy_seq. cbn [pos rest groups].
  apply star_lazy_first; auto.
  - intros st' H. apply tail_fails. exact H.
  - destruct (@tail_ok
                (MState (p + length desc) trail
                   ((name, firstn (p + length desc - p) (desc ++ trail)) :: g))
                Htrail) as (l & E).
    cbn [pos rest groups] in *. rewrite E. cbn [hd_error].
    now rewrite firstn_consumed.
Qed.

Lemma first_match_groups line b :
  hd_error (exec pattern (MState 0 line [])) = Some b ->
  pattern_match line =
  Some (GroupDict (lookup "is_decoder" (groups b)) (lookup "is_encoder" (groups b))
                  (lookup "extension" (groups b)) (lookup "description" (groups b))).
Proof.
  unfold pattern_match, re_match.
  destruct (exec pattern (MState 0 line [])) as [|st l]; [discriminate|].
  cbn. now intros [= ->].
Qed.

End ReFirst.

Section ParserComplete.

Import Re.

(** A well-formed line matches the pattern with the parts it is made
    of. *)
Lemma well_formed_line_matches
    (lead : str) (dflag dotflag eflag : bool)
    (ws1 token ws2 desc trail : str) :
  forallb is_space lead = true ->
  dflag || dotflag || eflag = true ->
  ws1 <> [] -> forallb is_space ws1 = true ->
  token <> [] -> forallb non_space token = true ->
  ws2 <> [] -> forallb is_space ws2 = true ->
  forallb dot desc = true ->
  (forall c t, desc = c :: t -> non_space c = true) ->
  (forall u c, desc = u ++ [c] -> non_space c = true) ->
  forallb is_space trail = true ->
  (desc = [] -> trail = []) ->
  pattern_match
    (lead ++ flag_text dflag "D" ++ flag_text dotflag "." ++
     flag_text eflag "E" ++ ws1 ++ token ++ ws2 ++ desc ++ trail) =
  Some (GroupDict (if dflag then Some (lit "D") else None)
                  (if eflag then Some (lit "E") else None)
                  (Some token) (Some desc)).
Proof.
  intros Hlead Hflag Hws1n Hws1 Htokn Htok Hws2n Hws2 Hdot Hfirst Hlast
         Htrail Hempty.
  destruct ws1 as [|w ws1']; [congruence|].
  destruct token as [|k token']; [congruence|].
  destruct ws2 as [|v ws2']; [congruence|].
  assert (Hw : is_space w = true) by (cbn in Hws1; now apply andb_true_iff in Hws1).
  assert (Hk : non_space k = true) by (cbn in Htok; now apply andb_true_iff in Htok).
  assert (Hv : is_space v = true) by (cbn in Hws2; now apply andb_true_iff in Hws2).
  set (t4 := desc ++ trail).
  set (t3 := (w :: ws1') ++ (k :: token') ++ (v :: ws2') ++ t4).
  set (t2 := flag_text eflag "E" ++ t3).
  set (t1 := flag_text dotflag "." ++ t2).
  set (t0 := flag_text dflag "D" ++ t1).
  assert (P0 : forall c t, t0 = c :: t -> is_space c = false).
  { subst t0 t1 t2 t3. destruct dflag, dotflag, eflag; try discriminate;
      cbn; intros c t E; injection E as <- _; reflexivity. }
  assert (P1 : dflag = false -> forall t', t1 <> "D"%char :: t').
  { intros ->. subst t1 t2 t3. destruct dotflag, eflag; try discriminate;
      cbn; intros t' E; discriminate. }
  assert (P2 : dotflag = false -> forall t', t2 <> "."%char :: t').
  { intros ->. subst t2 t3. destruct eflag; cbn; intros t' E; [discriminate|].
    injection E as -> _. discriminate. }
  assert (P3 : eflag = false -> forall t', t3 <> "E"%char :: t').
  { intros ->. subst t3. cbn. intros t' E. injection E as -> _. discriminate. }
  assert (P4 : forall c t, (k :: token') ++ (v :: ws2') ++ t4 = c :: t ->
                           is_space c = false).
  { cbn. intros c t E. injection E as <- _. now apply negb_true_iff in Hk. }
  assert (P5 : forall c t, (v :: ws2') ++ t4 = c :: t -> non_space c = false).
  { cbn. intros c t E. injection E as <- _. unfold non_space. now rewrite Hv. }
  assert (P6 : forall c t, t4 = c :: t -> is_space c = false).
  { subst t4. destruct desc as [|d desc'].
    - rewrite (Hempty eq_refl). discriminate.
    - cbn. intros c t E. injection E as <- _.
      apply negb_true_iff. exact (Hfirst d desc' eq_refl). }
  assert (H : exists b,
             hd_error (exec pattern (MState 0 (lead ++ t0) [])) = Some b /\
             Re.groups b =
               (("description"%string, desc) :: ("extension"%string, k :: token') ::
                (if eflag then [("is_encoder"%string, ["E"%char])] else []) ++
                (if dflag then [("is_decoder"%string, ["D"%char])] else []))).
  { eexists. split.
    - unfold pattern.
      eapply seq_hd; [reflexivity|].
      destruct (@star_greedy_first is_space lead t0 0 [] Hlead P0) as (l1 & E1).
      eapply seq_hd; [exact E1|].
      destruct (@opt_group_chr_first "is_decoder" "D" dflag
                  (Re.MState (0 + length lead) t0 []) t1 eq_refl P1) as (l2 & E2).
      eapply seq_hd; [exact E2|].
      destruct (@opt_chr_first "." dotflag
                  (Re.MState (0 + length lead + length (flag_text dflag "D")) t1
                     ((if dflag then [("is_decoder"%string, ["D"%char])] else []) ++ []))
                  t2 eq_refl P2) as (l3 & E3).
      eapply seq_hd; [exact E3|].
      match type of E3 with _ = ?st :: _ =>
        destruct (@opt_group_chr_first "is_encoder" "E" eflag st t3 eq_refl P3)
          as (l4 & E4)
      end.
      eapply seq_hd; [exact E4|].
      match type of E4 with _ = ?st :: _ =>
        destruct (@plus_first is_space st (w :: ws1') _ ltac:(discriminate)
                    eq_refl Hws1 P4) as (l5 & E5)
      end.
      eapply seq_hd; [exact E5|].
      match type of E5 with _ = ?st :: _ =>
        destruct (@group_plus_first "extension" non_space st (k :: token') _
                    ltac:(discriminate) eq_refl Htok P5) as (l6 & E6)
      end.
      eapply seq_hd; [exact E6|].
      match type of E6 with _ = ?st :: _ =>
        destruct (@plus_first is_space st (v :: ws2') _ ltac:(discriminate)
                    eq_refl Hws2 P6) as (l7 & E7)
      end.
      eapply seq_hd; [exact E7|].
      apply description_first; assumption.
    - cbn [Re.groups Re.pos Re.rest]. rewrite app_nil_r. reflexivity. }
  destruct H as (b & Hb & Hg).
  rewrite (first_match_groups _ Hb), Hg.
  destruct dflag, eflag; reflexivity.
Qed.

Lemma lstrip_head s c t : lstrip s = c :: t -> is_space c = false.
Proof.
  induction s as [|x s IH]; cbn; [discriminate|].
  destruct (is_space x) eqn:E; [exact IH|]. now intros [= <- _].
Qed.

Lemma lstrip_suffix s : exists ws, s = ws ++ lstrip s.
Proof.
  induction s as [|x s (ws & IH)]; cbn; [now exists []|].
  destruct (is_space x); [|now exists []].
  exists (x :: ws). cbn. now rewrite <- IH.
Qed.

Lemma lstrip_id c t : is_space c = false -> lstrip (c :: t) = c :: t.
Proof. intros H. cbn. now rewrite H. Qed.

(** A string that [strip] leaves alone neither starts nor ends with a
    blank. *)
Lemma stripped_ends desc :
  strip desc = desc ->
  (forall c t, desc = c :: t -> non_space c = true) /\
  (forall u c, desc = u ++ [c] -> non_space c = true).
Proof.
  unfold strip, rstrip. intros H. split.
  - intros c t E.
    destruct (lstrip_suffix (rev (lstrip desc))) as (ws & Hws).
    apply (f_equal (@rev ascii)) in Hws.
    rewrite rev_involutive, rev_app_distr, H in Hws.
    rewrite E in Hws.
    change ((c :: t) ++ rev ws) with (c :: (t ++ rev ws)) in Hws.
    apply negb_true_iff. eapply lstrip_head. exact Hws.
  - intros u c E. apply (f_equal (@rev ascii)) in H.
    rewrite rev_involutive in H. rewrite E in H at 2.
    rewrite rev_app_distr in H.
    change (rev [c] ++ rev u) with (c :: rev u) in H.
    apply negb_true_iff. eapply lstrip_head. exact H.
Qed.

(** X1: a well-formed capability line is parsed as written.  For a line
    made of blanks, a flag region that is not empty (an optional [D], an
    optional dot, an optional [E]), blanks, an extension token, blanks, a
    description without leading or trailing blanks, and trailing blanks,
    the parser emits one descriptor per comma-separated piece of the token,
    each with that description, a decoder exactly when the [D] is there and
    an encoder exactly when the [E] is there. *)
Theorem X1_well_formed_line_is_parsed
    (lead : str) (dflag dotflag eflag : bool)
    (ws1 token ws2 desc trail : str) :
  forallb is_space lead = true ->
  dflag || dotflag || eflag = true ->
  ws1 <> [] -> forallb is_space ws1 = true ->
  token <> [] -> forallb non_space token = true ->
  ws2 <> [] -> forallb is_space ws2 = true ->
  forallb dot desc = true -> strip desc = desc ->
  forallb is_space trail = true -> (desc = [] -> trail = []) ->
  line_formats
    (lead ++ flag_text dflag "D" ++ flag_text dotflag "." ++
     flag_text eflag "E" ++ ws1 ++ token ++ ws2 ++ desc ++ trail) =
  map (fun ext => mkFFmpegFormat dflag eflag ext desc) (split "," token).
Proof.
  intros Hlead Hflag Hws1n Hws1 Htokn Htok Hws2n Hws2 Hdot Hstrip Htrail Hempty.
  destruct (stripped_ends Hstrip) as [Hfirst Hlast].
  unfold line_formats.
  rewrite (@well_formed_line_matches lead dflag dotflag eflag ws1 token ws2
             desc trail) by assumption.
  cbn [the g_extension]. apply map_ext. intros ext.
  unfold make_format. cbn [g_is_decoder g_is_encoder g_description the].
  rewrite Hstrip. unfold lit. cbn [list_ascii_of_string].
  now rewrite !opt_is_flag.
Qed.

End ParserComplete.

(** The line [ DE mp3,mp2    MP3 (MPEG audio layer 3)] yields the
    descriptors of mp3 and mp2. *)
Lemma X1_witness :
  line_formats (lit " DE mp3,mp2    MP3 (MPEG audio layer 3)") =
  [ mkFFmpegFormat true true (lit "mp3") (lit "MP3 (MPEG audio layer 3)");
    mkFFmpegFormat true true (lit "mp2") (lit "MP3 (MPEG audio layer 3)") ].
Proof.
  apply (@X1_well_formed_line_is_parsed (lit " ") true false true (lit " ")
           (lit "mp3,mp2") (lit "    ") (lit "MP3 (MPEG audio layer 3)") []);
    try reflexivity; discriminate.
Defined.

(** ** What the parser emits *)

Section ParserOutput.

Lemma split_pieces c s : forall w,
  In w (split c s) -> ~ In c w /\ (forall x, In x w -> In x s).
Proof.
  induction s as [|x t IH]; intros w Hw; cbn in Hw.
  - destruct Hw as [<-|[]]. split; [intros [] | intros ? []].
  - destruct (chr_eqb x c) eqn:Ex.
    + destruct Hw as [<-|Hw]; [split; [intros [] | intros ? []]|].
      destruct (IH w Hw) as [Hc Hsub]. split; [exact Hc|].
      intros y Hy. right. now apply Hsub.
    + destruct (split c t) as [|w0 ws] eqn:Es.
      { now destruct (split_nonempty c t). }
      destruct Hw as [<-|Hw].
      * destruct (IH w0 (or_introl eq_refl)) as [Hc Hsub]. split.
        -- intros [->|Hin]; [|now apply Hc].
           now rewrite chr_eqb_refl in Ex.
        -- intros y [->|Hy]; [now left | right; now apply Hsub].
      * destruct (IH w (or_intror Hw)) as [Hc Hsub]. split; [exact Hc|].
        intros y Hy. right. now apply Hsub.
Qed.

Lemma lstrip_sub s x : In x (lstrip s) -> In x s.
Proof.
  destruct (lstrip_suffix s) as (ws & E). intros H. rewrite E.
  apply in_or_app. now right.
Qed.

Lemma strip_sub s x : In x (strip s) -> In x s.
Proof.
  unfold strip, rstrip. intros H. apply in_rev, lstrip_sub, in_rev in H.
  now apply lstrip_sub.
Qed.

Lemma lstrip_stable s : (forall c t, s = c :: t -> is_space c = false) ->
  lstrip s = s.
Proof.
  destruct s as [|c t]; [reflexivity|]. intros H. apply lstrip_id.
  now apply (H c t).
Qed.

Lemma lstrip_lstrip s : lstrip (lstrip s) = lstrip s.
Proof. apply lstrip_stable. intros c t. apply lstrip_head. Qed.

(** [strip] is idempotent: what it returns has no blank at either end. *)
Lemma strip_strip s : strip (strip s) = strip s.
Proof.
  unfold strip, rstrip.
  set (z := lstrip s).
  assert (Hy : lstrip (rev (lstrip (rev z))) = rev (lstrip (rev z))).
  { apply lstrip_stable. intros c t E.
    destruct (lstrip_suffix (rev z)) as (ws & Hws).
    apply (f_equal (@rev ascii)) in Hws.
    rewrite rev_involutive, rev_app_distr, E in Hws.
    apply (@lstrip_head s c (t ++ rev ws)). exact Hws. }
  rewrite Hy, rev_involutive, lstrip_lstrip. reflexivity.
Qed.

Lemma line_has_no_newline output line :
  In line (split newline output) -> ~ In newline line.
Proof. intros H. now destruct (split_pieces _ _ _ H). Qed.

(** X2: a line that is blank, or that has no blank character at all,
    contributes no descriptor: the pattern needs a token with blanks on
    both sides. *)
Theorem X2_lines_without_a_delimited_token_are_ignored (line : str) :
  forallb is_space line = true \/ forallb non_space line = true ->
  line_formats line = [].
Proof.
  intros Hline. unfold line_formats.
  destruct (pattern_match line) as [d|] eqn:Hm; [exfalso | reflexivity].
  destruct (pattern_match_shape _ Hm)
    as (lead & dflag & dotflag & eflag & ws1 & token & ws2 & desc & trail
        & Hshape & _ & Hws1n & Hws1 & Htokn & Htok & _).
  rewrite Hshape, !forallb_app in Hline.
  destruct Hline as [H|H]; repeat (apply andb_true_iff in H as [? H]).
  - destruct token as [|k token]; [congruence|].
    cbn in *. apply andb_true_iff in Htok as [Hk _].
    unfold non_space in Hk.
    match goal with Hs : is_space k && _ = true |- _ =>
      apply andb_true_iff in Hs as [Hs _]; rewrite Hs in Hk end.
    discriminate.
  - destruct ws1 as [|w ws1]; [congruence|].
    cbn in *. apply andb_true_iff in Hws1 as [Hw _].
    match goal with Hs : non_space w && _ = true |- _ =>
      apply andb_true_iff in Hs as [Hs _]; unfold non_space in Hs;
      rewrite Hw in Hs end.
    discriminate.
Qed.

(** An empty line and the line [--] yield nothing. *)
Lemma X2_witness :
  line_formats [] = [] /\ line_formats (lit "--") = [].
Proof.
  split; apply X2_lines_without_a_delimited_token_are_ignored;
    [left | right]; reflexivity.
Defined.

(** X3: every descriptor of the catalog has an extension without blanks
    and without commas, and a description without leading or trailing
    blanks and without newlines. *)
Theorem X3_descriptors_are_clean (output : str) (f : FFmpegFormat) :
  In f (SUPPORTED_FORMATS output) ->
  (forall c, In c (extension f) -> is_space c = false) /\
  ~ In ","%char (extension f) /\
  strip (description f) = description f /\
  ~ In newline (description f).
Proof.
  intros Hf.
  apply (Permutation_in _ (SUPPORTED_FORMATS_perm output)) in Hf.
  rewrite get_ffmpeg_supported_formats_lines in Hf.
  apply in_flat_map in Hf as (line & Hline & Hf).
  unfold line_formats in Hf.
  destruct (pattern_match line) as [d|] eqn:Hm; [|destruct Hf].
  apply in_map_iff in Hf as (ext & <- & Hext).
  destruct (pattern_match_shape _ Hm)
    as (lead & dflag & dotflag & eflag & ws1 & token & ws2 & desc & trail
        & Hshape & _ & _ & _ & _ & Htok & _ & _ & _ & _ & _ & Hx & Hy).
  rewrite Hx in Hext. cbn [the] in Hext.
  destruct (split_pieces _ _ _ Hext) as [Hcomma Hsub].
  cbn [make_format extension description]. rewrite Hy. cbn [the].
  split; [|split; [exact Hcomma | split; [apply strip_strip|]]].
  - intros c Hc. apply Hsub in Hc.
    rewrite forallb_forall in Htok. apply Htok in Hc.
    now apply negb_true_iff in Hc.
  - intros Hnl. apply strip_sub in Hnl.
    apply (line_has_no_newline _ _ Hline). rewrite Hshape.
    rewrite !in_app_iff. tauto.
Qed.

(** The descriptors of the two-line listing are clean. *)
Lemma X3_witness :
  let f := mkFFmpegFormat true true (lit "mp2") (lit "MPEG audio layer") in
  (forall c, In c (extension f) -> is_space c = false) /\
  ~ In ","%char (extension f) /\
  strip (description f) = description f /\
  ~ In newline (description f).
Proof.
  intros f. apply (@X3_descriptors_are_clean two_lines f).
  vm_compute. auto.
Defined.

End ParserOutput.

(** ** The by-extension dictionary *)

Section DictFacts.

Lemma dict_get_set {V} k k' (v : V) d :
  dict_get k (dict_set k' v d) =
  if PyStr.eqb k' k then Some v else dict_get k d.
Proof.
  induction d as [|[k0 v0] d IH]; cbn; [reflexivity|].
  destruct (PyStr.eqb k0 k') eqn:E0; cbn.
  - apply str_eqb_eq in E0. subst k0.
    destruct (PyStr.eqb k' k); reflexivity.
  - rewrite IH. destruct (PyStr.eqb k0 k) eqn:E1; [|reflexivity].
    apply str_eqb_eq in E1. subst k0.
    destruct (PyStr.eqb k' k) eqn:E2; [|reflexivity].
    apply str_eqb_eq in E2. subst k'. now rewrite str_eqb_refl in E0.
Qed.

Lemma keys_dict_set {V} k (v : V) d :
  map fst (dict_set k v d) =
  if dict_contains k d then map fst d else map fst d ++ [k].
Proof.
  induction d as [|[k0 v0] d IH]; cbn; [reflexivity|].
  destruct (PyStr.eqb k0 k) eqn:E0; cbn.
  - apply str_eqb_eq in E0. now subst k0.
  - rewrite IH. unfold dict_contains. now destruct (existsb _ d).
Qed.

Lemma dict_contains_In {V} k (d : dict V) :
  dict_contains k d = true <-> In k (map fst d).
Proof.
  unfold dict_contains. rewrite existsb_exists, in_map_iff. split.
  - intros (kv & Hin & E). apply str_eqb_eq in E. eauto.
  - intros (kv & E & Hin). exists kv. split; [exact Hin|]. now apply str_eqb_eq.
Qed.

Lemma In_dict_set {V} k (v : V) d kv :
  In kv (dict_set k v d) -> kv = (k, v) \/ In kv d.
Proof.
  induction d as [|[k0 v0] d IH]; cbn.
  - intros [<-|[]]. now left.
  - destruct (PyStr.eqb k0 k); cbn; intros [<-|H]; auto.
    destruct (IH H); auto.
Qed.

Lemma last_filter_cons {A} (keep : A -> bool) x l :
  hd_error (rev (filter keep (x :: l))) =
  match hd_error (rev (filter keep l)) with
  | Some y => Some y
  | None => if keep x then Some x else None
  end.
Proof.
  cbn [filter]. destruct (keep x); [|now destruct (hd_error _)].
  cbn [rev]. now destruct (rev (filter keep l)).
Qed.

Lemma dict_get_fold k formats : forall d,
  dict_get k (fold_left (fun d fmt => dict_set (extension fmt) fmt d) formats d) =
  match hd_error (rev (filter (has_extension k) formats)) with
  | Some f => Some f
  | None => dict_get k d
  end.
Proof.
  induction formats as [|f formats IH]; intros d; [reflexivity|].
  cbn [fold_left]. rewrite IH, last_filter_cons, dict_get_set.
  destruct (hd_error _); [reflexivity|].
  unfold has_extension. now destruct (PyStr.eqb (extension f) k).
Qed.

(** X4: looking an extension up in [SUPPORTED_FORMATS_BY_EXTENSION] gives
    the descriptor that the parser emitted last for it (the dictionary
    comprehension overwrites, and the sort keeps the parser's order among
    equal extensions), and nothing when the parser emitted none. *)
Theorem X4_lookup_gives_last_emitted (output k : str) :
  dict_get k (SUPPORTED_FORMATS_BY_EXTENSION output) =
  hd_error (rev (filter (has_extension k) (get_ffmpeg_supported_formats output))).
Proof.
  unfold SUPPORTED_FORMATS_BY_EXTENSION, by_extension, SUPPORTED_FORMATS.
  rewrite dict_get_fold.
  change (filter (has_extension k) (sorted extension ?l))
    with (filter (fun a => PyStr.eqb (extension a) k) (sorted extension l)).
  rewrite (sorted_stable extension). fold (has_extension k).
  now destruct (hd_error _).
Qed.

Lemma by_extension_invariant formats : forall d,
  NoDup (map fst d) ->
  (forall k v, In (k, v) d -> extension v = k) ->
  let d' := fold_left (fun d fmt => dict_set (extension fmt) fmt d) formats d in
  NoDup (map fst d') /\
  (forall k v, In (k, v) d' -> extension v = k /\ (In (k, v) d \/ In v formats)).
Proof.
  induction formats as [|f formats IH]; intros d Hnd Hkv; cbn [fold_left].
  - split; [exact Hnd|]. intros k v H. split; [now apply Hkv | now left].
  - destruct (IH (dict_set (extension f) f d)) as [Hnd' Hkv'].
    + rewrite keys_dict_set.
      destruct (dict_contains (extension f) d) eqn:E; [exact Hnd|].
      apply NoDup_app; [exact Hnd | repeat constructor; intros [] |].
      intros k Hk [<-|[]]. apply dict_contains_In in Hk. congruence.
    + intros k v H. apply In_dict_set in H as [[= -> ->]|H]; [reflexivity|].
      now apply Hkv.
    + split; [exact Hnd'|]. intros k v H.
      destruct (Hkv' k v H) as [He [Hin|Hin]]; split; auto.
      * apply In_dict_set in Hin as [[= -> ->]|Hin]; [right; now left | now left].
      * right. now right.
Qed.

(** X5: [SUPPORTED_FORMATS_BY_EXTENSION] has one entry per extension of
    the catalog: no key occurs twice, the descriptor stored under a key is a
    descriptor of the catalog with that extension, and every extension of
    the catalog is a key. *)
Theorem X5_one_entry_per_extension (output : str) :
  NoDup (map fst (SUPPORTED_FORMATS_BY_EXTENSION output)) /\
  (forall k v, In (k, v) (SUPPORTED_FORMATS_BY_EXTENSION output) ->
     extension v = k /\ In v (SUPPORTED_FORMATS output)) /\
  (forall f, In f (SUPPORTED_FORMATS output) ->
     In (extension f) (map fst (SUPPORTED_FORMATS_BY_EXTENSION output))).
Proof.
  destruct (@by_extension_invariant (SUPPORTED_FORMATS output) [])
    as [Hnd Hkv]; [constructor | intros ? ? [] |].
  split; [exact Hnd|]. split.
  - intros k v H. destruct (Hkv k v H) as [He [[]|Hin]]. auto.
  - intros f Hf. apply dict_contains_In.
    unfold SUPPORTED_FORMATS_BY_EXTENSION. rewrite by_extension_contains.
    apply existsb_exists. exists f. split; [exact Hf|].
    unfold has_extension. apply str_eqb_refl.
Qed.

End DictFacts.

(** ** The derived views of the catalog *)

Section ViewFacts.

Lemma StronglySorted_filter {A} (R : A -> A -> Prop) (keep : A -> bool) l :
  StronglySorted R l -> StronglySorted R (filter keep l).
Proof.
  induction 1 as [|x l Hs IH Hall]; cbn; [constructor|].
  destruct (keep x); [|exact IH].
  constructor; [exact IH|].
  rewrite Forall_forall in *. intros y Hy. apply filter_In in Hy as [Hy _].
  now apply Hall.
Qed.

Lemma str_in_In x s : str_in x s = true <-> In x s.
Proof.
  unfold str_in. rewrite existsb_exists. split.
  - intros (y & Hy & E). apply str_eqb_eq in E. now subst.
  - intros H. exists x. split; [exact H | apply str_eqb_refl].
Qed.

Lemma filter_filter_same {A} (keep : A -> bool) l :
  filter keep (filter keep l) = filter keep l.
Proof.
  induction l as [|x l IH]; cbn; [reflexivity|].
  destruct (keep x) eqn:E; cbn; rewrite ?E, IH; reflexivity.
Qed.

Lemma filter_comm {A} (f g : A -> bool) l :
  filter f (filter g l) = filter g (filter f l).
Proof.
  induction l as [|x l IH]; cbn; [reflexivity|].
  destruct (f x) eqn:Ef, (g x) eqn:Eg; cbn; rewrite ?Ef, ?Eg, IH; reflexivity.
Qed.

Lemma common_view_In (flag : FFmpegFormat -> bool) l f :
  In f (filter_extensions (filter flag l) None) <->
  In f l /\ flag f = true /\ In (extension f) DEFAULT_EXTS.
Proof.
  unfold filter_extensions. cbn [exts_or_default].
  rewrite !filter_In, str_in_In. tauto.
Qed.

Lemma common_view_sorted (flag : FFmpegFormat -> bool) output :
  StronglySorted ext_le
    (filter_extensions (filter flag (SUPPORTED_FORMATS output)) None).
Proof.
  unfold filter_extensions. repeat apply StronglySorted_filter.
  apply (sorted_StronglySorted extension).
Qed.

(** X6: the "common" views are what is left of the sorted catalog after
    the flag filter and the allow-list filter: a descriptor is a common
    decoder (encoder) exactly when it is in the catalog, is a decoder
    (encoder) and has an extension of the default set; and both views are
    still sorted by extension. *)
Theorem X6_common_views (output : str) :
  (forall f,
     In f (COMMON_SUPPORTED_DECODE_FORMATS output) <->
     In f (SUPPORTED_FORMATS output) /\ is_decoder f = true /\
     In (extension f) DEFAULT_EXTS) /\
  (forall f,
     In f (COMMON_SUPPORTED_ENCODE_FORMATS output) <->
     In f (SUPPORTED_FORMATS output) /\ is_encoder f = true /\
     In (extension f) DEFAULT_EXTS) /\
  StronglySorted ext_le (COMMON_SUPPORTED_DECODE_FORMATS output) /\
  StronglySorted ext_le (COMMON_SUPPORTED_ENCODE_FORMATS output).
Proof.
  split; [intros f; apply common_view_In|].
  split; [intros f; apply common_view_In|].
  split; apply common_view_sorted.
Qed.

(** X7: [filter_extensions] keeps only formats whose extension is in the
    set in force, which is the default set when the caller passes [None]
    and also when the caller passes an empty set; filtering twice changes
    nothing, and the allow-list filter commutes with the decoder and
    encoder filters. *)
Theorem X7_filter_extensions (formats : list FFmpegFormat)
    (exts : option (list str)) :
  (forall f, In f (filter_extensions formats exts) ->
     In f formats /\ In (extension f) (exts_or_default exts)) /\
  filter_extensions formats (Some []) = filter_extensions formats None /\
  filter_extensions (filter_extensions formats exts) exts =
    filter_extensions formats exts /\
  filter is_decoder (filter_extensions formats exts) =
    filter_extensions (filter is_decoder formats) exts /\
  filter is_encoder (filter_extensions formats exts) =
    filter_extensions (filter is_encoder formats) exts.
Proof.
  unfold filter_extensions. split; [|split; [reflexivity|split; [|split]]].
  - intros f H. apply filter_In in H as [H Hx]. now apply str_in_In in Hx.
  - apply filter_filter_same.
  - apply filter_comm.
  - apply filter_comm.
Qed.

(** Asked for an empty set of extensions, [filter_extensions] keeps the
    mp3 descriptor: the default set is in force. *)
Lemma X7_witness :
  let f := mkFFmpegFormat true true (lit "mp3") (lit "MPEG audio layer") in
  In f [f] /\ In (extension f) DEFAULT_EXTS.
Proof.
  intros f.
  destruct (X7_filter_extensions [f] (Some [])) as (H & _).
  apply (H f). vm_compute. auto.
Defined.

End ViewFacts.

(** ** [print_ffmpeg_info] and the [info] command *)

Section InfoFacts.

Variable ffmpeg_version : list Invocation -> list Path -> ProcResult.
Variable formats_output : str.

Local Abbreviation print_ffmpeg_info :=
  (print_ffmpeg_info ffmpeg_version formats_output).

Lemma echo_formats_app formats common width fg : forall printed,
  echo_formats formats common width fg printed =
  printed ++
  map (fun fmt => Style (pad (extension fmt) width ++ description fmt)
                    (Some (format_in fmt common)) fg) formats.
Proof.
  induction formats as [|f formats IH]; intros printed; cbn.
  - now rewrite app_nil_r.
  - rewrite IH, <- app_assoc. reflexivity.
Qed.

Lemma format_eqb_eq a b : format_eqb a b = true <-> a = b.
Proof.
  destruct a as [ad ae ax ay], b as [bd be bx by']. unfold format_eqb. cbn.
  rewrite !andb_true_iff, !str_eqb_eq, !Bool.eqb_true_iff.
  split; [intros [[[-> ->] ->] ->]; reflexivity | intros [= -> -> -> ->]; auto].
Qed.

(** Among the formats of a list, the ones that [in] finds in its filtered
    copy are the ones that pass the filter. *)
Lemma format_in_filter (keep : FFmpegFormat -> bool) l f :
  In f l -> format_in f (filter keep l) = keep f.
Proof.
  intros Hf. unfold format_in. destruct (keep f) eqn:E.
  - apply existsb_exists. exists f. split; [now apply filter_In|].
    now apply format_eqb_eq.
  - destruct (existsb _ _) eqn:Ex; [|reflexivity].
    apply existsb_exists in Ex as (g & Hg & Eg).
    apply format_eqb_eq in Eg. subst g.
    apply filter_In in Hg as [_ Hg]. congruence.
Qed.

Lemma py_max_list_max l :
  l <> [] -> py_max l = Ok (list_max l).
Proof.
  destruct l as [|x t]; [congruence|]. intros _. cbn. f_equal.
  revert x. induction t as [|y t IH]; intros x; cbn; [lia|].
  rewrite IH. cbn. lia.
Qed.

Lemma bold_lines (width : nat) fg l common :
  (forall f, In f l ->
     format_in f common = str_in (extension f) DEFAULT_EXTS) ->
  map (fun fmt => Style (pad (extension fmt) width ++ description fmt)
                    (Some (format_in fmt common)) fg) l =
  map (info_line width fg) l.
Proof.
  intros H. apply map_ext_in. intros f Hf. unfold info_line. now rewrite H.
Qed.

Lemma common_bold (flag : FFmpegFormat -> bool) (show_all : bool) f :
  In f (if show_all then filter flag (SUPPORTED_FORMATS formats_output)
        else filter_extensions (filter flag (SUPPORTED_FORMATS formats_output))
               None) ->
  format_in f (filter_extensions (filter flag (SUPPORTED_FORMATS formats_output))
                 None) =
  str_in (extension f) DEFAULT_EXTS.
Proof.
  intros Hf. unfold filter_extensions. cbn [exts_or_default].
  apply (format_in_filter (fun fmt => str_in (extension fmt) DEFAULT_EXTS)).
  destruct show_all; [exact Hf|].
  unfold filter_extensions in Hf. now apply filter_In in Hf.
Qed.

(** X8: how [print_ffmpeg_info] ends when the installation check does
    not pass.  When [ffmpeg] cannot be started it prints "ffmpeg is NOT
    installed" and raises [SystemExit(1)]; when [ffmpeg -version] exits
    with a nonzero status, [CalledProcessError] escapes and nothing is
    printed.  In every case the only subprocess call is the check, and no
    file changes. *)
Theorem X8_info_without_ffmpeg
    (print_decoders print_encoders show_all : bool) (w : World) :
  let probe := ffmpeg_version (trace w) (files w) in
  let out := print_ffmpeg_info print_decoders print_encoders show_all w in
  snd (fst out) = probed probe w /\
  (probe = NotFound ->
     fst (fst out) = SystemExit 1 /\
     snd out = [Style (lit "ffmpeg is NOT installed") None RED]) /\
  (forall c, probe = Exited c -> c <> 0%Z ->
     fst (fst out) = Uncaught (CalledProcessError c) /\ snd out = []).
Proof.
  cbv zeta. unfold Views.print_ffmpeg_info, check_ffmpeg_installation, probed.
  destruct (ffmpeg_version (trace w) (files w)) as [[|c|c]|]; cbn.
  - destruct (py_max _); cbn;
      (split; [reflexivity|]; split; [discriminate|];
       intros c' [= <-] Hc; congruence).
  - split; [reflexivity|]. split; [discriminate|].
    intros c' [= <-] _. auto.
  - split; [reflexivity|]. split; [discriminate|].
    intros c' [= <-] _. auto.
  - split; [reflexivity|]. split; [auto | discriminate].
Qed.

(** X9: with [ffmpeg] installed, [print_ffmpeg_info] returns exactly when
    the catalog is not empty; with an empty catalog (no line of the listing
    matched) it prints "ffmpeg is installed" and then [ValueError] escapes
    from [max] of an empty sequence. *)
Theorem X9_info_needs_a_format
    (print_decoders print_encoders show_all : bool) (w : World) :
  ffmpeg_version (trace w) (files w) = Exited 0 ->
  let out := print_ffmpeg_info print_decoders print_encoders show_all w in
  (SUPPORTED_FORMATS formats_output = [] ->
     fst (fst out) = Uncaught ValueError /\
     snd out = [Style (lit "ffmpeg is installed") None GREEN]) /\
  (fst (fst out) = Returned <-> SUPPORTED_FORMATS formats_output <> []).
Proof.
  intros Hprobe. cbv zeta.
  unfold Views.print_ffmpeg_info, check_ffmpeg_installation. rewrite Hprobe.
  destruct (SUPPORTED_FORMATS formats_output) as [|f l] eqn:E; cbn.
  - split; [auto|]. split; [discriminate | congruence].
  - split; [discriminate|]. split; [discriminate | reflexivity].
Qed.

(** X10: what [print_ffmpeg_info] prints when it returns: the
    "installed" line, then, for each part asked for, its heading and one
    line per format, in catalog order: the common formats, or all decoders
    (encoders) with [show_all].  A line is the extension, padded to the
    width of the longest extension of the whole catalog plus 3, followed by
    the description; it is bold exactly when the extension is in the
    default set. *)
Theorem X10_info_listing
    (print_decoders print_encoders show_all : bool) (w : World) :
  ffmpeg_version (trace w) (files w) = Exited 0 ->
  SUPPORTED_FORMATS formats_output <> [] ->
  print_ffmpeg_info print_decoders print_encoders show_all w =
  (Returned, probed (Exited 0) w,
   Style (lit "ffmpeg is installed") None GREEN ::
   info_section print_decoders "Decoders:" (info_width formats_output) YELLOW
     (if show_all then SUPPORTED_DECODE_FORMATS formats_output
      else COMMON_SUPPORTED_DECODE_FORMATS formats_output) ++
   info_section print_encoders "Encoders:" (info_width formats_output) BLUE
     (if show_all then SUPPORTED_ENCODE_FORMATS formats_output
      else COMMON_SUPPORTED_ENCODE_FORMATS formats_output)).
Proof.
  intros Hprobe Hne.
  unfold Views.print_ffmpeg_info, check_ffmpeg_installation. rewrite Hprobe.
  rewrite py_max_list_max
    by (destruct (SUPPORTED_FORMATS formats_output); [congruence | discriminate]).
  cbv zeta. fold (info_width formats_output).
  unfold probed, info_section. f_equal.
  pose proof (@bold_lines (info_width formats_output) YELLOW
                (if show_all then SUPPORTED_DECODE_FORMATS formats_output
                 else COMMON_SUPPORTED_DECODE_FORMATS formats_output)
                (COMMON_SUPPORTED_DECODE_FORMATS formats_output)
                (common_bold is_decoder show_all)) as Hd.
  pose proof (@bold_lines (info_width formats_output) BLUE
                (if show_all then SUPPORTED_ENCODE_FORMATS formats_output
                 else COMMON_SUPPORTED_ENCODE_FORMATS formats_output)
                (COMMON_SUPPORTED_ENCODE_FORMATS formats_output)
                (common_bold is_encoder show_all)) as He.
  destruct print_decoders, print_encoders; rewrite ?echo_formats_app;
    cbn [app]; rewrite <- ?app_assoc; cbn [app];
    rewrite ?app_nil_r, ?Hd, ?He; reflexivity.
Qed.

(** X11: the descriptions of a listing are aligned: for every format of
    the catalog, the padded extension is the extension followed by at
    least 3 blanks and is as wide as the column. *)
Theorem X11_info_columns (f : FFmpegFormat) :
  In f (SUPPORTED_FORMATS formats_output) ->
  exists blanks,
    pad (extension f) (info_width formats_output) =
      extension f ++ repeat " "%char blanks /\
    3 <= blanks /\
    length (pad (extension f) (info_width formats_output)) =
      info_width formats_output.
Proof.
  intros Hf. unfold pad, info_width.
  set (m := list_max _).
  assert (Hle : length (extension f) <= m).
  { pose proof (proj1 (list_max_le
                         (map (fun fmt => length (extension fmt))
                              (SUPPORTED_FORMATS formats_output)) m)
                  (Nat.le_refl _)) as Hall.
    rewrite Forall_forall in Hall. apply Hall.
    apply in_map_iff. now exists f. }
  exists (m + 3 - length (extension f)).
  split; [reflexivity|]. split; [lia|].
  rewrite length_app, repeat_length. lia.
Qed.

End InfoFacts.

(** ** More on the batch *)

Section MoreBatchFacts.

Variable glob_selector : str -> Res (Path -> bool).
Variable ffmpeg_convert :
  list Invocation -> list Path -> Path -> Path -> ProcResult * list Path.

Local Abbreviation convert_file := (convert_file ffmpeg_convert).
Local Abbreviation for_paths := (for_paths ffmpeg_convert).
Local Abbreviation for_formats := (for_formats ffmpeg_convert).
Local Abbreviation convert_files := (convert_files glob_selector ffmpeg_convert).

Lemma convert_file_same p fmt va vb force wa wb :
  files wa = files wb -> trace wa = trace wb ->
  same_but_printed (convert_file p fmt va force wa)
                   (convert_file p fmt vb force wb).
Proof.
  intros Hf Ht. unfold same_but_printed.
  destruct (destination (p, fmt)) as [q|e] eqn:Hd.
  - assert (Hex : file_exists q wa = file_exists q wb)
      by (unfold file_exists; now rewrite Hf).
    destruct (file_exists q wa && negb force) eqn:E.
    + apply andb_true_iff in E as [Ea Eforce].
      apply negb_true_iff in Eforce. subst force.
      rewrite (convert_file_skip ffmpeg_convert _ _ va wa Hd Ea).
      rewrite Hex in Ea.
      rewrite (convert_file_skip ffmpeg_convert _ _ vb wb Hd Ea). cbn. auto.
    + rewrite (convert_file_run ffmpeg_convert _ _ va force wa Hd E).
      rewrite Hex in E.
      rewrite (convert_file_run ffmpeg_convert _ _ vb force wb Hd E).
      cbv zeta. cbn [fst snd files trace]. rewrite Hf, Ht. auto.
  - rewrite !(convert_file_invalid ffmpeg_convert _ _ _ _ _ Hd). cbn. auto.
Qed.

Lemma for_paths_same fmt va vb force : forall paths c wa wb,
  files wa = files wb -> trace wa = trace wb ->
  same_but_printed (for_paths paths fmt va force c wa)
                   (for_paths paths fmt vb force c wb).
Proof.
  induction paths as [|p paths IH]; intros c wa wb Hf Ht.
  - cbn. unfold same_but_printed. cbn. auto.
  - cbn [Cli.for_paths].
    destruct (PyStr.eqb (suffix p) (lit ".wav")); [|now apply IH].
    unfold bind.
    destruct (convert_file_same p fmt va vb force wa wb Hf Ht)
      as (Hr & Hf' & Ht').
    destruct (convert_file p fmt va force wa) as [[ba|ea] wa'],
             (convert_file p fmt vb force wb) as [[bb|eb] wb'];
      cbn in Hr, Hf', Ht'; try discriminate Hr.
    + injection Hr as <-. now apply IH.
    + injection Hr as <-. unfold same_but_printed. cbn. auto.
Qed.

Lemma for_formats_same paths va vb force : forall fmts c wa wb,
  files wa = files wb -> trace wa = trace wb ->
  same_but_printed (for_formats fmts paths va force c wa)
                   (for_formats fmts paths vb force c wb).
Proof.
  induction fmts as [|fmt fmts IH]; intros c wa wb Hf Ht.
  - cbn. unfold same_but_printed. cbn. auto.
  - cbn [Cli.for_formats]. unfold bind.
    destruct (for_paths_same fmt va vb force paths c wa wb Hf Ht)
      as (Hr & Hf' & Ht').
    destruct (for_paths paths fmt va force c wa) as [[ca|ea] wa'],
             (for_paths paths fmt vb force c wb) as [[cb|eb] wb'];
      cbn in Hr, Hf', Ht'; try discriminate Hr.
    + injection Hr as <-. rewrite !log_world. now apply IH.
    + injection Hr as <-. unfold same_but_printed. cbn. auto.
Qed.

Lemma quiet_loop paths force w : forall fmts c,
  echoed (snd (for_formats fmts paths false force c w)) = echoed w.
Proof.
  intros fmts c.
  pose proof (@for_formats_rule ffmpeg_convert false force (tasks fmts paths)
                (fun _ w1 _ => echoed w1 = echoed w)
                (fun _ _ _ w1 => echoed w1 = echoed w)) as H.
  unfold loop_post in H.
  assert (Hstep : forall (done : list (Path * str)) p fmt w1 (c1 : Z),
             echoed w1 = echoed w -> In (p, fmt) (tasks fmts paths) ->
             match convert_file p fmt false force w1 with
             | (Ok _, w2) => echoed w2 = echoed w
             | (Raise _, w2) => echoed w2 = echoed w
             end).
  { intros done p fmt w1 c1 He _.
    destruct (convert_file_cases ffmpeg_convert p fmt false force w1);
      cbn [echoed]; rewrite ?app_nil_r; exact He. }
  specialize (H Hstep
                (fun done fmt w1 c1 He =>
                   ltac:(rewrite log_world; cbn; now rewrite app_nil_r))
                paths fmts [] w c eq_refl (incl_refl _)).
  destruct (for_formats fmts paths false force c w) as [[c'|e] w']; cbn.
  - exact H.
  - now destruct H as (_ & _ & _ & _ & H).
Qed.

(** X12: logging does not interfere.  A batch run without [-v] ends like
    the same batch run with [-v] (same return or exception), leaves the
    same files and has made the same transcoder calls; and it prints
    nothing. *)
Theorem X12_logging_does_not_interfere
    (glob_pattern : str) (output_formats : list str) (force : bool)
    (w : World) :
  same_but_printed (convert_files glob_pattern output_formats false force w)
                   (convert_files glob_pattern output_formats true force w) /\
  echoed (snd (convert_files glob_pattern output_formats false force w))
    = echoed w.
Proof.
  rewrite !convert_files_unfold.
  destruct (glob_selector glob_pattern) as [selects|e];
    [|unfold same_but_printed; cbn; auto].
  cbv zeta. cbn [app].
  set (paths := filter selects (files w)).
  set (w1 := mkWorld (files w) (trace w) (echoed w ++ [])).
  set (w2 := mkWorld (files w) (trace w) _).
  pose proof (for_formats_same paths false true force output_formats 0%Z
                w1 w2 eq_refl eq_refl) as (Hr & Hf & Ht).
  pose proof (quiet_loop paths force w1 output_formats 0%Z) as Hq.
  destruct (for_formats output_formats paths false force 0%Z w1)
    as [[ca|ea] wa'],
    (for_formats output_formats paths true force 0%Z w2) as [[cb|eb] wb'];
    cbn in Hr, Hf, Ht, Hq; try discriminate Hr; unfold same_but_printed; cbn.
  - rewrite Hq. subst w1. cbn. rewrite !app_nil_r. auto.
  - injection Hr as <-. rewrite Hq. subst w1. cbn. rewrite !app_nil_r. auto.
Qed.

(** *** With [force], every task is run *)

Lemma calls_all_converted : forall calls ts,
  map Some calls = map call_of ts -> filter converted calls = calls.
Proof.
  induction calls as [|i calls IH]; intros [|t ts] H; try discriminate;
    [reflexivity|].
  cbn in H. injection H as Hi H. unfold call_of in Hi.
  destruct (destination t); [|discriminate]. injection Hi as ->.
  cbn. f_equal. now apply (IH ts).
Qed.

Lemma tasks_length fmts paths :
  length (tasks fmts paths) = length fmts * length (candidates paths).
Proof.
  unfold tasks. induction fmts as [|fmt fmts IH]; cbn; [reflexivity|].
  rewrite length_app, length_map, IH. reflexivity.
Qed.

Lemma forced_loop fmts paths verbose w c c' w' :
  for_formats fmts paths verbose true c w = (Ok c', w') ->
  exists calls,
    trace w' = trace w ++ calls /\
    map Some calls = map call_of (tasks fmts paths).
Proof.
  intros Hrun.
  pose proof (@for_formats_rule ffmpeg_convert verbose true (tasks fmts paths)
                (fun done w1 _ => exists calls,
                     trace w1 = trace w ++ calls /\
                     map Some calls = map call_of done)
                (fun _ _ _ _ => True)) as H.
  unfold loop_post in H.
  assert (Hstep : forall done p fmt w1 (c1 : Z),
             (exists calls, trace w1 = trace w ++ calls /\
                            map Some calls = map call_of done) ->
             In (p, fmt) (tasks fmts paths) ->
             match convert_file p fmt verbose true w1 with
             | (Ok _, w2) =>
                 exists calls, trace w2 = trace w ++ calls /\
                               map Some calls = map call_of (done ++ [(p, fmt)])
             | (Raise _, _) => True
             end).
  { intros done p fmt w1 c1 (calls & Ht & Hc) _.
    destruct (convert_file_cases ffmpeg_convert p fmt verbose true w1)
      as [e Hd|q Hd Hex Hforce|q fs' Hd Hex Hrun'|q r fs' Hd Hex Hrun' Hr];
      try exact Logic.I; [discriminate|].
    exists (calls ++ [RunConvert p q (Exited 0)]). cbn [trace].
    rewrite Ht, app_assoc, !map_app, Hc. split; [reflexivity|].
    cbn. unfold call_of. cbn [fst]. now rewrite Hd. }
  assert (Hstart : exists calls, trace w = trace w ++ calls /\
                                 map Some calls = map call_of []).
  { exists []. now rewrite app_nil_r. }
  specialize (H Hstep
                (fun done fmt w1 c1 Hc => ltac:(rewrite log_world; exact Hc))
                paths fmts [] w c Hstart (incl_refl _)).
  now rewrite Hrun in H.
Qed.

(** X13: with [-f], a batch that completes has run the transcoder once
    for every (file, format) pair, in the order of the pairs, from the
    file to its destination, whether or not the destination existed; so the
    number of files converted is the number of target formats times the
    number of wav files matched. *)
Theorem X13_force_runs_every_task
    (glob_pattern : str) (output_formats : list str) (verbose : bool)
    (w w' : World) (selects : Path -> bool) :
  glob_selector glob_pattern = Ok selects ->
  convert_files glob_pattern output_formats verbose true w = (Ok tt, w') ->
  exists calls,
    trace w' = trace w ++ calls /\
    map Some calls =
      map call_of (tasks output_formats (filter selects (files w))) /\
    count_converted calls =
      Z.of_nat (length output_formats *
                length (candidates (filter selects (files w)))).
Proof.
  intros Hglob Hrun. rewrite convert_files_unfold, Hglob in Hrun.
  cbv zeta in Hrun.
  destruct (for_formats output_formats _ verbose true 0%Z _)
    as [[c|e] w2] eqn:Hloop; [|discriminate].
  injection Hrun as <-. cbn [trace].
  destruct (forced_loop _ _ _ _ _ Hloop) as (calls & Ht & Hc).
  exists calls. cbn [trace files] in *. split; [exact Ht|].
  split; [exact Hc|].
  unfold count_converted. rewrite (calls_all_converted _ _ Hc).
  rewrite <- tasks_length, <- (length_map call_of), <- Hc, length_map.
  reflexivity.
Qed.

(** *** Nothing to convert *)

Lemma for_paths_no_wav fmt verbose force : forall paths c w,
  candidates paths = [] ->
  for_paths paths fmt verbose force c w = (Ok c, w).
Proof.
  induction paths as [|p paths IH]; intros c w H; [reflexivity|].
  cbn [Cli.for_paths]. unfold candidates in H. cbn [filter] in H.
  fold (is_wav p). destruct (is_wav p); [discriminate|]. now apply IH.
Qed.

Lemma for_formats_no_wav paths verbose force c : forall fmts w,
  candidates paths = [] ->
  for_formats fmts paths verbose force c w =
  (Ok c, mkWorld (files w) (trace w)
           (echoed w ++
              (if verbose then map (LogConvertedTo c) fmts else []))).
Proof.
  induction fmts as [|fmt fmts IH]; intros w H.
  - cbn. unfold ret. destruct verbose; rewrite app_nil_r; now destruct w.
  - cbn [Cli.for_formats]. unfold bind.
    rewrite for_paths_no_wav, log_world, IH by exact H.
    cbn [files trace echoed]. rewrite <- app_assoc.
    now destruct verbose.
Qed.

(** X14: when the glob matches no wav file, the batch completes without
    any transcoder call and without touching a file, whatever the formats
    and [-f]; with [-v] it prints the scan lines, "Converted 0 files to"
    each format, and "0 files converted" with every match counted as
    skipped. *)
Theorem X14_no_wav_file_no_work
    (glob_pattern : str) (output_formats : list str) (verbose force : bool)
    (w : World) (selects : Path -> bool) :
  glob_selector glob_pattern = Ok selects ->
  candidates (filter selects (files w)) = [] ->
  convert_files glob_pattern output_formats verbose force w =
  (Ok tt,
   mkWorld (files w) (trace w)
     (echoed w ++
        (if verbose
         then [LogScanning glob_pattern;
               LogFound (len (filter selects (files w)))] ++
              map (LogConvertedTo 0) output_formats ++
              [LogSummary 0 (len (filter selects (files w)))]
         else []))).
Proof.
  intros Hglob Hnone. rewrite convert_files_unfold, Hglob. cbv zeta.
  rewrite for_formats_no_wav by exact Hnone. cbn [files trace echoed].
  rewrite Z.sub_0_r. destruct verbose; rewrite <- ?app_assoc; reflexivity.
Qed.

(** *** How many files a batch can convert *)

Lemma bounded_loop fmts paths verbose force w c c' w' :
  for_formats fmts paths verbose force c w = (Ok c', w') ->
  (c <= c' <= c + Z.of_nat (length (tasks fmts paths)))%Z.
Proof.
  intros Hrun.
  pose proof (@for_formats_rule ffmpeg_convert verbose force (tasks fmts paths)
                (fun done _ c1 => (c <= c1 <= c + Z.of_nat (length done))%Z)
                (fun _ _ _ _ => True)) as H.
  unfold loop_post in H.
  assert (Hstep : forall (done : list (Path * str)) p fmt w1 (c1 : Z),
             (c <= c1 <= c + Z.of_nat (length done))%Z ->
             In (p, fmt) (tasks fmts paths) ->
             match convert_file p fmt verbose force w1 with
             | (Ok b, _) =>
                 (c <= (if b then c1 + 1 else c1)
                    <= c + Z.of_nat (length (done ++ [(p, fmt)])))%Z
             | (Raise _, _) => True
             end).
  { intros done p fmt w1 c1 Hc _.
    destruct (convert_file p fmt verbose force w1) as [[[|]|e] w2];
      try exact Logic.I; rewrite length_app; cbn; lia. }
  specialize (H Hstep (fun done fmt w1 c1 Hc => Hc)
                paths fmts [] w c ltac:(cbn; lia) (incl_refl _)).
  now rewrite Hrun in H.
Qed.

(** X15: the summary of a completed batch.  The number of files reported
    as converted lies between 0 and the number of formats times the number
    of wav files matched, and converted plus skipped is the number of
    matches; so with at most one target format the skipped count is not
    negative, and with more it can be. *)
Theorem X15_summary_bounds
    (glob_pattern : str) (output_formats : list str) (force : bool)
    (w w' : World) (selects : Path -> bool) :
  glob_selector glob_pattern = Ok selects ->
  convert_files glob_pattern output_formats true force w = (Ok tt, w') ->
  exists printed converted_count skipped,
    echoed w' = echoed w ++ printed ++ [LogSummary converted_count skipped] /\
    (0 <= converted_count <=
       Z.of_nat (length output_formats *
                 length (candidates (filter selects (files w)))))%Z /\
    (converted_count + skipped = len (filter selects (files w)))%Z /\
    (length output_formats <= 1 -> (0 <= skipped)%Z).
Proof.
  intros Hglob Hrun. rewrite convert_files_unfold, Hglob in Hrun.
  cbv zeta in Hrun.
  destruct (for_formats output_formats _ true force 0%Z _)
    as [[c|e] w2] eqn:Hloop; [|discriminate].
  injection Hrun as <-.
  destruct (@for_formats_counts ffmpeg_convert _ _ _ _ _ _ _ _ Hloop)
    as (calls & printed & _ & He & _).
  pose proof (bounded_loop _ _ _ _ _ _ Hloop) as Hb.
  rewrite tasks_length in Hb. cbn [echoed] in *.
  exists ([LogScanning glob_pattern; LogFound (len (filter selects (files w)))]
          ++ printed), c, (len (filter selects (files w)) - c)%Z.
  split; [rewrite He, <- !app_assoc; reflexivity|].
  split; [lia|]. split; [lia|].
  intros Hone.
  assert (Hcand : length (candidates (filter selects (files w)))
                  <= length (filter selects (files w)))
    by apply filter_length_le.
  unfold len. nia.
Qed.

End MoreBatchFacts.

(** ** The batch as a sequence of conversions *)

Section CrossProduct.

Variable glob_selector : str -> Res (Path -> bool).
Variable ffmpeg_convert :
  list Invocation -> list Path -> Path -> Path -> ProcResult * list Path.

Local Abbreviation convert_file := (convert_file ffmpeg_convert).
Local Abbreviation for_paths := (for_paths ffmpeg_convert).
Local Abbreviation for_formats := (for_formats ffmpeg_convert).
Local Abbreviation convert_files := (convert_files glob_selector ffmpeg_convert).

Lemma convert_each_app verbose force b : forall a w,
  convert_each ffmpeg_convert (a ++ b) verbose force w =
  match convert_each ffmpeg_convert a verbose force w with
  | (Ok _, w') => convert_each ffmpeg_convert b verbose force w'
  | (Raise e, w') => (Raise e, w')
  end.
Proof.
  induction a as [|[p fmt] a IH]; intros w; cbn [app convert_each].
  - reflexivity.
  - unfold bind.
    destruct (convert_file p fmt verbose force w) as [[s|e] w1];
      [apply IH | reflexivity].
Qed.

Lemma tasks_cons fmt fmts paths :
  tasks (fmt :: fmts) paths =
  map (fun p => (p, fmt)) (candidates paths) ++ tasks fmts paths.
Proof. reflexivity. Qed.

(** The inner loop is the sequence of the conversions of the wav files
    among [paths], in the order of [paths]. *)
Lemma for_paths_each fmt verbose force : forall paths c wa wb,
  files wa = files wb -> trace wa = trace wb ->
  same_run (for_paths paths fmt verbose force c wa)
           (convert_each ffmpeg_convert
              (map (fun p => (p, fmt)) (candidates paths)) verbose force wb).
Proof.
  induction paths as [|p paths IH]; intros c wa wb Hf Ht.
  - unfold same_run. cbn. auto.
  - cbn [Cli.for_paths]. unfold candidates. cbn [filter].
    fold (candidates paths). fold (is_wav p).
    destruct (is_wav p); [|now apply IH].
    cbn [map convert_each]. unfold bind.
    destruct (@convert_file_same ffmpeg_convert p fmt verbose verbose force
                wa wb Hf Ht) as (Hr & Hf' & Ht').
    destruct (convert_file p fmt verbose force wa) as [[ba|ea] wa'],
             (convert_file p fmt verbose force wb) as [[bb|eb] wb'];
      cbn in Hr, Hf', Ht'; try discriminate Hr.
    + now apply IH.
    + injection Hr as <-. unfold same_run. cbn. auto.
Qed.

(** The two nested loops are the sequence of the conversions of the
    pairs, formats outermost. *)
Lemma for_formats_each paths verbose force : forall fmts c wa wb,
  files wa = files wb -> trace wa = trace wb ->
  same_run (for_formats fmts paths verbose force c wa)
           (convert_each ffmpeg_convert (tasks fmts paths) verbose force wb).
Proof.
  induction fmts as [|fmt fmts IH]; intros c wa wb Hf Ht.
  - unfold same_run. cbn. auto.
  - cbn [Cli.for_formats]. rewrite tasks_cons, convert_each_app.
    unfold bind.
    destruct (for_paths_each fmt verbose force paths c wa wb Hf Ht)
      as (Hr & Hf' & Ht').
    destruct (for_paths paths fmt verbose force c wa) as [[ca|ea] wa'],
             (convert_each ffmpeg_convert _ verbose force wb)
               as [[[]|eb] wb'];
      cbn in Hr, Hf', Ht'; try discriminate Hr.
    + rewrite log_world. now apply IH.
    + injection Hr as <-. unfold same_run. cbn. auto.
Qed.

Lemma convert_files_each pat fmts verbose force w selects :
  glob_selector pat = Ok selects ->
  same_but_printed
    (convert_files pat fmts verbose force w)
    (convert_each ffmpeg_convert (tasks fmts (filter selects (files w)))
       verbose force w).
Proof.
  intros Hglob. rewrite convert_files_unfold, Hglob. cbv zeta.
  match goal with
  | |- context [Cli.for_formats _ _ ?paths _ _ _ ?w1] =>
      pose proof (for_formats_each paths verbose force fmts 0%Z w1 w
                    eq_refl eq_refl) as (Hr & Hf & Ht);
      destruct (Cli.for_formats ffmpeg_convert fmts paths verbose force
                  0%Z w1) as [[c|e] w2]
  end;
    destruct (convert_each ffmpeg_convert _ verbose force w)
      as [[[]|e'] w3];
    cbn in Hr, Hf, Ht; try discriminate Hr;
    unfold same_but_printed; cbn [fst snd files trace]; auto.
  injection Hr as <-. auto.
Qed.

End CrossProduct.

(** C4: the batch attempts the conversions in cross-product order, formats
    outermost in the caller's order and the wav files among the glob's
    matches innermost in discovery order; the other matches are left out.
    With or without logging, and with or without [force], the batch ends
    like the conversions of these pairs attempted one after the other in
    that order (same return or exception, same files, same transcoder
    calls in the same order).  With logging on, the destinations named by
    the per-file log lines are those of the pairs, in that order (all of
    them when the batch completes, the ones before the failing pair when it
    is aborted); no transcoder run has an input that is not a wav file among
    the matches.  For the files a.wav, b.wav, c.txt and the target mp3 the
    pairs are a.wav, b.wav, and the transcoder runs are a.wav to a.mp3, then
    b.wav to b.mp3, whatever the flags; for a.wav, c.txt, b.wav and the
    targets mp3, ogg they are a.mp3, b.mp3, a.ogg, b.ogg. *)
Theorem C4_cross_product_order :
  (forall glob_selector ffmpeg_convert glob_pattern output_formats verbose
          force w selects,
     glob_selector glob_pattern = Ok selects ->
     same_but_printed
       (convert_files glob_selector ffmpeg_convert glob_pattern output_formats
          verbose force w)
       (convert_each ffmpeg_convert
          (tasks output_formats (filter selects (files w))) verbose force w)) /\
  (forall glob_selector ffmpeg_convert glob_pattern output_formats force
          w selects r w',
     glob_selector glob_pattern = Ok selects ->
     convert_files glob_selector ffmpeg_convert glob_pattern output_formats
       true force w = (r, w') ->
     exists printed k,
       echoed w' = echoed w ++ printed /\
       map Ok (attempts printed) =
         firstn k (map destination
                     (tasks output_formats (filter selects (files w)))) /\
       (r = Ok tt ->
        map Ok (attempts printed) =
          map destination (tasks output_formats (filter selects (files w))))) /\
  (forall glob_selector ffmpeg_convert glob_pattern output_formats verbose force
          w r w',
     convert_files glob_selector ffmpeg_convert glob_pattern output_formats
       verbose force w = (r, w') ->
     exists calls,
       trace w' = trace w ++ calls /\
       forall input output res,
         In (RunConvert input output res) calls ->
         is_wav input = true /\
         exists selects,
           glob_selector glob_pattern = Ok selects /\
           In input (filter selects (files w))) /\
  tasks [lit "mp3"] [file "a.wav"; file "b.wav"; file "c.txt"] =
    [(file "a.wav", lit "mp3"); (file "b.wav", lit "mp3")] /\
  (forall verbose force,
     exists w',
       convert_files glob_any ffmpeg_creates (lit "*") [lit "mp3"] verbose force
         (fresh [file "a.wav"; file "b.wav"; file "c.txt"]) = (Ok tt, w') /\
       trace w' = [RunConvert (file "a.wav") (file "a.mp3") (Exited 0);
                   RunConvert (file "b.wav") (file "b.mp3") (Exited 0)] /\
       attempts (echoed w') =
         if verbose then [file "a.mp3"; file "b.mp3"] else []) /\
  (forall verbose force,
     exists w',
       convert_files glob_any ffmpeg_creates (lit "*") [lit "mp3"; lit "ogg"]
         verbose force (fresh [file "a.wav"; file "c.txt"; file "b.wav"])
         = (Ok tt, w') /\
       trace w' = [RunConvert (file "a.wav") (file "a.mp3") (Exited 0);
                   RunConvert (file "b.wav") (file "b.mp3") (Exited 0);
                   RunConvert (file "a.wav") (file "a.ogg") (Exited 0);
                   RunConvert (file "b.wav") (file "b.ogg") (Exited 0)]).
Proof.
  split; [intros; now apply convert_files_each|].
  split; [intros; eapply convert_files_attempts; eauto|].
  split.
  { intros gs fc pat fmts verbose force w r w' Hrun.
    destruct (convert_files_fail_fast _ _ _ _ _ _ _ Hrun)
      as (calls & Ht & _ & Hin & _).
    exists calls. auto. }
  split; [vm_compute; reflexivity|].
  split.
  - intros [|] [|]; eexists; (split; [vm_compute; reflexivity|]);
      split; vm_compute; reflexivity.
  - intros [|] [|]; eexists; (split; [vm_compute; reflexivity|]);
      vm_compute; reflexivity.
Qed.

(** Over a.wav, b.wav and c.txt, with a.mp3 already there and no [force]:
    without logging, the batch ends like the conversion of a.wav followed
    by that of b.wav; with logging, the log lines name a.mp3 (skipped) and
    b.mp3 (converted), in that order; the transcoder run on b.wav is one
    on a wav file among the matches. *)
Lemma C4_witness :
  let w := fresh [file "a.wav"; file "b.wav"; file "c.txt"; file "a.mp3"] in
  let pairs := [(file "a.wav", lit "mp3"); (file "b.wav", lit "mp3")] in
  let quiet := convert_files glob_any ffmpeg_creates (lit "*") [lit "mp3"]
                 false false w in
  let w' := snd (convert_files glob_any ffmpeg_creates (lit "*") [lit "mp3"]
                   true false w) in
  same_but_printed quiet (convert_each ffmpeg_creates pairs false false w) /\
  (exists printed k,
     echoed w' = echoed w ++ printed /\
     map Ok (attempts printed) =
       firstn k (map destination
                   (tasks [lit "mp3"] (filter (fun _ => true) (files w)))) /\
     map Ok (attempts printed) =
       map destination (tasks [lit "mp3"] (filter (fun _ => true) (files w)))) /\
  (is_wav (file "b.wav") = true /\
   exists selects,
     glob_any (lit "*") = Ok selects /\
     In (file "b.wav") (filter selects (files w))).
Proof.
  intros w pairs quiet w'.
  destruct C4_cross_product_order as (Heach & Hlog & Hwav & _).
  split; [|split].
  - exact (Heach glob_any ffmpeg_creates (lit "*") [lit "mp3"] false false w
             (fun _ => true) eq_refl).
  - destruct (Hlog glob_any ffmpeg_creates (lit "*") [lit "mp3"] false w
                (fun _ => true) (Ok tt) w' eq_refl)
      as (printed & k & He & Hk & Hall).
    + vm_compute. reflexivity.
    + exists printed, k. auto.
  - destruct (Hwav glob_any ffmpeg_creates (lit "*") [lit "mp3"] false false w
                (fst quiet) (snd quiet)) as (calls & Ht & Hin).
    + apply surjective_pairing.
    + apply (Hin (file "b.wav") (file "b.mp3") (Exited 0)).
      assert (Hc : calls =
                   [RunConvert (file "b.wav") (file "b.mp3") (Exited 0)]).
      { vm_compute in Ht. symmetry. exact Ht. }
      rewrite Hc. left. reflexivity.
Defined.

(** ** What a conversion does to the file system *)

Section FileFacts.

Variable glob_selector : str -> Res (Path -> bool).
Variable ffmpeg_convert :
  list Invocation -> list Path -> Path -> Path -> ProcResult * list Path.

Local Abbreviation convert_file := (convert_file ffmpeg_convert).
Local Abbreviation for_formats := (for_formats ffmpeg_convert).
Local Abbreviation convert_files := (convert_files glob_selector ffmpeg_convert).

(** X16: what the result of [convert_file] means.  [False] is returned only
    for a skip: [force] is off, the destination exists, and neither the
    files nor the list of transcoder calls changed.  [True] is returned
    only after exactly one transcoder call, from the file to its
    destination, that ended with status 0, made because [force] is on or
    the destination did not exist. *)
Theorem X16_convert_file_result
    (p : Path) (fmt : str) (verbose force : bool) (w w' : World) (b : bool) :
  convert_file p fmt verbose force w = (Ok b, w') ->
  exists q,
    destination (p, fmt) = Ok q /\
    if b
    then (force = true \/ file_exists q w = false) /\
         trace w' = trace w ++ [RunConvert p q (Exited 0)] /\
         ffmpeg_convert (trace w) (files w) p q = (Exited 0, files w')
    else force = false /\ file_exists q w = true /\
         files w' = files w /\ trace w' = trace w.
Proof.
  intros Hrun.
  destruct (convert_file_cases ffmpeg_convert p fmt verbose force w)
    as [e Hd|q Hd Hex Hforce|q fs' Hd Hex Hcall|q r fs' Hd Hex Hcall Hr];
    try discriminate; injection Hrun as <- <-; exists q;
    (split; [exact Hd|]); cbn [files trace].
  - auto.
  - split; [|auto]. apply andb_false_iff in Hex as [Hex|Hex]; [now right|].
    left. now destruct force.
Qed.

Lemma destinations_step w all done p fmt verbose force w1 b w2 :
  creates_destination ffmpeg_convert ->
  destinations_made w all done w1 ->
  In (p, fmt) all ->
  convert_file p fmt verbose force w1 = (Ok b, w2) ->
  destinations_made w all (done ++ [(p, fmt)]) w2.
Proof.
  intros Hcreates (Hkeep & Hdone & Hnew) Hin Hrun.
  unfold creates_destination in Hcreates.
  destruct (convert_file_cases ffmpeg_convert p fmt verbose force w1)
    as [e Hd|q Hd Hex Hforce|q fs' Hd Hex Hcall|q r fs' Hd Hex Hcall Hr];
    try discriminate; injection Hrun as <- <-; cbn [files].
  - split; [exact Hkeep|]. split; [|exact Hnew].
    intros t Ht. apply in_app_or in Ht as [Ht|[<-|[]]]; [now apply Hdone|].
    exists q. split; [assumption|]. now apply file_exists_In.
  - pose proof (Hcreates _ _ _ _ _ Hcall) as Hfs.
    split; [|split].
    + intros x Hx. apply Hfs. left. now apply Hkeep.
    + intros t Ht. apply in_app_or in Ht as [Ht|[<-|[]]].
      * destruct (Hdone t Ht) as (x & Hdx & Hx). exists x.
        split; [exact Hdx|]. apply Hfs. now left.
      * exists q. split; [assumption|]. apply Hfs. now right.
    + intros x Hx. apply Hfs in Hx as [Hx| ->]; [now apply Hnew|].
      right. exists (p, fmt). auto.
Qed.

Lemma destinations_loop fmts paths verbose force w c c' w' :
  creates_destination ffmpeg_convert ->
  for_formats fmts paths verbose force c w = (Ok c', w') ->
  destinations_made w (tasks fmts paths) (tasks fmts paths) w'.
Proof.
  intros Hcreates Hrun.
  pose proof (@for_formats_rule ffmpeg_convert verbose force (tasks fmts paths)
                (fun done w1 _ => destinations_made w (tasks fmts paths) done w1)
                (fun _ _ _ _ => True)) as H.
  unfold loop_post in H.
  assert (Hstep : forall done p fmt w1 (c1 : Z),
             destinations_made w (tasks fmts paths) done w1 ->
             In (p, fmt) (tasks fmts paths) ->
             match convert_file p fmt verbose force w1 with
             | (Ok b, w2) =>
                 destinations_made w (tasks fmts paths) (done ++ [(p, fmt)]) w2
             | (Raise _, _) => True
             end).
  { intros done p fmt w1 c1 Hd Hin.
    destruct (convert_file p fmt verbose force w1) as [[b|e] w2] eqn:Hcf;
      [|exact Logic.I].
    eapply destinations_step; eauto. }
  assert (Hstart : destinations_made w (tasks fmts paths) [] w).
  { split; [auto|]. split; [intros t []|auto]. }
  specialize (H Hstep
                (fun done fmt w1 c1 Hd => ltac:(rewrite log_world; exact Hd))
                paths fmts [] w c Hstart (incl_refl _)).
  now rewrite Hrun in H.
Qed.

(** X17: the files after a completed batch, for a transcoder that on
    success adds its output file and nothing else.  With or without [-f]:
    no file has disappeared, the destination of every (wav file, format)
    pair exists, and every file that is new is such a destination. *)
Theorem X17_files_after_a_batch
    (glob_pattern : str) (output_formats : list str) (verbose force : bool)
    (w w' : World) (selects : Path -> bool) :
  creates_destination ffmpeg_convert ->
  glob_selector glob_pattern = Ok selects ->
  convert_files glob_pattern output_formats verbose force w = (Ok tt, w') ->
  let pairs := tasks output_formats (filter selects (files w)) in
  (forall q, In q (files w) -> In q (files w')) /\
  (forall t, In t pairs -> exists q, destination t = Ok q /\ In q (files w')) /\
  (forall q, In q (files w') ->
     In q (files w) \/ exists t, In t pairs /\ destination t = Ok q).
Proof.
  intros Hcreates Hglob Hrun. rewrite convert_files_unfold, Hglob in Hrun.
  cbv zeta in Hrun.
  destruct (for_formats output_formats _ verbose force 0%Z _)
    as [[c|e] w2] eqn:Hloop; [|discriminate].
  injection Hrun as <-. cbn [files].
  exact (@destinations_loop _ _ _ _ _ _ _ _ Hcreates Hloop).
Qed.


End FileFacts.

(** ** Destinations and their sources *)

Section DestinationFacts.

Lemma rfind_absent c : forall s, ~ In c s -> rfind c s = None.
Proof.
  induction s as [|x s IH]; intros H; [reflexivity|].
  cbn. rewrite IH by (intros Hc; apply H; now right).
  destruct (chr_eqb x c) eqn:E; [|reflexivity].
  apply chr_eqb_eq in E. exfalso. apply H. now left.
Qed.

Lemma rfind_last c b : ~ In c b ->
  forall a, rfind c (a ++ c :: b) = Some (length a).
Proof.
  intros Hb. induction a as [|x a IH]; cbn.
  - rewrite (@rfind_absent c b Hb).
    replace (chr_eqb c c) with true; [reflexivity|].
    symmetry. now apply chr_eqb_eq.
  - now rewrite IH.
Qed.

Lemma contains_absent c s : ~ In c s -> contains c s = false.
Proof.
  intros H. unfold contains. destruct (existsb (chr_eqb c) s) eqn:E;
    [|reflexivity].
  apply existsb_exists in E as (x & Hx & E). apply chr_eqb_eq in E.
  subst x. contradiction.
Qed.

Lemma suffix_of d (stem ext : str) :
  stem <> [] -> ext <> [] -> ~ In "."%char ext ->
  suffix (mkPath d (stem ++ "."%char :: ext)) = "."%char :: ext.
Proof.
  intros Hs He Hdot. unfold suffix. cbn [name].
  rewrite (@rfind_last _ _ Hdot stem).
  assert (0 < length stem) by (destruct stem; [congruence|cbn; lia]).
  assert (0 < length ext) by (destruct ext; [congruence|cbn; lia]).
  replace (0 <? length stem) with true by (symmetry; now apply Nat.ltb_lt).
  replace (length stem <? length (stem ++ "."%char :: ext) - 1) with true.
  - cbn [andb]. rewrite skipn_app, Nat.sub_diag, skipn_all. reflexivity.
  - symmetry. apply Nat.ltb_lt. rewrite length_app. cbn [length]. lia.
Qed.

Lemma with_suffix_of d (stem ext ext' : str) :
  stem <> [] -> ext <> [] -> ~ In "."%char ext ->
  ext' <> [] -> ~ In "/"%char ext' ->
  with_suffix (mkPath d (stem ++ "."%char :: ext)) ("."%char :: ext') =
  Ok (mkPath d (stem ++ "."%char :: ext')).
Proof.
  intros Hs He Hdot He' Hsep. unfold with_suffix.
  replace (contains "/" ("."%char :: ext')) with false
    by (symmetry; apply (@contains_absent _ _ Hsep)).
  replace (PyStr.eqb ("."%char :: ext') (lit "."))
    with false by (destruct ext'; [congruence|reflexivity]).
  cbn [is_empty negb startswith lit list_ascii_of_string andb orb].
  replace (chr_eqb "." ".") with true by reflexivity. cbn [andb negb orb].
  cbv iota. cbn [name parent].
  replace (is_empty (stem ++ "."%char :: ext)) with false
    by (now destruct stem).
  rewrite suffix_of by assumption. cbn [is_empty].
  f_equal. f_equal. f_equal. rewrite length_app.
  replace (length stem + length ("."%char :: ext) - length ("."%char :: ext))
    with (length stem) by lia.
  now rewrite firstn_app, Nat.sub_diag, firstn_all, app_nil_r.
Qed.

Lemma wav_stem p :
  is_wav p = true ->
  exists stem, stem <> [] /\ p = mkPath (parent p) (stem ++ lit ".wav").
Proof.
  intros Hw. pose proof (wav_name p Hw) as Hn.
  apply is_wav_suffix in Hw. unfold suffix in Hw.
  destruct (rfind "." (name p)) as [i|]; [|discriminate].
  destruct ((0 <? i) && (i <? length (name p) - 1)) eqn:E; [|discriminate].
  apply andb_true_iff in E as [E1 E2].
  apply Nat.ltb_lt in E1. apply Nat.ltb_lt in E2.
  assert (Hlen : length (skipn i (name p)) = 4) by now rewrite Hw.
  rewrite length_skipn in Hlen.
  exists (firstn (length (name p) - 4) (name p)). split.
  - intros Hnil. apply (f_equal (@length ascii)) in Hnil.
    rewrite length_firstn in Hnil. cbn in Hnil. lia.
  - rewrite <- Hn. now destruct p.
Qed.

(** X19: destinations of wav files.  For a target extension that is not
    empty and has no dot and no slash, the destination of a wav file is
    always defined; it lies in the same directory, its suffix is the dot
    and the extension, and changing its suffix back to [.wav] gives the
    source again, so two different wav files never share a destination. *)
Theorem X19_destination_round_trip (p : Path) (fmt : str) :
  is_wav p = true ->
  fmt <> [] -> ~ In "."%char fmt -> ~ In "/"%char fmt ->
  exists q,
    destination (p, fmt) = Ok q /\
    parent q = parent p /\
    suffix q = "."%char :: fmt /\
    destination (q, lit "wav") = Ok p /\
    forall p', is_wav p' = true -> destination (p', fmt) = Ok q -> p' = p.
Proof.
  intros Hw Hne Hdot Hsep.
  assert (Hwav : forall stem d,
             stem <> [] ->
             with_suffix (mkPath d (stem ++ "."%char :: fmt))
                         ("."%char :: lit "wav") =
             Ok (mkPath d (stem ++ lit ".wav"))).
  { intros stem d Hs. apply with_suffix_of; auto; try discriminate.
    cbn. intuition discriminate. }
  assert (Hto : forall x, is_wav x = true ->
             exists stem, stem <> [] /\
               x = mkPath (parent x) (stem ++ lit ".wav") /\
               destination (x, fmt) =
                 Ok (mkPath (parent x) (stem ++ "."%char :: fmt))).
  { intros x Hx. destruct (wav_stem x Hx) as (stem & Hs & Ex).
    exists stem. split; [exact Hs|]. split; [exact Ex|].
    unfold destination. cbn [fst snd]. rewrite Ex at 1.
    apply with_suffix_of; auto; try discriminate.
    cbn. intuition discriminate. }
  destruct (Hto p Hw) as (stem & Hs & Ep & Hd).
  exists (mkPath (parent p) (stem ++ "."%char :: fmt)).
  split; [exact Hd|]. split; [reflexivity|].
  split; [now apply suffix_of|].
  split.
  - unfold destination. cbn [fst snd]. rewrite Hwav by exact Hs.
    now rewrite <- Ep.
  - intros p' Hw' Hd'.
    destruct (Hto p' Hw') as (stem' & Hs' & Ep' & Hd2).
    rewrite Hd2 in Hd'. injection Hd' as Hpar Hname.
    apply app_inv_tail in Hname. rewrite Ep', Ep, Hpar, Hname.
    reflexivity.
Qed.

End DestinationFacts.

Lemma X19_witness :
  exists q,
    destination (file "a.wav", lit "mp3") = Ok q /\
    parent q = parent (file "a.wav") /\
    suffix q = "."%char :: lit "mp3" /\
    destination (q, lit "wav") = Ok (file "a.wav") /\
    forall p', is_wav p' = true -> destination (p', lit "mp3") = Ok q ->
               p' = file "a.wav".
Proof.
  apply (@X19_destination_round_trip (file "a.wav") (lit "mp3")).
  - reflexivity.
  - discriminate.
  - cbn. intuition discriminate.
  - cbn. intuition discriminate.
Defined.

(** ** How the [convert] command ends *)

Section CommandEnds.

Variable glob_selector : str -> Res (Path -> bool).
Variable ffmpeg_convert :
  list Invocation -> list Path -> Path -> Path -> ProcResult * list Path.
Variable ffmpeg_version : list Invocation -> list Path -> ProcResult.
Variable os_type : str.
Variable formats_output : str.

Local Abbreviation convert :=
  (convert glob_selector ffmpeg_convert ffmpeg_version os_type formats_output).
Local Abbreviation convert_file := (convert_file ffmpeg_convert).
Local Abbreviation for_formats := (for_formats ffmpeg_convert).
Local Abbreviation convert_files := (convert_files glob_selector ffmpeg_convert).

Lemma report_error_world e w :
  report_error e w =
  (Raise (TyperExit 1), mkWorld (files w) (trace w) (echoed w ++ [EchoError e])).
Proof. reflexivity. Qed.



Lemma echo_install_hint_cases w :
  exists hint,
    echo_install_hint os_type w =
    (Ok tt, mkWorld (files w) (trace w) (echoed w ++ [hint])) /\
    (os_type = lit "Darwin" -> hint = EchoHintMacOS) /\
    (os_type = lit "Linux" -> hint = EchoHintUbuntu) /\
    (os_type = lit "Windows" -> hint = EchoHintWindows) /\
    (os_type <> lit "Darwin" -> os_type <> lit "Linux" ->
     os_type <> lit "Windows" -> hint = EchoHintGuide os_type).
Proof.
  unfold echo_install_hint.
  destruct (PyStr.eqb os_type (lit "Darwin")) eqn:Ed.
  { apply str_eqb_eq in Ed. eexists. split; [reflexivity|].
    rewrite Ed. repeat split; try discriminate; congruence. }
  destruct (PyStr.eqb os_type (lit "Linux")) eqn:El.
  { apply str_eqb_eq in El. eexists. split; [reflexivity|].
    rewrite El. repeat split; try discriminate; congruence. }
  destruct (PyStr.eqb os_type (lit "Windows")) eqn:Ew.
  { apply str_eqb_eq in Ew. eexists. split; [reflexivity|].
    rewrite Ew. repeat split; try discriminate; congruence. }
  eexists. split; [reflexivity|].
  repeat split; try reflexivity; intros ->; discriminate.
Qed.

(** X21: when the installation check does not pass, nothing else happens:
    the check is the only subprocess call, no file changes, and the exit
    status is 1 whatever formats were requested.  If [ffmpeg] could not be
    started the command prints that it is not installed and then the hint
    for the platform (brew for Darwin, apt-get for Linux, winget or scoop
    for Windows, the installation guide otherwise) and raises
    [typer.Exit(1)]; if it started and exited with a nonzero status, the
    [CalledProcessError] escapes and nothing is printed. *)
Theorem X21_failed_installation_check
    (glob_pattern : str) (output : list str) (verbose force : bool)
    (w : World) :
  let probe := ffmpeg_version (trace w) (files w) in
  let out := convert glob_pattern output verbose force w in
  probe <> Exited 0 ->
  files (snd out) = files w /\
  trace (snd out) = trace w ++ [RunVersion probe] /\
  exit_status (fst out) = 1%Z /\
  (probe = NotFound ->
   fst out = Raise (TyperExit 1) /\
   exists hint,
     echoed (snd out) = echoed w ++ [EchoNotInstalled; hint] /\
     (os_type = lit "Darwin" -> hint = EchoHintMacOS) /\
     (os_type = lit "Linux" -> hint = EchoHintUbuntu) /\
     (os_type = lit "Windows" -> hint = EchoHintWindows) /\
     (os_type <> lit "Darwin" -> os_type <> lit "Linux" ->
      os_type <> lit "Windows" -> hint = EchoHintGuide os_type)) /\
  (forall c, probe = Exited c ->
   fst out = Raise (CalledProcessError c) /\
   echoed (snd out) = echoed w).
Proof.
  intros probe out Hbad. subst out probe.
  unfold Cli.convert, bind, check_ffmpeg_installation.
  destruct (ffmpeg_version (trace w) (files w)) as [[|c|c]|] eqn:Hprobe;
    [congruence| | |]; cbn.
  - do 3 (split; [reflexivity|]). split; [discriminate|].
    intros c' [= <-]. split; reflexivity.
  - do 3 (split; [reflexivity|]). split; [discriminate|].
    intros c' [= <-]. split; reflexivity.
  - destruct (echo_install_hint_cases
                (mkWorld (files w) (trace w ++ [RunVersion NotFound])
                   (echoed w ++ [EchoNotInstalled])))
      as (hint & -> & Hhint).
    cbn [fst snd files trace echoed raise exit_status].
    do 3 (split; [reflexivity|]). split; [|discriminate].
    intros _. split; [reflexivity|].
    exists hint. rewrite <- app_assoc. split; [reflexivity|exact Hhint].
Qed.

(** X22: a pattern that [glob] rejects is reported, not propagated: once
    the installation check has passed and the formats are accepted, the
    command prints "Error occurred" with the exception of [glob] and raises
    [typer.Exit(1)], without a transcoder call, a change to the files, or a
    log line, even with [-v]. *)
Theorem X22_rejected_pattern_is_reported
    (glob_pattern : str) (output : list str) (verbose force : bool)
    (w : World) (e : exn) :
  ffmpeg_version (trace w) (files w) = Exited 0 ->
  first_unsupported formats_output output = None ->
  glob_selector glob_pattern = Raise e ->
  convert glob_pattern output verbose force w =
  (Raise (TyperExit 1),
   mkWorld (files w) (trace w ++ [RunVersion (Exited 0)])
     (echoed w ++ [EchoError e])).
Proof.
  intros Hprobe Hsup Hglob.
  pose proof (convert_unfold glob_selector ffmpeg_convert ffmpeg_version
                os_type formats_output glob_pattern output verbose force w)
    as H.
  cbv zeta in H. rewrite Hprobe, Hsup in H. rewrite H.
  unfold try_except. rewrite convert_files_unfold, Hglob.
  reflexivity.
Qed.

Lemma echo_grows_loop fmts paths verbose force w c r w' :
  for_formats fmts paths verbose force c w = (r, w') ->
  exists printed, echoed w' = echoed w ++ printed.
Proof.
  intros Hrun.
  pose proof (@for_formats_rule ffmpeg_convert verbose force (tasks fmts paths)
                (fun _ w1 _ => exists printed, echoed w1 = echoed w ++ printed)
                (fun _ _ _ w1 => exists printed, echoed w1 = echoed w ++ printed))
    as H.
  unfold loop_post in H.
  assert (Hstep : forall (done : list (Path * str)) p fmt w1 (c1 : Z),
             (exists printed, echoed w1 = echoed w ++ printed) ->
             In (p, fmt) (tasks fmts paths) ->
             match convert_file p fmt verbose force w1 with
             | (Ok _, w2) => exists printed, echoed w2 = echoed w ++ printed
             | (Raise _, w2) => exists printed, echoed w2 = echoed w ++ printed
             end).
  { intros done p fmt w1 c1 (printed & He) _.
    destruct (convert_file_cases ffmpeg_convert p fmt verbose force w1);
      cbn [echoed]; rewrite ?He, <- ?app_assoc; eauto. }
  assert (Hlog : forall (done : list (Path * str)) fmt w1 (c1 : Z),
             (exists printed, echoed w1 = echoed w ++ printed) ->
             exists printed,
               echoed (snd (log (LogConvertedTo c1 fmt) verbose w1)) =
               echoed w ++ printed).
  { intros done fmt w1 c1 (printed & He). rewrite log_world. cbn [snd echoed].
    rewrite He, <- app_assoc. eauto. }
  assert (Hstart : exists printed, echoed w = echoed w ++ printed)
    by (exists []; now rewrite app_nil_r).
  specialize (H Hstep Hlog paths fmts [] w c Hstart (incl_refl _)).
  rewrite Hrun in H. destruct r as [c'|err]; [exact H|].
  destruct H as (pre & t & post & _ & H). exact H.
Qed.

Lemma echo_grows pat fmts verbose force w r w' :
  convert_files pat fmts verbose force w = (r, w') ->
  exists printed, echoed w' = echoed w ++ printed.
Proof.
  rewrite convert_files_unfold.
  destruct (glob_selector pat) as [selects|e].
  - cbv zeta.
    destruct (Cli.for_formats ffmpeg_convert fmts _ verbose force 0%Z _)
      as [[c|e] w2] eqn:Hloop; intros [= <- <-];
      destruct (echo_grows_loop _ _ _ _ _ _ Hloop) as (printed & He);
      cbn [echoed] in *; rewrite He, <- ?app_assoc; eauto.
  - intros [= <- <-]. exists []. now rewrite app_nil_r.
Qed.

(** X23: a failed transcoder run ends the command.  If one of the
    subprocess calls of [convert] is a transcoder run that did not exit
    with status 0, that run is the last call made, the last line printed is
    "Error occurred" with the exception of that run, and the command raises
    [typer.Exit(1)]. *)
Theorem X23_failed_run_ends_the_command
    (glob_pattern : str) (output : list str) (verbose force : bool)
    (w : World) (calls : list Invocation)
    (input target : Path) (res : ProcResult) :
  let out := convert glob_pattern output verbose force w in
  trace (snd out) = trace w ++ calls ->
  In (RunConvert input target res) calls ->
  succeeded res = false ->
  fst out = Raise (TyperExit 1) /\
  (exists before, calls = before ++ [RunConvert input target res]) /\
  (exists printed,
     echoed (snd out) = echoed w ++ printed ++ [EchoError (failure res)]).
Proof.
  intros out Htrace Hin Hres.
  pose proof (convert_unfold glob_selector ffmpeg_convert ffmpeg_version
                os_type formats_output glob_pattern output verbose force w)
    as H.
  cbv zeta in H. subst out.
  assert (Hone : forall probe, calls = [RunVersion probe] -> False).
  { intros probe ->. destruct Hin as [Hin|[]]. discriminate. }
  destruct (ffmpeg_version (trace w) (files w)) as [[|c|c]|] eqn:Hprobe.
  - destruct (first_unsupported formats_output output) as [bad|] eqn:Hbad.
    + rewrite H in Htrace. cbn in Htrace. apply app_inv_head in Htrace.
      exfalso. eapply Hone. eauto.
    + rewrite H in *. unfold try_except in *.
      destruct (Cli.convert_files glob_selector ffmpeg_convert glob_pattern
                  output verbose force _) as [r w2] eqn:Hb.
      destruct (convert_files_fail_fast _ _ _ _ _ _ _ Hb)
        as (calls2 & Ht & Hff & _ & _).
      destruct (echo_grows _ _ _ _ _ Hb) as (printed & He).
      cbn [trace echoed] in Ht, He.
      assert (Hcalls : calls = RunVersion (Exited 0) :: calls2).
      { destruct r as [[]|e]; [|rewrite report_error_world in Htrace];
          cbn [snd trace] in Htrace; rewrite Ht, <- app_assoc in Htrace;
          apply app_inv_head in Htrace; now rewrite <- Htrace. }
      subst calls. destruct Hin as [Hin|Hin]; [discriminate|].
      apply in_split in Hin as (pre & post & ->).
      destruct (Hff pre (RunConvert input target res) post eq_refl)
        as (-> & i & o & res' & Hi & ->).
      { cbn. now rewrite Hres. }
      injection Hi as <- <- <-.
      rewrite report_error_world. cbn [fst snd echoed].
      split; [reflexivity|]. split.
      * exists (RunVersion (Exited 0) :: pre). reflexivity.
      * exists printed. rewrite He, <- app_assoc. reflexivity.
  - rewrite H in Htrace. cbn in Htrace. apply app_inv_head in Htrace.
    exfalso. eapply Hone. eauto.
  - rewrite H in Htrace. cbn in Htrace. apply app_inv_head in Htrace.
    exfalso. eapply Hone. eauto.
  - destruct H as (hint & H). rewrite H in Htrace. cbn in Htrace.
    apply app_inv_head in Htrace. exfalso. eapply Hone. eauto.
Qed.

End CommandEnds.

(** ** The theorems on concrete runs *)

(** The dictionary of the two-line listing: the mp3 entry is a descriptor
    of the catalog, and mp2 is a key. *)
Lemma X5_witness :
  let f := mkFFmpegFormat true true (lit "mp3") (lit "MPEG audio layer") in
  (extension f = lit "mp3" /\ In f (SUPPORTED_FORMATS two_lines)) /\
  In (lit "mp2") (map fst (SUPPORTED_FORMATS_BY_EXTENSION two_lines)).
Proof.
  intros f.
  destruct (X5_one_entry_per_extension two_lines) as (_ & Hkv & Hkeys).
  split.
  - apply (Hkv (lit "mp3") f). vm_compute. auto.
  - apply (Hkeys (mkFFmpegFormat true true (lit "mp2")
                    (lit "MPEG audio layer"))).
    vm_compute. auto.
Defined.

(** mp3 of the two-line listing is a common decoder and a common encoder;
    mp2 is neither, since it is not in the default set. *)
Lemma X6_witness :
  let mp3 := mkFFmpegFormat true true (lit "mp3") (lit "MPEG audio layer") in
  let mp2 := mkFFmpegFormat true true (lit "mp2") (lit "MPEG audio layer") in
  In mp3 (COMMON_SUPPORTED_DECODE_FORMATS two_lines) /\
  In mp3 (COMMON_SUPPORTED_ENCODE_FORMATS two_lines) /\
  ~ In mp2 (COMMON_SUPPORTED_DECODE_FORMATS two_lines).
Proof.
  intros mp3 mp2.
  destruct (X6_common_views two_lines) as (Hd & He & _).
  split; [|split].
  - refine (proj2 (Hd mp3) _). split; [vm_compute; auto|].
    split; [reflexivity|]. right. left. reflexivity.
  - refine (proj2 (He mp3) _). split; [vm_compute; auto|].
    split; [reflexivity|]. right. left. reflexivity.
  - intros H. destruct (proj1 (Hd mp2) H) as (_ & _ & Hin).
    repeat (destruct Hin as [Hin|Hin]; [discriminate Hin|]). destruct Hin.
Defined.

(** [info] without ffmpeg, and with an ffmpeg whose check exits with
    status 2. *)
Lemma X8_witness :
  let absent := info ffmpeg_absent two_lines (fresh []) in
  let broken := info ffmpeg_broken two_lines (fresh []) in
  (fst (fst absent) = SystemExit 1 /\
   snd absent = [Style (lit "ffmpeg is NOT installed") None RED]) /\
  (fst (fst broken) = Uncaught (CalledProcessError 2) /\ snd broken = []).
Proof.
  intros absent broken. split.
  - destruct (@X8_info_without_ffmpeg ffmpeg_absent two_lines true true false
                (fresh [])) as (_ & H & _).
    apply H. reflexivity.
  - destruct (@X8_info_without_ffmpeg ffmpeg_broken two_lines true true false
                (fresh [])) as (_ & _ & H).
    apply (H 2%Z); [reflexivity | discriminate].
Defined.

(** [info] on an empty listing stops in [max]; on the two-line listing it
    returns. *)
Lemma X9_witness :
  let empty := info ffmpeg_installed (lit "") (fresh []) in
  let two := info ffmpeg_installed two_lines (fresh []) in
  (fst (fst empty) = Uncaught ValueError /\
   snd empty = [Style (lit "ffmpeg is installed") None GREEN]) /\
  SUPPORTED_FORMATS two_lines <> [].
Proof.
  intros empty two. split.
  - destruct (@X9_info_needs_a_format ffmpeg_installed (lit "") true true
                false (fresh []) eq_refl) as (H & _).
    refine (H _). vm_compute. reflexivity.
  - destruct (@X9_info_needs_a_format ffmpeg_installed two_lines true true
                false (fresh []) eq_refl) as (_ & H).
    refine (proj1 H _). vm_compute. reflexivity.
Defined.

(** What [info] prints for the two-line listing: mp3 is the only common
    format, in both parts, and its line is bold. *)
Lemma X10_witness :
  snd (info ffmpeg_installed two_lines (fresh [])) =
  [Style (lit "ffmpeg is installed") None GREEN;
   Plain (newline :: lit "Decoders:");
   Style (lit "mp3   MPEG audio layer") (Some true) YELLOW;
   Plain (newline :: lit "Encoders:");
   Style (lit "mp3   MPEG audio layer") (Some true) BLUE].
Proof.
  unfold info.
  rewrite (@X10_info_listing ffmpeg_installed two_lines true true false
             (fresh []) eq_refl).
  - vm_compute. reflexivity.
  - vm_compute. discriminate.
Defined.

(** In the two-line listing the column is 6 wide, so mp3 is followed by 3
    blanks. *)
Lemma X11_witness :
  exists blanks,
    pad (lit "mp3") (info_width two_lines) =
      lit "mp3" ++ repeat " "%char blanks /\
    3 <= blanks /\
    length (pad (lit "mp3") (info_width two_lines)) = info_width two_lines.
Proof.
  apply (@X11_info_columns two_lines
           (mkFFmpegFormat true true (lit "mp3") (lit "MPEG audio layer"))).
  vm_compute. auto.
Defined.

(** With [-f], a.wav is converted although a.mp3 exists. *)
Lemma X13_witness :
  let w := fresh [file "a.wav"; file "a.mp3"] in
  let out := convert_files glob_any ffmpeg_creates (lit "*") [lit "mp3"]
               false true w in
  exists calls,
    trace (snd out) = trace w ++ calls /\
    map Some calls =
      map call_of (tasks [lit "mp3"] (filter (fun _ => true) (files w))) /\
    count_converted calls =
      Z.of_nat (length [lit "mp3"] *
                length (candidates (filter (fun _ => true) (files w)))).
Proof.
  intros w out.
  apply (@X13_force_runs_every_task glob_any ffmpeg_creates (lit "*")
           [lit "mp3"] false w (snd out) (fun _ => true)).
  - reflexivity.
  - vm_compute. reflexivity.
Defined.

(** A directory without a wav file: nothing is run, and with [-v] the
    summary counts the one match as skipped. *)
Lemma X14_witness :
  let w := fresh [file "notes.txt"] in
  convert_files glob_any ffmpeg_creates (lit "*") [lit "mp3"] true false w =
  (Ok tt,
   mkWorld [file "notes.txt"] []
     [LogScanning (lit "*"); LogFound 1; LogConvertedTo 0 (lit "mp3");
      LogSummary 0 1]).
Proof.
  intros w.
  rewrite (@X14_no_wav_file_no_work glob_any ffmpeg_creates (lit "*")
             [lit "mp3"] true false w (fun _ => true)).
  - reflexivity.
  - reflexivity.
  - reflexivity.
Defined.

(** One format, two matches of which one is a wav file: the skipped count
    is not negative. *)
Lemma X15_witness :
  let w := fresh [file "a.wav"; file "notes.txt"] in
  let out := convert_files glob_any ffmpeg_creates (lit "*") [lit "mp3"]
               true false w in
  exists printed converted_count skipped,
    echoed (snd out) =
      echoed w ++ printed ++ [LogSummary converted_count skipped] /\
    (0 <= skipped)%Z.
Proof.
  intros w out.
  destruct (@X15_summary_bounds glob_any ffmpeg_creates (lit "*")
              [lit "mp3"] false w (snd out) (fun _ => true))
    as (printed & c & s & He & _ & _ & Hone).
  - reflexivity.
  - vm_compute. reflexivity.
  - exists printed, c, s. split; [exact He|]. apply Hone. cbn. lia.
Defined.

(** Converting a.wav when a.mp3 is absent: one successful run to a.mp3. *)
Lemma X16_witness :
  let w := fresh [file "a.wav"] in
  let out := convert_file ffmpeg_creates (file "a.wav") (lit "mp3")
               false false w in
  exists q,
    destination (file "a.wav", lit "mp3") = Ok q /\
    (false = true \/ file_exists q w = false) /\
    trace (snd out) = trace w ++ [RunConvert (file "a.wav") q (Exited 0)] /\
    ffmpeg_creates (trace w) (files w) (file "a.wav") q =
      (Exited 0, files (snd out)).
Proof.
  intros w out.
  apply (@X16_convert_file_result ffmpeg_creates (file "a.wav") (lit "mp3")
           false false w (snd out) true).
  vm_compute. reflexivity.
Defined.

(** After converting a directory with a.wav to mp3, a.wav is still there
    and a.mp3 exists. *)
Lemma X17_witness :
  let w := fresh [file "a.wav"] in
  let out := convert_files glob_any ffmpeg_creates (lit "*") [lit "mp3"]
               false false w in
  In (file "a.wav") (files (snd out)) /\
  exists q, destination (file "a.wav", lit "mp3") = Ok q /\
            In q (files (snd out)).
Proof.
  intros w out.
  destruct (@X17_files_after_a_batch glob_any ffmpeg_creates (lit "*")
              [lit "mp3"] false false w (snd out) (fun _ => true)
              ffmpeg_creates_destination eq_refl)
    as (Hkeep & Hmade & _).
  - vm_compute. reflexivity.
  - split.
    + apply Hkeep. left. reflexivity.
    + apply (Hmade (file "a.wav", lit "mp3")). left. reflexivity.
Defined.



(** Without ffmpeg, the hint of each platform; with a broken ffmpeg, the
    escaping [CalledProcessError]. *)
Lemma X21_witness :
  let run := fun probe os =>
    convert glob_any ffmpeg_creates probe (lit os) two_lines (lit "*")
      [lit "ogg"] true false (fresh [file "a.wav"]) in
  echoed (snd (run ffmpeg_absent "Darwin"%string)) =
    [EchoNotInstalled; EchoHintMacOS] /\
  echoed (snd (run ffmpeg_absent "Linux"%string)) =
    [EchoNotInstalled; EchoHintUbuntu] /\
  echoed (snd (run ffmpeg_absent "Windows"%string)) =
    [EchoNotInstalled; EchoHintWindows] /\
  echoed (snd (run ffmpeg_absent "FreeBSD"%string)) =
    [EchoNotInstalled; EchoHintGuide (lit "FreeBSD")] /\
  fst (run ffmpeg_broken "Linux"%string) = Raise (CalledProcessError 2).
Proof.
  intros run. subst run. cbv beta.
  assert (Hprobe : forall c, NotFound <> Exited c) by discriminate.
  split; [|split; [|split; [|split]]].
  - destruct (@X21_failed_installation_check glob_any ffmpeg_creates
                ffmpeg_absent (lit "Darwin") two_lines (lit "*") [lit "ogg"]
                true false (fresh [file "a.wav"]) (Hprobe 0%Z))
      as (_ & _ & _ & H & _).
    destruct (H eq_refl) as (_ & hint & -> & Hd & _).
    now rewrite (Hd eq_refl).
  - destruct (@X21_failed_installation_check glob_any ffmpeg_creates
                ffmpeg_absent (lit "Linux") two_lines (lit "*") [lit "ogg"]
                true false (fresh [file "a.wav"]) (Hprobe 0%Z))
      as (_ & _ & _ & H & _).
    destruct (H eq_refl) as (_ & hint & -> & _ & Hl & _).
    now rewrite (Hl eq_refl).
  - destruct (@X21_failed_installation_check glob_any ffmpeg_creates
                ffmpeg_absent (lit "Windows") two_lines (lit "*") [lit "ogg"]
                true false (fresh [file "a.wav"]) (Hprobe 0%Z))
      as (_ & _ & _ & H & _).
    destruct (H eq_refl) as (_ & hint & -> & _ & _ & Hw & _).
    now rewrite (Hw eq_refl).
  - destruct (@X21_failed_installation_check glob_any ffmpeg_creates
                ffmpeg_absent (lit "FreeBSD") two_lines (lit "*") [lit "ogg"]
                true false (fresh [file "a.wav"]) (Hprobe 0%Z))
      as (_ & _ & _ & H & _).
    destruct (H eq_refl) as (_ & hint & -> & _ & _ & _ & Hg).
    rewrite Hg; [reflexivity | discriminate | discriminate | discriminate].
  - assert (Hbroken : Exited 2 <> Exited 0) by discriminate.
    destruct (@X21_failed_installation_check glob_any ffmpeg_creates
                ffmpeg_broken (lit "Linux") two_lines (lit "*") [lit "ogg"]
                true false (fresh [file "a.wav"]) Hbroken)
      as (_ & _ & _ & _ & H).
    now destruct (H 2%Z eq_refl).
Defined.

(** A rejected pattern, with ffmpeg installed and mp3 supported. *)
Lemma X22_witness :
  convert glob_rejects ffmpeg_creates ffmpeg_installed (lit "Linux")
    two_lines (lit "[") [lit "mp3"] true false (fresh [file "a.wav"]) =
  (Raise (TyperExit 1),
   mkWorld [file "a.wav"] [RunVersion (Exited 0)] [EchoError ValueError]).
Proof.
  rewrite (@X22_rejected_pattern_is_reported glob_rejects ffmpeg_creates
             ffmpeg_installed (lit "Linux") two_lines (lit "[") [lit "mp3"]
             true false (fresh [file "a.wav"]) ValueError).
  - reflexivity.
  - reflexivity.
  - vm_compute. reflexivity.
  - reflexivity.
Defined.

(** The transcoder fails on b.wav: the command stops there with
    [typer.Exit(1)], and c.wav is never tried. *)
Lemma X23_witness :
  let w := fresh [file "a.wav"; file "b.wav"; file "c.wav"] in
  let out := convert glob_any (ffmpeg_fails_on (file "b.wav"))
               ffmpeg_installed (lit "Linux") two_lines (lit "*")
               [lit "mp3"] false false w in
  fst out = Raise (TyperExit 1) /\
  exists printed,
    echoed (snd out) =
      echoed w ++ printed ++ [EchoError (CalledProcessError 1)].
Proof.
  intros w out.
  destruct (@X23_failed_run_ends_the_command glob_any
              (ffmpeg_fails_on (file "b.wav")) ffmpeg_installed (lit "Linux")
              two_lines (lit "*") [lit "mp3"] false false w
              [RunVersion (Exited 0);
               RunConvert (file "a.wav") (file "a.mp3") (Exited 0);
               RunConvert (file "b.wav") (file "b.mp3") (Exited 1)]
              (file "b.wav") (file "b.mp3") (Exited 1))
    as (Hr & _ & He).
  - vm_compute. reflexivity.
  - right. right. left. reflexivity.
  - reflexivity.
  - split; [exact Hr | exact He].
Defined.
